(** * Clockwork billing layer: restriction engine, webhook handler,
      scheduled sweep and smart archive

    A shallow embedding of the billing code of the Clockwork backend:

    - [services/billingService.js]   (class [BillingService])
    - [middleware/billingRestrictions.js] ([enforceRestrictions],
      [checkClientLimits], [handleStripeWebhook] and its handlers)
    - [services/scheduledTasks.js]   (class [ScheduledTasksRunner])
    - [routes/billing.js]            (the [/archive-clients] route)
    - [migrations/001_billing_schema.sql] (tables and the
      [update_client_count] trigger)

    Conventions of the embedding.

    - The PostgreSQL database is a record of tables, each table a list of
      rows in storage order.  [SELECT ... WHERE] is [filter], [rows[0]] is
      the head of the result, [UPDATE ... WHERE] rewrites every matching
      row, [COUNT] is the length of the result.  Queries are assumed to
      reach the database (no connection errors); where a statement names
      a column the schema of the migration lacks, or is sent another
      number of values than it has parameters, it fails as PostgreSQL
      makes it fail.
    - [async] functions are computations in a state-and-exception monad
      [M] over the world: [await] is bind, a rejected promise or a thrown
      [Error] is [Throw], and writes made before a throw stay in the world
      (the code opens no transaction in these paths).
    - Code outside the sources at hand is a parameter: the email service
      ([sendEmail]), the Stripe client and [stripe.webhooks.constructEvent]
      are fields of a [Services] record over which every definition is
      generic.  Whether a module reaches them is decided by the names it
      binds.
    - [console.log] and [console.error] are not modelled.
    - Timestamps are integers (seconds); [NOW()] reads the clock field of
      the world. *)

From Stdlib Require Import ZArith List String Bool Lia Ascii DecimalString.
From Stdlib Require Import Sorted Permutation DecimalPos.
Import ListNotations.

Local Open Scope string_scope.
Local Open Scope list_scope.
Local Open Scope Z_scope.

(* ================================================================== *)
(** ** Rows of the schema ([migrations/001_billing_schema.sql]) *)

(** [billing_tiers]: the columns the code reads. *)
Record BillingTier := mkTier {
  bt_id : string;
  bt_name : string;
  bt_price : Z;
  bt_client_limit : Z            (* -1 means unlimited *)
}.

(** [specialists], with the billing columns added by the migration. *)
Record Specialist := mkSpecialist {
  s_id : Z;
  s_name : string;
  s_email : string;
  billing_tier_id : option string;
  stripe_customer_id : option string;
  stripe_subscription_id : option string;
  subscription_status : option string;
  subscription_start_date : option Z;
  trial_ends_at : option Z;
  cancellation_date : option Z;
  cancellation_reason : option string;
  is_restricted : bool;
  restriction_reason : option string;
  restricted_at : option Z;
  client_count : Z
}.

(** [clients].  [is_active] and [is_archived] are [BOOLEAN DEFAULT
    true/false]; every statement of the code writes a literal into them,
    so they are modelled as [bool]. *)
Record Client := mkClient {
  c_id : Z;
  c_specialist_id : Z;
  c_name : string;
  c_email : string;
  c_created_at : Z;
  c_is_active : bool;
  c_is_archived : bool;
  archived_at : option Z;
  archived_reason : option string;
  last_activity : option Z;
  marked_for_cleanup : bool
}.

(** [scheduled_tasks.status]. *)
Inductive TaskStatus := pending | processing | completed | failed.

(** The [payload] JSONB column: the properties the runner reads. *)
Record Payload := mkPayload {
  p_reason : option string;
  p_clientCount : option Z;
  p_limit : option Z;
  p_invoice_id : option string
}.

(** What a task action returns: [{success, message, invoice_id?}]. *)
Record ActionResult := mkResult {
  success : bool;
  message : string;
  invoice_id : option string
}.

(** The [result] JSONB column: the result of the action on completion,
    [{error}] on failure. *)
Inductive TaskResult :=
| ResultInfo (result : ActionResult)
| ResultError (error : string).

Record ScheduledTask := mkTask {
  t_id : Z;
  task_type : string;
  t_specialist_id : option Z;
  t_client_id : option Z;
  execute_at : Z;
  executed_at : option Z;
  t_status : TaskStatus;
  t_payload : option Payload;
  t_result : option TaskResult
}.

(** [billing_events], the append-only audit log of webhook deliveries. *)
Record BillingEvent := mkBillingEvent {
  be_specialist_id : option Z;
  be_event_type : string;
  be_stripe_event_id : string
}.

Record Invoice := mkInvoice {
  i_id : Z;
  i_specialist_id : Z;
  stripe_invoice_id : option string;
  i_status : string;
  paid_date : option Z
}.

(* ================================================================== *)
(** ** Messages handed to the outside world *)

(** A row of the candidate query of [smartArchiveClients]:
    [SELECT id, name, email, last_activity]. *)
Record Candidate := mkCandidate {
  cand_id : Z;
  cand_name : string;
  cand_email : string;
  cand_last_activity : option Z
}.

(** The argument of [sendEmail]: recipient, template and the data the
    template is filled with.  Values derived from the data for display
    ([percentUsed], [remaining], the formatted date, the upgrade URL)
    are left out. *)
Inductive EmailMsg :=
| LimitReached (to name : string) (currentClients : Z) (limit : option Z)
               (nextTier : option string)
| ApproachingLimit (to name : string) (currentClients limit : option Z)
| PendingArchive (to name : string) (clients : list Candidate)
                 (archiveDate : Z).

(** Requests sent to the payment processor. *)
Inductive StripeCall :=
| CustomersCreate (email name : string) (specialistId : Z)
| PaymentMethodsAttach (paymentMethodId customer : string)
| CustomersUpdate (customer default_payment_method : string)
| SubscriptionsCreate (customer : string) (price : option string)
                      (specialistId : Z) (tierId : string)
                      (trial_period_days : Z)
| InvoicesPay (invoice_id : option string).

(** What the processor answers: the fields the code reads. *)
Record StripeReply := mkReply {
  r_id : string;
  r_status : string
}.

(** [event.data.object] of a webhook event, a subscription or an invoice:
    the fields the handlers read.  Stripe objects always carry a
    [metadata] hash; its keys may be absent. *)
Record StripeObject := mkObject {
  o_id : string;
  o_status : string;
  o_customer : option string;
  o_trial_end : option Z;
  o_paid_at : option Z;              (* status_transitions.paid_at *)
  md_specialistId : option Z;        (* metadata.specialistId *)
  md_tierId : option string          (* metadata.tierId *)
}.

Record Event := mkEvent {
  ev_id : string;
  ev_type : string;
  ev_object : StripeObject
}.

(* ================================================================== *)
(** ** The world: database tables, clock, and effect logs *)

Record World := mkWorld {
  specialists : list Specialist;
  clients : list Client;
  billing_tiers : list BillingTier;
  scheduled_tasks : list ScheduledTask;
  (** last value of the [SERIAL] sequence of [scheduled_tasks.id] *)
  scheduled_tasks_id_seq : Z;
  billing_events : list BillingEvent;
  invoices : list Invoice;
  now : Z;
  (** emails handed to [sendEmail], oldest first *)
  outbox : list EmailMsg;
  (** requests made to Stripe, oldest first *)
  stripe_log : list StripeCall;
  (** every status written to [scheduled_tasks] by an [UPDATE], oldest
      first, as (task id, status): the write history of the queue *)
  task_history : list (Z * TaskStatus)
}.

Definition set_specialists (l : list Specialist) (w : World) : World :=
  mkWorld l (clients w) (billing_tiers w) (scheduled_tasks w)
          (scheduled_tasks_id_seq w) (billing_events w) (invoices w) (now w) (outbox w)
          (stripe_log w) (task_history w).

Definition set_clients (l : list Client) (w : World) : World :=
  mkWorld (specialists w) l (billing_tiers w) (scheduled_tasks w)
          (scheduled_tasks_id_seq w) (billing_events w) (invoices w) (now w) (outbox w)
          (stripe_log w) (task_history w).

Definition set_scheduled_tasks (l : list ScheduledTask) (w : World) : World :=
  mkWorld (specialists w) (clients w) (billing_tiers w) l
          (scheduled_tasks_id_seq w) (billing_events w) (invoices w) (now w) (outbox w)
          (stripe_log w) (task_history w).

Definition set_scheduled_tasks_id_seq (n : Z) (w : World) : World :=
  mkWorld (specialists w) (clients w) (billing_tiers w) (scheduled_tasks w)
          n (billing_events w) (invoices w) (now w) (outbox w)
          (stripe_log w) (task_history w).

Definition set_billing_events (l : list BillingEvent) (w : World) : World :=
  mkWorld (specialists w) (clients w) (billing_tiers w) (scheduled_tasks w)
          (scheduled_tasks_id_seq w) l (invoices w) (now w) (outbox w)
          (stripe_log w) (task_history w).

Definition set_invoices (l : list Invoice) (w : World) : World :=
  mkWorld (specialists w) (clients w) (billing_tiers w) (scheduled_tasks w)
          (scheduled_tasks_id_seq w) (billing_events w) l (now w) (outbox w)
          (stripe_log w) (task_history w).

Definition set_outbox (l : list EmailMsg) (w : World) : World :=
  mkWorld (specialists w) (clients w) (billing_tiers w) (scheduled_tasks w)
          (scheduled_tasks_id_seq w) (billing_events w) (invoices w) (now w) l
          (stripe_log w) (task_history w).

Definition set_stripe_log (l : list StripeCall) (w : World) : World :=
  mkWorld (specialists w) (clients w) (billing_tiers w) (scheduled_tasks w)
          (scheduled_tasks_id_seq w) (billing_events w) (invoices w) (now w) (outbox w)
          l (task_history w).

Definition set_task_history (l : list (Z * TaskStatus)) (w : World) : World :=
  mkWorld (specialists w) (clients w) (billing_tiers w) (scheduled_tasks w)
          (scheduled_tasks_id_seq w) (billing_events w) (invoices w) (now w) (outbox w)
          (stripe_log w) l.

(* ================================================================== *)
(** ** The monad of [async] code *)

Inductive Outcome (A : Type) :=
| Ok (a : A)
| Throw (message : string).
Arguments Ok {A} a.
Arguments Throw {A} message.

Definition M (A : Type) : Type := World -> Outcome A * World.

Definition ret {A} (a : A) : M A := fun w => (Ok a, w).
Definition throw {A} (message : string) : M A := fun w => (Throw message, w).

Definition bind {A B} (m : M A) (k : A -> M B) : M B :=
  fun w =>
    match m w with
    | (Ok a, w') => k a w'
    | (Throw e, w') => (Throw e, w')
    end.

(** [try { m } catch (error) { h error }] *)
Definition try_catch {A} (m : M A) (h : string -> M A) : M A :=
  fun w =>
    match m w with
    | (Ok a, w') => (Ok a, w')
    | (Throw e, w') => h e w'
    end.

Definition get : M World := fun w => (Ok w, w).
Definition modify (f : World -> World) : M unit := fun w => (Ok tt, f w).

Declare Scope js_scope.
Delimit Scope js_scope with js.
Notation "x <- m ;; k" := (bind m (fun x => k))
  (at level 61, m at next level, right associativity) : js_scope.
Notation "m ;; k" := (bind m (fun _ => k))
  (at level 61, right associativity) : js_scope.
Local Open Scope js_scope.

(** [for (const x of xs) { await body(x) }] *)
Fixpoint for_of {A} (xs : list A) (body : A -> M unit) : M unit :=
  match xs with
  | [] => ret tt
  | x :: rest => body x ;; for_of rest body
  end.

(* ================================================================== *)
(** ** Column updates ([SET] clauses) *)

Definition set_billing_tier_id (v : option string) (s : Specialist) :=
  mkSpecialist (s_id s) (s_name s) (s_email s) v (stripe_customer_id s)
    (stripe_subscription_id s) (subscription_status s)
    (subscription_start_date s) (trial_ends_at s) (cancellation_date s)
    (cancellation_reason s) (is_restricted s) (restriction_reason s)
    (restricted_at s) (client_count s).

Definition set_stripe_customer_id (v : option string) (s : Specialist) :=
  mkSpecialist (s_id s) (s_name s) (s_email s) (billing_tier_id s) v
    (stripe_subscription_id s) (subscription_status s)
    (subscription_start_date s) (trial_ends_at s) (cancellation_date s)
    (cancellation_reason s) (is_restricted s) (restriction_reason s)
    (restricted_at s) (client_count s).

Definition set_stripe_subscription_id (v : option string) (s : Specialist) :=
  mkSpecialist (s_id s) (s_name s) (s_email s) (billing_tier_id s)
    (stripe_customer_id s) v (subscription_status s)
    (subscription_start_date s) (trial_ends_at s) (cancellation_date s)
    (cancellation_reason s) (is_restricted s) (restriction_reason s)
    (restricted_at s) (client_count s).

Definition set_subscription_status (v : option string) (s : Specialist) :=
  mkSpecialist (s_id s) (s_name s) (s_email s) (billing_tier_id s)
    (stripe_customer_id s) (stripe_subscription_id s) v
    (subscription_start_date s) (trial_ends_at s) (cancellation_date s)
    (cancellation_reason s) (is_restricted s) (restriction_reason s)
    (restricted_at s) (client_count s).

Definition set_subscription_start_date (v : option Z) (s : Specialist) :=
  mkSpecialist (s_id s) (s_name s) (s_email s) (billing_tier_id s)
    (stripe_customer_id s) (stripe_subscription_id s) (subscription_status s)
    v (trial_ends_at s) (cancellation_date s)
    (cancellation_reason s) (is_restricted s) (restriction_reason s)
    (restricted_at s) (client_count s).

Definition set_trial_ends_at (v : option Z) (s : Specialist) :=
  mkSpecialist (s_id s) (s_name s) (s_email s) (billing_tier_id s)
    (stripe_customer_id s) (stripe_subscription_id s) (subscription_status s)
    (subscription_start_date s) v (cancellation_date s)
    (cancellation_reason s) (is_restricted s) (restriction_reason s)
    (restricted_at s) (client_count s).

Definition set_cancellation_date (v : option Z) (s : Specialist) :=
  mkSpecialist (s_id s) (s_name s) (s_email s) (billing_tier_id s)
    (stripe_customer_id s) (stripe_subscription_id s) (subscription_status s)
    (subscription_start_date s) (trial_ends_at s) v
    (cancellation_reason s) (is_restricted s) (restriction_reason s)
    (restricted_at s) (client_count s).

Definition set_is_restricted (v : bool) (s : Specialist) :=
  mkSpecialist (s_id s) (s_name s) (s_email s) (billing_tier_id s)
    (stripe_customer_id s) (stripe_subscription_id s) (subscription_status s)
    (subscription_start_date s) (trial_ends_at s) (cancellation_date s)
    (cancellation_reason s) v (restriction_reason s)
    (restricted_at s) (client_count s).

Definition set_restriction_reason (v : option string) (s : Specialist) :=
  mkSpecialist (s_id s) (s_name s) (s_email s) (billing_tier_id s)
    (stripe_customer_id s) (stripe_subscription_id s) (subscription_status s)
    (subscription_start_date s) (trial_ends_at s) (cancellation_date s)
    (cancellation_reason s) (is_restricted s) v
    (restricted_at s) (client_count s).

Definition set_restricted_at (v : option Z) (s : Specialist) :=
  mkSpecialist (s_id s) (s_name s) (s_email s) (billing_tier_id s)
    (stripe_customer_id s) (stripe_subscription_id s) (subscription_status s)
    (subscription_start_date s) (trial_ends_at s) (cancellation_date s)
    (cancellation_reason s) (is_restricted s) (restriction_reason s)
    v (client_count s).

Definition set_client_count (v : Z) (s : Specialist) :=
  mkSpecialist (s_id s) (s_name s) (s_email s) (billing_tier_id s)
    (stripe_customer_id s) (stripe_subscription_id s) (subscription_status s)
    (subscription_start_date s) (trial_ends_at s) (cancellation_date s)
    (cancellation_reason s) (is_restricted s) (restriction_reason s)
    (restricted_at s) v.

(** [SET is_active = false, is_archived = true, archived_at = NOW(),
    archived_reason = $1] *)
Definition archive_row (reason : string) (at_time : Z) (c : Client) : Client :=
  mkClient (c_id c) (c_specialist_id c) (c_name c) (c_email c)
    (c_created_at c) false true (Some at_time) (Some reason)
    (last_activity c) (marked_for_cleanup c).

Definition set_task_status (st : TaskStatus) (t : ScheduledTask) :=
  mkTask (t_id t) (task_type t) (t_specialist_id t) (t_client_id t)
    (execute_at t) (executed_at t) st (t_payload t) (t_result t).

(** [SET status = $1, executed_at = NOW(), result = $2] *)
Definition set_task_outcome (st : TaskStatus) (at_time : Z) (r : TaskResult)
    (t : ScheduledTask) :=
  mkTask (t_id t) (task_type t) (t_specialist_id t) (t_client_id t)
    (execute_at t) (Some at_time) st (t_payload t) (Some r).

Definition set_invoice_paid (at_time : option Z) (i : Invoice) :=
  mkInvoice (i_id i) (i_specialist_id i) (stripe_invoice_id i) "paid" at_time.

(* ================================================================== *)
(** ** SQL building blocks *)

Definition opt_string_eqb (a : option string) (b : string) : bool :=
  match a with
  | Some x => String.eqb x b
  | None => false
  end.

(** [SELECT * FROM specialists WHERE id = $1], [rows[0]] *)
Definition select_specialist (id : Z) (w : World) : option Specialist :=
  find (fun s => s_id s =? id) (specialists w).

(** [UPDATE specialists SET ... WHERE ...] *)
Definition update_specialists (p : Specialist -> bool)
    (f : Specialist -> Specialist) : M unit :=
  modify (fun w =>
    set_specialists (map (fun s => if p s then f s else s) (specialists w)) w).

(** [SELECT COUNT( * ) FROM clients WHERE specialist_id = $1 AND
    is_active = true] *)
Definition count_active_clients (sid : Z) (cs : list Client) : Z :=
  Z.of_nat (List.length
    (filter (fun c => (c_specialist_id c =? sid) && c_is_active c) cs)).

(** [LEFT JOIN billing_tiers bt ON s.billing_tier_id = bt.id]: the tier
    row joined to a specialist, if any. *)
Definition join_tier (s : Specialist) (w : World) : option BillingTier :=
  match billing_tier_id s with
  | Some t => find (fun bt => String.eqb (bt_id bt) t) (billing_tiers w)
  | None => None
  end.

(** *** The trigger [update_specialist_client_count]

    [AFTER INSERT OR UPDATE ON clients FOR EACH ROW EXECUTE FUNCTION
    update_client_count()]. *)

Inductive TG_OP := INSERT | UPDATE.

(** The condition [TG_OP = 'INSERT' OR (TG_OP = 'UPDATE' AND
    NEW.is_active != OLD.is_active)]. *)
Definition recompute_needed (op : TG_OP) (old : option Client) (new : Client)
    : bool :=
  match op, old with
  | INSERT, _ => true
  | UPDATE, Some o => negb (Bool.eqb (c_is_active new) (c_is_active o))
  | UPDATE, None => false
  end.

(** The recompute step: [UPDATE specialists SET client_count = (SELECT
    COUNT( * ) ...) WHERE id = NEW.specialist_id]. *)
Definition recompute_client_count (sid : Z) (w : World) : World :=
  set_specialists
    (map (fun s =>
            if s_id s =? sid
            then set_client_count (count_active_clients sid (clients w)) s
            else s)
         (specialists w)) w.

Definition update_client_count (op : TG_OP) (old : option Client)
    (new : Client) (w : World) : World :=
  if recompute_needed op old new
  then recompute_client_count (c_specialist_id new) w
  else w.

(** [INSERT INTO clients ...]: the row is appended, then the row trigger
    runs. *)
Definition insert_client (c : Client) (w : World) : World :=
  update_client_count INSERT None c (set_clients (clients w ++ [c]) w).

(** [UPDATE clients SET ... WHERE ... RETURNING ...]: every matching row
    is rewritten, then the row trigger runs once per rewritten row (after
    triggers see the table as the statement left it).  The result is the
    list of rewritten rows. *)
Definition update_clients (p : Client -> bool) (f : Client -> Client)
    : M (list Client) :=
  fun w =>
    let touched := filter p (clients w) in
    let w1 := set_clients (map (fun c => if p c then f c else c) (clients w)) w in
    let w2 := fold_left
                (fun acc o => update_client_count UPDATE (Some o) (f o) acc)
                touched w1 in
    (Ok (map f touched), w2).

(** *** The schema of [migrations/001_billing_schema.sql]

    The columns of [CREATE TABLE billing_tiers]. *)
Definition billing_tiers_columns : list string :=
  [ "id"; "name"; "price"; "stripe_price_id"; "client_limit"; "features";
    "is_active"; "created_at"; "updated_at" ].

(** PostgreSQL resolves the column references of a statement before it
    reads a row: the first reference [bt.<column>] to a column that
    [billing_tiers] does not have makes the statement fail with
    [column bt.<column> does not exist] (SQLSTATE 42703), whatever the
    tables hold. *)
Definition undefined_column (references : list string) : option string :=
  find (fun c => negb (existsb (String.eqb c) billing_tiers_columns))
       references.

(* ================================================================== *)
(** ** JavaScript coercions used by the comparisons *)

(** [Number(x)] for a column that is a number or [null]. *)
Definition toNumber (x : option Z) : Z :=
  match x with
  | Some n => n
  | None => 0
  end.

(** [x !== -1] *)
Definition not_unlimited (x : option Z) : bool :=
  match x with
  | Some n => negb (n =? -1)
  | None => true
  end.

(** [count >= limit * 0.8], on integers: [5 * count >= 4 * limit]. *)
Definition at_least_80_percent (count : Z) (limit : option Z) : bool :=
  4 * toNumber limit <=? 5 * count.

(** Truthiness of a string-or-null value. *)
Definition truthy (x : option string) : option string :=
  match x with
  | Some "" => None
  | Some s => Some s
  | None => None
  end.

Definition days (n : Z) : Z := n * 86400.

(** [ORDER BY last_activity ASC NULLS FIRST] *)
Definition activity_le (a b : option Z) : bool :=
  match a, b with
  | None, _ => true
  | Some _, None => false
  | Some x, Some y => x <=? y
  end.

Fixpoint insert_by_activity (c : Client) (l : list Client) : list Client :=
  match l with
  | [] => [c]
  | d :: rest =>
      if activity_le (last_activity c) (last_activity d)
      then c :: l
      else d :: insert_by_activity c rest
  end.

Definition order_by_last_activity (l : list Client) : list Client :=
  fold_right insert_by_activity [] l.

(* ================================================================== *)
(** ** Parameters: environment and external services *)

(** An entry of the constant [BILLING_TIERS]. *)
Record TierConfig := mkTierConfig {
  tc_id : string;
  tc_name : string;
  tc_price : Z;
  tc_priceId : option string;
  tc_clientLimit : Z
}.

(** What the billing code receives from outside the sources at hand.
    A service answers [Ok] when its promise resolves and [Throw] when it
    rejects. *)
Record Services := mkServices {
  (** [sendEmail] of [services/emailService.js] *)
  sendEmail : EmailMsg -> Outcome unit;
  (** the Stripe client *)
  stripe_request : StripeCall -> Outcome StripeReply;
  (** [stripe.webhooks.constructEvent(rawBody, sig, secret)]: the event
      when the signature verifies, a throw otherwise *)
  constructEvent : string -> option string -> option string -> Outcome Event;
  (** [process.env.STRIPE_WEBHOOK_SECRET] *)
  STRIPE_WEBHOOK_SECRET : option string;
  (** [process.env.STRIPE_PRICE_...] *)
  STRIPE_PRICE_STARTER : option string;
  STRIPE_PRICE_PROFESSIONAL : option string;
  STRIPE_PRICE_SCALE : option string;
  STRIPE_PRICE_ENTERPRISE : option string
}.

Record LimitCheck := mkLimitCheck {
  restricted : bool;
  reason : option string;
  clientCount : Z;
  limit : option Z
}.

(* ================================================================== *)
(** ** [services/billingService.js] *)

Module billingService.

Section WithServices.

Variable svc : Services.

(** [await sendEmail(msg)] *)
Definition send_email (msg : EmailMsg) : M unit :=
  fun w => (sendEmail svc msg, set_outbox (outbox w ++ [msg]) w).

(** [await stripe.<resource>.<method>(...)] *)
Definition stripe (call : StripeCall) : M StripeReply :=
  fun w => (stripe_request svc call, set_stripe_log (stripe_log w ++ [call]) w).

(** The names every object literal inherits from [Object.prototype]:
    for these [BILLING_TIERS[tierId]] is a function or an object, not
    [undefined], and no tier. *)
Definition Object_prototype_names : list string :=
  [ "constructor"; "hasOwnProperty"; "isPrototypeOf";
    "propertyIsEnumerable"; "toLocaleString"; "toString"; "valueOf";
    "__defineGetter__"; "__defineSetter__"; "__lookupGetter__";
    "__lookupSetter__"; "__proto__" ].

(** The own properties of [BILLING_TIERS], in declaration order. *)
Definition BILLING_TIERS_entries : list TierConfig :=
  [ mkTierConfig "starter" "Starter" 29 (STRIPE_PRICE_STARTER svc) 10;
    mkTierConfig "professional" "Professional" 79
                 (STRIPE_PRICE_PROFESSIONAL svc) 50;
    mkTierConfig "scale" "Scale" 149 (STRIPE_PRICE_SCALE svc) 150;
    mkTierConfig "enterprise" "Enterprise" 299
                 (STRIPE_PRICE_ENTERPRISE svc) (-1) ].

(** [BILLING_TIERS[tierId]] among the own properties: for a [tierId] that
    is none of [Object_prototype_names], [None] is [undefined]. *)
Definition BILLING_TIERS (tierId : string) : option TierConfig :=
  find (fun t => String.eqb (tc_id t) tierId) BILLING_TIERS_entries.

(** [tiers.indexOf(x)] *)
Fixpoint indexOf (x : option string) (l : list string) (i : Z) : Z :=
  match l with
  | [] => -1
  | y :: rest => if opt_string_eqb x y then i else indexOf x rest (i + 1)
  end.

(** [getNextTier(currentTierId)]; the tier is returned by its id. *)
Definition getNextTier (currentTierId : option string) : option string :=
  let tiers := map tc_id BILLING_TIERS_entries in
  let currentIndex := indexOf currentTierId tiers 0 in
  if currentIndex <? Z.of_nat (List.length tiers) - 1
  then nth_error tiers (Z.to_nat (currentIndex + 1))
  else None.

Definition undefined_email : string :=
  "Cannot read properties of undefined (reading 'email')".

(** [notifyLimitReached(specialistId, clientCount, limit, tierId)] *)
Definition notifyLimitReached (specialistId : Z) (count : Z)
    (lim : option Z) (tierId : option string) : M unit :=
  w <- get ;;
  let nextTier := getNextTier tierId in
  match select_specialist specialistId w with
  | Some sp =>
      send_email (LimitReached (s_email sp) (s_name sp) count lim nextTier)
  | None => throw undefined_email
  end.

(** [notifyApproachingLimit(specialistId, clientCount, limit)] *)
Definition notifyApproachingLimit (specialistId : Z) (count lim : option Z)
    : M unit :=
  w <- get ;;
  match select_specialist specialistId w with
  | Some sp => send_email (ApproachingLimit (s_email sp) (s_name sp) count lim)
  | None => throw undefined_email
  end.

(** [notifyPendingArchive(specialistId, clients)] *)
Definition notifyPendingArchive (specialistId : Z) (cs : list Candidate)
    : M unit :=
  w <- get ;;
  match select_specialist specialistId w with
  | Some sp =>
      send_email (PendingArchive (s_email sp) (s_name sp) cs (now w + days 7))
  | None => throw undefined_email
  end.

(** [clearRestrictions(specialistId)] *)
Definition clearRestrictions (specialistId : Z) : M unit :=
  update_specialists (fun s => s_id s =? specialistId)
    (fun s => set_restricted_at None
                (set_restriction_reason None (set_is_restricted false s))).

(** [checkClientLimits(specialistId)].  The query selects [s.*],
    [bt.tier_id], [bt.client_limit] and the number of active clients,
    joining on [bt.id]; it is checked against the schema first, as
    PostgreSQL does.  The rest of the body is what the function does
    with the row the query returns.  The [catch] block logs and
    rethrows. *)
Definition checkClientLimits (specialistId : Z) : M LimitCheck :=
  match undefined_column ["tier_id"; "client_limit"; "id"] with
  | Some column => throw ("column bt." ++ column ++ " does not exist")%string
  | None =>
  w <- get ;;
  match select_specialist specialistId w with
  | None => throw "Specialist not found"
  | Some row =>
      let client_count := count_active_clients (s_id row) (clients w) in
      let client_limit := option_map bt_client_limit (join_tier row w) in
      let tier_id := option_map bt_id (join_tier row w) in
      if not_unlimited client_limit && (toNumber client_limit <=? client_count)
      then
        update_specialists (fun s => s_id s =? specialistId)
          (fun s => set_restricted_at (Some (now w))
                      (set_restriction_reason (Some "client_limit_exceeded")
                         (set_is_restricted true s))) ;;
        notifyLimitReached specialistId client_count client_limit tier_id ;;
        ret (mkLimitCheck true (Some "client_limit_exceeded")
                          client_count client_limit)
      else
        (if not_unlimited client_limit
            && at_least_80_percent client_count client_limit
         then notifyApproachingLimit specialistId (Some client_count)
                                     client_limit
         else ret tt) ;;
        ret (mkLimitCheck false None client_count client_limit)
  end
  end.

(** [createSubscription(specialistId, tierId, paymentMethodId)], for a
    [tierId] that is none of [Object_prototype_names] (for those the
    guard [!tier] does not throw; that case is left out of the model). *)
Definition createSubscription (specialistId : Z)
    (tierId paymentMethodId : string) : M (StripeReply * TierConfig) :=
  w <- get ;;
  match select_specialist specialistId w with
  | None => throw "Specialist not found"
  | Some row =>
      match BILLING_TIERS tierId with
      | None => throw "Invalid tier"
      | Some tier =>
          customerId <-
            match truthy (stripe_customer_id row) with
            | Some existing => ret existing
            | None =>
                customer <- stripe (CustomersCreate (s_email row) (s_name row)
                                                    specialistId) ;;
                update_specialists (fun s => s_id s =? specialistId)
                  (set_stripe_customer_id (Some (r_id customer))) ;;
                ret (r_id customer)
            end ;;
          stripe (PaymentMethodsAttach paymentMethodId customerId) ;;
          stripe (CustomersUpdate customerId paymentMethodId) ;;
          subscription <-
            stripe (SubscriptionsCreate customerId (tc_priceId tier)
                                        specialistId tierId 14) ;;
          w' <- get ;;
          update_specialists (fun s => s_id s =? specialistId)
            (fun s =>
               set_restriction_reason None
                 (set_is_restricted false
                    (set_subscription_start_date (Some (now w'))
                       (set_subscription_status (Some (r_status subscription))
                          (set_stripe_subscription_id
                             (Some (r_id subscription))
                             (set_billing_tier_id (Some tierId) s)))))) ;;
          clearRestrictions specialistId ;;
          ret (subscription, tier)
      end
  end.

(** [INSERT INTO scheduled_tasks (task_type, specialist_id, client_id,
    execute_at, payload) VALUES (...)]: [id] comes from the sequence,
    [status] defaults to ['pending']. *)
Definition insert_scheduled_task (ty : string) (sid cid : option Z)
    (at_time : Z) (pl : option Payload) : M unit :=
  modify (fun w =>
    let id := scheduled_tasks_id_seq w + 1 in
    set_scheduled_tasks_id_seq id
      (set_scheduled_tasks
         (scheduled_tasks w
            ++ [mkTask id ty sid cid at_time None pending pl None]) w)).

(** The [WHERE] clause of the candidate query of [smartArchiveClients]:
    [specialist_id = $1 AND is_active = true AND (last_activity < NOW() -
    INTERVAL '90 days' OR last_activity IS NULL)]. *)
Definition archive_candidate (specialistId : Z) (now_ : Z) (c : Client)
    : bool :=
  (c_specialist_id c =? specialistId) && c_is_active c
  && match last_activity c with
     | Some t => t <? now_ - days 90
     | None => true
     end.

Definition candidate_of (c : Client) : Candidate :=
  mkCandidate (c_id c) (c_name c) (c_email c) (last_activity c).

(** The candidate query: [... ORDER BY last_activity ASC NULLS FIRST
    LIMIT $2]. *)
Definition select_candidates (specialistId : Z) (lim : Z) (w : World)
    : list Client :=
  firstn (Z.to_nat lim)
    (order_by_last_activity
       (filter (archive_candidate specialistId (now w)) (clients w))).

(** [smartArchiveClients(specialistId)].  The [catch] block logs and
    returns. *)
Definition smartArchiveClients (specialistId : Z) : M unit :=
  try_catch
    (w <- get ;;
     match find (fun s => (s_id s =? specialistId) && is_restricted s)
                (specialists w) with
     | None => ret tt
     | Some row =>
         let client_limit := option_map bt_client_limit (join_tier row w) in
         let active_clients := count_active_clients (s_id row) (clients w) in
         if not_unlimited client_limit
            && (toNumber client_limit <? active_clients)
         then
           let candidates :=
             select_candidates specialistId
               (active_clients - toNumber client_limit) w in
           if (0 <? Z.of_nat (List.length candidates))
           then
             notifyPendingArchive specialistId (map candidate_of candidates) ;;
             for_of candidates (fun client =>
               w' <- get ;;
               insert_scheduled_task "archive_client" (Some specialistId)
                 (Some (c_id client)) (now w' + days 7)
                 (Some (mkPayload (Some "auto_archived_billing_limit")
                                  None None None)))
           else ret tt
         else ret tt
     end)
    (fun _ => ret tt).

End WithServices.

End billingService.

(* ================================================================== *)
(** ** HTTP requests and responses (Express) *)

#[warnings="-register-all"] Inductive Json :=
| JNull
| JBool (b : bool)
| JNum (n : Z)
| JStr (s : string)
| JArr (items : list Json)
| JObj (fields : list (string * Json)).

Definition json_of_opt_string (x : option string) : Json :=
  match x with Some s => JStr s | None => JNull end.

Definition json_of_opt_Z (x : option Z) : Json :=
  match x with Some n => JNum n | None => JNull end.

(** Does an object carry the property [key]? *)
Definition has_key (key : string) (j : Json) : bool :=
  match j with
  | JObj fields => existsb (fun kv => String.eqb (fst kv) key) fields
  | _ => false
  end.

(** [`${n}`] for a number or [null]. *)
Definition show_Z (n : Z) : string := NilZero.string_of_int (Z.to_int n).
Definition show_opt_Z (x : option Z) : string :=
  match x with Some n => show_Z n | None => "null" end.

(** [req.billing], attached by [enforceRestrictions]. *)
Record BillingInfo := mkBillingInfo {
  tierName : option string;
  clientLimit : option Z;
  bi_clientCount : Z;
  isRestricted : bool;
  restrictionReason : option string
}.

(** The parts of [req] the billing code reads.  [user_id] is
    [req.user.id], set by the authentication middleware; [path] is
    [req.path], which Express gives relative to the mount point of the
    running middleware. *)
Record Request := mkRequest {
  method : string;
  path : string;
  user_id : Z;
  (** [req.body.clientIds] when it is an array *)
  body_clientIds : option (list Z);
  (** [req.body.reason] when defined *)
  body_reason : option string;
  billing : option BillingInfo
}.

Definition set_billing (b : BillingInfo) (r : Request) : Request :=
  mkRequest (method r) (path r) (user_id r) (body_clientIds r)
            (body_reason r) (Some b).

Definition set_path (p : string) (r : Request) : Request :=
  mkRequest (method r) p (user_id r) (body_clientIds r)
            (body_reason r) (billing r).

Record Response := mkResponse {
  status : Z;
  body : Json
}.

(** What a middleware does with a request: pass it on ([next()]) or
    answer it. *)
Inductive Handled :=
| Next (req : Request)
| Respond (res : Response).

(** A chain of middlewares, as in [app.use(path, m1, m2, ...)]. *)
Fixpoint chain (ms : list (Request -> M Handled)) (req : Request)
    : M Handled :=
  match ms with
  | [] => ret (Next req)
  | m :: rest =>
      h <- m req ;;
      match h with
      | Next req' => chain rest req'
      | Respond res => ret (Respond res)
      end
  end.

(** *** Strings *)

Fixpoint drop_prefix (p s : string) : option string :=
  match p, s with
  | EmptyString, _ => Some s
  | String a p', String b s' =>
      if Ascii.eqb a b then drop_prefix p' s' else None
  | String _ _, EmptyString => None
  end.

(** [hay.includes(needle)] *)
Fixpoint includes (needle hay : string) {struct hay} : bool :=
  match drop_prefix needle hay with
  | Some _ => true
  | None =>
      match hay with
      | EmptyString => false
      | String _ rest => includes needle rest
      end
  end.

Definition is_digit (c : ascii) : bool :=
  ((48 <=? nat_of_ascii c) && (nat_of_ascii c <=? 57))%nat.

Fixpoint skip_digits (s : string) : string :=
  match s with
  | String c rest => if is_digit c then skip_digits rest else s
  | EmptyString => s
  end.

(** [/^\/api\/clients\/\d+\/activate$/.test(s)] *)
Definition activate_regexp_test (s : string) : bool :=
  match drop_prefix "/api/clients/" s with
  | Some (String c rest) =>
      is_digit c && String.eqb (skip_digits rest) "/activate"
  | _ => false
  end.

(** Lower case of an ASCII letter: how a pattern with the flag [i]
    compares characters. *)
Definition lower (c : ascii) : ascii :=
  if ((65 <=? nat_of_ascii c) && (nat_of_ascii c <=? 90))%nat
  then ascii_of_nat (nat_of_ascii c + 32)
  else c.

Fixpoint drop_prefix_ci (p s : string) : option string :=
  match p, s with
  | EmptyString, _ => Some s
  | String a p', String b s' =>
      if Ascii.eqb (lower a) (lower b) then drop_prefix_ci p' s' else None
  | String _ _, EmptyString => None
  end.

(** Express, [app.use(mount, ...)]: the middlewares run when the request
    path starts with the mount path, compared without regard to case
    (the router's [caseSensitive] is off by default), and see [req.path]
    with the mount path stripped (["/"] when nothing is left). *)
Definition mount_path (mount url : string) : option string :=
  match drop_prefix_ci mount url with
  | Some "" => Some "/"
  | Some (String "/" rest) => Some (String "/" rest)
  | _ => None
  end.

(* ================================================================== *)
(** ** [middleware/billingRestrictions.js] *)

Module billingRestrictions.

Inductive PathPattern :=
| Exact (p : string)
| ActivateRegExp.

Definition restrictedEndpoints : list (string * PathPattern) :=
  [ ("POST", Exact "/api/clients");
    ("PUT", ActivateRegExp);
    ("POST", Exact "/api/clients/import");
    ("POST", Exact "/api/clients/bulk") ].

Definition endpoint_matches (req : Request) (endpoint : string * PathPattern)
    : bool :=
  let methodMatch := String.eqb (method req) (fst endpoint) in
  let pathMatch :=
    match snd endpoint with
    | ActivateRegExp => activate_regexp_test (path req)
    | Exact p => String.eqb (path req) p
    end in
  methodMatch && pathMatch.

Definition internal_server_error : Response :=
  mkResponse 500 (JObj [("error", JStr "Internal server error")]).

Section WithServices.

Variable svc : Services.

(** [enforceRestrictions(req, res, next)] *)
Definition enforceRestrictions (req : Request) : M Handled :=
  try_catch
    (w <- get ;;
     match select_specialist (user_id req) w with
     | None =>
         ret (Respond (mkResponse 404
                         (JObj [("error", JStr "Specialist not found")])))
     | Some specialist =>
         let tier_name := option_map bt_name (join_tier specialist w) in
         let client_limit := option_map bt_client_limit (join_tier specialist w) in
         let req' :=
           set_billing
             (mkBillingInfo tier_name client_limit (client_count specialist)
                (is_restricted specialist) (restriction_reason specialist))
             req in
         if negb (is_restricted specialist)
         then ret (Next req')
         else
           if existsb (endpoint_matches req') restrictedEndpoints
           then
             ret (Respond (mkResponse 403
               (JObj
                  [ ("error", JStr "Account restricted");
                    ("reason",
                     json_of_opt_string (restriction_reason specialist));
                    ("message", JStr "Upgrade your plan to add more clients");
                    ("current_plan", json_of_opt_string tier_name);
                    ("current_clients", JNum (client_count specialist));
                    ("client_limit", json_of_opt_Z client_limit);
                    ("upgrade_url", JStr "/billing/upgrade");
                    ("actions",
                     JObj
                       [ ("upgrade",
                          JObj [ ("url", JStr "/api/billing/upgrade");
                                 ("method", JStr "POST");
                                 ("description",
                                  JStr "Upgrade to a higher tier") ]);
                         ("archive_clients",
                          JObj [ ("url", JStr "/api/clients/archive");
                                 ("method", JStr "POST");
                                 ("description",
                                  JStr "Archive inactive clients to free up space") ])
                       ]) ])))
           else ret (Next req')
     end)
    (fun _ => ret (Respond internal_server_error)).

(** The middleware [checkClientLimits(req, res, next)] *)
Definition checkClientLimits (req : Request) : M Handled :=
  try_catch
    (if String.eqb (method req) "POST"
        || (String.eqb (method req) "PUT" && includes "activate" (path req))
     then
       limitCheck <- billingService.checkClientLimits svc (user_id req) ;;
       if restricted limitCheck
       then
         ret (Respond (mkResponse 403
           (JObj
              [ ("error", JStr "Client limit exceeded");
                ("message",
                 JStr ("You have reached your limit of "
                       ++ show_opt_Z (limit limitCheck) ++ " clients"));
                ("current_clients", JNum (clientCount limitCheck));
                ("limit", json_of_opt_Z (limit limitCheck));
                ("upgrade_url", JStr "/billing/upgrade") ])))
       else ret (Next req)
     else ret (Next req))
    (fun _ => ret (Respond internal_server_error)).

(** *** Webhook handlers *)

Definition handleSubscriptionCreated (subscription : StripeObject) : M unit :=
  update_specialists
    (fun s => opt_string_eqb (stripe_subscription_id s) (o_id subscription))
    (fun s =>
       set_trial_ends_at (o_trial_end subscription)
         (set_restriction_reason None
            (set_is_restricted false
               (set_subscription_status (Some (o_status subscription)) s)))) ;;
  match md_specialistId subscription with
  | Some specialistId => billingService.clearRestrictions specialistId
  | None => ret tt    (* [WHERE id = NULL] matches no row *)
  end.

Definition handleSubscriptionUpdated (subscription : StripeObject) : M unit :=
  update_specialists
    (fun s => opt_string_eqb (stripe_subscription_id s) (o_id subscription))
    (fun s =>
       set_subscription_status (Some (o_status subscription))
         (set_billing_tier_id (md_tierId subscription) s)) ;;
  match md_specialistId subscription with
  | Some specialistId =>
      billingService.checkClientLimits svc specialistId ;; ret tt
  | None => throw "Specialist not found"   (* the query returns no row *)
  end.

(** [handleSubscriptionDeleted(subscription)].  [BillingService] defines
    no [sendRetentionEmail], so the call after the [UPDATE] throws a
    [TypeError]. *)
Definition handleSubscriptionDeleted (subscription : StripeObject) : M unit :=
  w <- get ;;
  update_specialists
    (fun s => opt_string_eqb (stripe_subscription_id s) (o_id subscription))
    (fun s =>
       set_cancellation_date (Some (now w))
         (set_restriction_reason (Some "subscription_canceled")
            (set_is_restricted true
               (set_subscription_status (Some "canceled") s)))) ;;
  throw "billingService.sendRetentionEmail is not a function".

Definition handlePaymentSucceeded (invoice : StripeObject) : M unit :=
  modify (fun w =>
    set_invoices
      (map (fun i =>
              if opt_string_eqb (stripe_invoice_id i) (o_id invoice)
              then set_invoice_paid (o_paid_at invoice) i
              else i)
           (invoices w)) w).

(** [handlePaymentFailed(invoice)].  [BillingService] defines no
    [sendPaymentFailedEmail]: the call after the [UPDATE] throws. *)
Definition handlePaymentFailed (invoice : StripeObject) : M unit :=
  w <- get ;;
  update_specialists
    (fun s =>
       match o_customer invoice with
       | Some customer => opt_string_eqb (stripe_customer_id s) customer
       | None => false
       end)
    (fun s =>
       set_restricted_at (Some (now w))
         (set_restriction_reason (Some "payment_failed")
            (set_is_restricted true s))) ;;
  throw "billingService.sendPaymentFailedEmail is not a function".

(** The names the module binds: its two [require]s and its functions.
    ([require], [module], [exports] and the globals of Node, such as
    [process] and [console], are in scope as well.)  [stripe] is not
    among them: the module never requires it, and no file of the
    repository assigns a global of that name. *)
Definition module_bindings : list string :=
  [ "db"; "billingService"; "enforceRestrictions"; "checkClientLimits";
    "trackUsage"; "addBillingHeaders"; "handleStripeWebhook";
    "handleSubscriptionCreated"; "handleSubscriptionUpdated";
    "handleSubscriptionDeleted"; "handlePaymentSucceeded";
    "handlePaymentFailed" ].

(** [stripe.webhooks.constructEvent(req.rawBody, sig,
    process.env.STRIPE_WEBHOOK_SECRET)]: reading an unbound [stripe]
    throws a [ReferenceError] before the library is reached. *)
Definition stripe_webhooks_constructEvent (rawBody : string)
    (sig : option string) : Outcome Event :=
  if existsb (String.eqb "stripe") module_bindings
  then constructEvent svc rawBody sig (STRIPE_WEBHOOK_SECRET svc)
  else Throw "stripe is not defined".

(** [INSERT INTO billing_events (specialist_id, event_type, event_data,
    stripe_event_id)]; [specialist_id] references [specialists(id)]. *)
Definition insert_billing_event (e : BillingEvent) : M unit :=
  w <- get ;;
  if match be_specialist_id e with
     | Some id => existsb (fun s => s_id s =? id) (specialists w)
     | None => true
     end
  then modify (fun w0 => set_billing_events (billing_events w0 ++ [e]) w0)
  else throw "insert on billing_events violates foreign key constraint".

(** [handleStripeWebhook(req, res)], on [req.rawBody] and
    [req.headers['stripe-signature']].  A [Throw] outcome is a rejected
    handler: no response is sent. *)
Definition handleStripeWebhook (rawBody : string) (sig : option string)
    : M Response :=
  match stripe_webhooks_constructEvent rawBody sig with
  | Throw message =>
      ret (mkResponse 400 (JStr ("Webhook Error: " ++ message)))
  | Ok event =>
      insert_billing_event
        (mkBillingEvent (md_specialistId (ev_object event))
                        (ev_type event) (ev_id event)) ;;
      (if String.eqb (ev_type event) "customer.subscription.created"
       then handleSubscriptionCreated (ev_object event)
       else if String.eqb (ev_type event) "customer.subscription.updated"
       then handleSubscriptionUpdated (ev_object event)
       else if String.eqb (ev_type event) "customer.subscription.deleted"
       then handleSubscriptionDeleted (ev_object event)
       else if String.eqb (ev_type event) "invoice.payment_succeeded"
       then handlePaymentSucceeded (ev_object event)
       else if String.eqb (ev_type event) "invoice.payment_failed"
       then handlePaymentFailed (ev_object event)
       else ret tt) ;;
      ret (mkResponse 200 (JObj [("received", JBool true)]))
  end.

End WithServices.

End billingRestrictions.

(* ================================================================== *)
(** ** [routes/billing.js]: [POST /archive-clients] *)

Module billingRoutes.

Section WithServices.

Variable svc : Services.

(** The route handler, after [authenticateToken] and
    [enforceRestrictions]. *)
Definition archive_clients_handler (req : Request) : M Response :=
  try_catch
    (match body_clientIds req with
     | None =>
         ret (mkResponse 400 (JObj [("error", JStr "Invalid client IDs")]))
     | Some clientIds =>
         let reason :=
           match body_reason req with
           | Some r => r
           | None => "manual_archive"
           end in
         w <- get ;;
         result <-
           update_clients
             (fun c => existsb (Z.eqb (c_id c)) clientIds
                       && (c_specialist_id c =? user_id req))
             (archive_row reason (now w)) ;;
         billingService.checkClientLimits svc (user_id req) ;;
         ret (mkResponse 200
                (JObj
                   [ ("success", JBool true);
                     ("archived",
                      JArr (map (fun c => JObj [ ("id", JNum (c_id c));
                                                 ("name", JStr (c_name c)) ])
                                result));
                     ("message",
                      JStr (show_Z (Z.of_nat (List.length result))
                            ++ " clients archived successfully")) ]))
     end)
    (fun _ =>
       ret (mkResponse 500 (JObj [("error", JStr "Failed to archive clients")]))).

(** [router.post('/archive-clients', authenticateToken,
    enforceRestrictions, handler)] for an authenticated request. *)
Definition archive_clients (req : Request) : M Response :=
  h <- billingRestrictions.enforceRestrictions req ;;
  match h with
  | Next req' => archive_clients_handler req'
  | Respond res => ret res
  end.

End WithServices.

End billingRoutes.

(* ================================================================== *)
(** ** [services/scheduledTasks.js] *)

Module scheduledTasks.

Definition is_pending (st : TaskStatus) : bool :=
  match st with pending => true | _ => false end.

(** [ORDER BY execute_at ASC] *)
Fixpoint insert_by_execute_at (t : ScheduledTask) (l : list ScheduledTask)
    : list ScheduledTask :=
  match l with
  | [] => [t]
  | u :: rest =>
      if execute_at t <=? execute_at u
      then t :: l
      else u :: insert_by_execute_at t rest
  end.

Definition order_by_execute_at (l : list ScheduledTask) : list ScheduledTask :=
  fold_right insert_by_execute_at [] l.

(** [SELECT * FROM scheduled_tasks WHERE status = 'pending' AND
    execute_at <= NOW() ORDER BY execute_at ASC LIMIT 10] *)
Definition due_pending_tasks (w : World) : list ScheduledTask :=
  firstn 10
    (order_by_execute_at
       (filter (fun t => is_pending (t_status t) && (execute_at t <=? now w))
               (scheduled_tasks w))).

(** [UPDATE scheduled_tasks SET ... WHERE id = $n]; each rewritten row
    adds its new status to the write history. *)
Definition update_task (id : Z) (st : TaskStatus)
    (f : ScheduledTask -> ScheduledTask) : M unit :=
  modify (fun w =>
    set_task_history
      (task_history w
         ++ map (fun t => (t_id t, st))
                (filter (fun t => t_id t =? id) (scheduled_tasks w)))
      (set_scheduled_tasks
         (map (fun t => if t_id t =? id then f t else t) (scheduled_tasks w))
         w)).

Definition opt_Z_eqb (a : option Z) (b : Z) : bool :=
  match a with
  | Some x => x =? b
  | None => false
  end.

Section WithServices.

Variable svc : Services.

(** [archiveClient(task)] *)
Definition archiveClient (task : ScheduledTask) : M ActionResult :=
  let payload_reason :=
    match t_payload task with
    | Some payload => truthy (p_reason payload)
    | None => None
    end in
  let reason :=
    match payload_reason with
    | Some r => r
    | None => "auto_archived_billing_limit"
    end in
  w <- get ;;
  result <-
    update_clients
      (fun c => opt_Z_eqb (t_client_id task) (c_id c)
                && opt_Z_eqb (t_specialist_id task) (c_specialist_id c))
      (archive_row reason (now w)) ;;
  match result, t_specialist_id task with
  | row :: _, Some specialist_id =>
      billingService.checkClientLimits svc specialist_id ;;
      ret (mkResult true ("Archived client: " ++ c_name row) None)
  | _, _ =>
      ret (mkResult false "Client not found or already archived" None)
  end.

(** [sendLimitWarning(task)] *)
Definition sendLimitWarning (task : ScheduledTask) : M ActionResult :=
  w <- get ;;
  match t_specialist_id task with
  | Some specialist_id =>
      match select_specialist specialist_id w with
      | Some _ =>
          match t_payload task with
          | Some payload =>
              billingService.notifyApproachingLimit svc specialist_id
                (p_clientCount payload) (p_limit payload) ;;
              ret (mkResult true "Warning email sent" None)
          | None =>
              throw "Cannot read properties of null (reading 'clientCount')"
          end
      | None => ret (mkResult false "Specialist not found" None)
      end
  | None => ret (mkResult false "Specialist not found" None)
  end.

(** [retryPayment(task)] *)
Definition retryPayment (task : ScheduledTask) : M ActionResult :=
  try_catch
    (w <- get ;;
     let specialist :=
       match t_specialist_id task with
       | Some specialist_id => select_specialist specialist_id w
       | None => None
       end in
     match specialist with
     | Some row =>
         match truthy (stripe_subscription_id row) with
         | Some _ =>
             match t_payload task with
             | Some payload =>
                 invoice <- billingService.stripe svc (InvoicesPay (p_invoice_id payload)) ;;
                 ret (mkResult true "Payment retry successful"
                                 (Some (r_id invoice)))
             | None =>
                 throw "Cannot read properties of null (reading 'invoice_id')"
             end
         | None => ret (mkResult false "No subscription found" None)
         end
     | None => ret (mkResult false "No subscription found" None)
     end)
    (fun message =>
       ret (mkResult false ("Payment retry failed: " ++ message) None)).

(** The [switch] of [executeTask].  The class defines neither
    [downgradePlan] nor [cancelSubscription]: calling them throws. *)
Definition run_task_action (task : ScheduledTask) : M ActionResult :=
  if String.eqb (task_type task) "archive_client" then archiveClient task
  else if String.eqb (task_type task) "send_limit_warning"
  then sendLimitWarning task
  else if String.eqb (task_type task) "retry_payment" then retryPayment task
  else if String.eqb (task_type task) "downgrade_plan"
  then throw "this.downgradePlan is not a function"
  else if String.eqb (task_type task) "cancel_subscription"
  then throw "this.cancelSubscription is not a function"
  else ret (mkResult false "Unknown task type" None).

(** [executeTask(task)] *)
Definition executeTask (task : ScheduledTask) : M unit :=
  try_catch
    (update_task (t_id task) processing (set_task_status processing) ;;
     result <- run_task_action task ;;
     w <- get ;;
     update_task (t_id task) completed
                 (set_task_outcome completed (now w) (ResultInfo result)))
    (fun message =>
       w <- get ;;
       update_task (t_id task) failed
                   (set_task_outcome failed (now w) (ResultError message))).

(** [runPendingTasks()] *)
Definition runPendingTasks : M unit :=
  try_catch
    (w <- get ;;
     for_of (due_pending_tasks w) executeTask)
    (fun _ => ret tt).

(** [runSmartArchive()] *)
Definition runSmartArchive : M unit :=
  try_catch
    (w <- get ;;
     for_of
       (filter (fun s => is_restricted s
                         && opt_string_eqb (restriction_reason s)
                                           "client_limit_exceeded")
               (specialists w))
       (fun specialist =>
          billingService.smartArchiveClients svc (s_id specialist)))
    (fun _ => ret tt).

End WithServices.

End scheduledTasks.

(* ================================================================== *)
(** ** [server.js]: the client routes *)

Module server.

Section WithServices.

Variable svc : Services.

(** [app.use('/api/clients', checkClientLimits, enforceRestrictions,
    clientRoutes)] for an authenticated request to [url]: [Next] means the
    request reaches [clientRoutes]; a request outside the mount path is
    passed on untouched. *)
Definition api_clients (url : string) (req : Request) : M Handled :=
  match mount_path "/api/clients" url with
  | Some p =>
      chain [ billingRestrictions.checkClientLimits svc;
              billingRestrictions.enforceRestrictions ]
            (set_path p req)
  | None => ret (Next req)
  end.

End WithServices.

End server.

(* ================================================================== *)
(** ** Sample data *)

Module Sample.

Definition tiers : list BillingTier :=
  [ mkTier "starter" "Starter" 29 10;
    mkTier "professional" "Professional" 79 50;
    mkTier "scale" "Scale" 149 150;
    mkTier "enterprise" "Enterprise" 299 (-1) ].

(** A specialist with id 1 on the given tier. *)
Definition ada (tier : string) (is_restricted : bool) : Specialist :=
  mkSpecialist 1 "Ada" "ada@example.com" (Some tier) None None
               (Some "trialing") None None None None is_restricted None None 0.

(** An active client of specialist 1. *)
Definition client (id : Z) (last_activity : option Z) : Client :=
  mkClient id 1 "client" "client@example.com" 0 true false None None
           last_activity false.

(** [n] active clients with ids [1..n], all active at time [99999000]. *)
Definition active_clients (n : nat) : list Client :=
  map (fun i => client (Z.of_nat i) (Some 99999000)) (seq 1 n).

(** Specialist 1 on [tier] with [n] active clients, at time [100000000]. *)
Definition world (tier : string) (is_restricted : bool) (n : nat) : World :=
  mkWorld [ada tier is_restricted] (active_clients n) tiers [] 0 [] []
          100000000 [] [] [].

(** Specialist 1, restricted on the starter tier, with twelve active
    clients: nine recently active, client 11 last active at [50000000],
    client 12 never active, client 13 last active at [40000000]. *)
Definition stale_world : World :=
  mkWorld [ada "starter" true]
          (client 11 (Some 50000000) :: client 12 None
           :: client 13 (Some 40000000) :: active_clients 9)
          tiers [] 0 [] [] 100000000 [] [] [].


(** Services that answer every call. *)
Definition reply (call : StripeCall) : StripeReply :=
  match call with
  | CustomersCreate _ _ _ => mkReply "cus_1" "active"
  | SubscriptionsCreate _ _ _ _ _ => mkReply "sub_1" "trialing"
  | InvoicesPay _ => mkReply "in_1" "paid"
  | _ => mkReply "ok" "ok"
  end.

Definition deleted_event : Event :=
  mkEvent "evt_1" "customer.subscription.deleted"
          (mkObject "sub_1" "canceled" (Some "cus_1") None None (Some 1)
                    (Some "starter")).

(** The signature ["good"] verifies, anything else does not. *)
Definition verify (rawBody : string) (sig secret : option string)
    : Outcome Event :=
  if opt_string_eqb sig "good" then Ok deleted_event
  else Throw "No signatures found matching the expected signature".

Definition services : Services :=
  mkServices (fun _ => Ok tt) (fun call => Ok (reply call)) verify
             (Some "whsec_1") (Some "price_starter")
             (Some "price_professional") (Some "price_scale")
             (Some "price_enterprise").

(** The same, with an email service that rejects every message. *)
Definition services_no_email : Services :=
  mkServices (fun _ => Throw "SMTP connection refused")
             (fun call => Ok (reply call)) verify
             (Some "whsec_1") (Some "price_starter")
             (Some "price_professional") (Some "price_scale")
             (Some "price_enterprise").

End Sample.

(* ================================================================== *)
(** ** Vocabulary of the statements *)

(** The restricting [UPDATE] of [checkClientLimits], on one row. *)
Definition mark_limit_exceeded (at_time : Z) (s : Specialist) : Specialist :=
  set_restricted_at (Some at_time)
    (set_restriction_reason (Some "client_limit_exceeded")
       (set_is_restricted true s)).

(** How the specialists table looks after a subscription with id [sub]
    was deleted: the same rows in the same order, the rows of that
    subscription canceled and restricted, every other row untouched. *)
Definition canceled_rows (sub : string) (before after : list Specialist)
    : Prop :=
  Forall2
    (fun s s' =>
       s_id s' = s_id s
       /\ (stripe_subscription_id s = Some sub ->
           subscription_status s' = Some "canceled"
           /\ restriction_reason s' = Some "subscription_canceled"
           /\ is_restricted s' = true)
       /\ (stripe_subscription_id s <> Some sub -> s' = s))
    before after.

(** The columns of a client row that archiving leaves alone. *)
Definition same_identity (c c' : Client) : Prop :=
  c_id c' = c_id c
  /\ c_specialist_id c' = c_specialist_id c
  /\ c_name c' = c_name c
  /\ c_email c' = c_email c
  /\ c_created_at c' = c_created_at c
  /\ last_activity c' = last_activity c
  /\ marked_for_cleanup c' = marked_for_cleanup c.

(** A row after an archive statement run at [at_time]: untouched, or
    archived with [is_active], [is_archived], [archived_at] and
    [archived_reason] rewritten. *)
Definition archived_or_same (at_time : Z) (c c' : Client) : Prop :=
  same_identity c c'
  /\ (c' = c
      \/ (c_is_active c' = false
          /\ c_is_archived c' = true
          /\ archived_at c' = Some at_time
          /\ exists reason, archived_reason c' = Some reason)).

(** [m] never changes the part [proj] of the world, whether it returns
    or throws. *)
Definition preserves {A B} (proj : World -> A) (m : M B) : Prop :=
  forall w, proj (snd (m w)) = proj w.

(** The part [proj] of the world ignores the specialists table, the
    clients table, the outbox or the Stripe log. *)
Definition ignores_specialists {A} (proj : World -> A) : Prop :=
  forall sp w, proj (set_specialists sp w) = proj w.

Definition ignores_clients {A} (proj : World -> A) : Prop :=
  forall cs w, proj (set_clients cs w) = proj w.

Definition ignores_outbox {A} (proj : World -> A) : Prop :=
  forall ob w, proj (set_outbox ob w) = proj w.

Definition ignores_stripe_log {A} (proj : World -> A) : Prop :=
  forall l w, proj (set_stripe_log l w) = proj w.

(** A [SET] clause that leaves the identity columns, the stored client
    count and the tier of a specialist alone. *)
Definition keeps_identity (f : Specialist -> Specialist) : Prop :=
  forall s,
    s_id (f s) = s_id s
    /\ s_name (f s) = s_name s
    /\ s_email (f s) = s_email s
    /\ client_count (f s) = client_count s
    /\ billing_tier_id (f s) = billing_tier_id s.

(** The part [proj] of the world is not affected by such updates of the
    specialists table. *)
Definition updates_framed {A} (proj : World -> A) : Prop :=
  forall p f,
    keeps_identity f -> preserves proj (update_specialists p f).

(** The stored count of account [sid] is the number of its active
    clients. *)
Definition count_consistent (w : World) (sid : Z) : Prop :=
  forall s, In s (specialists w) -> s_id s = sid ->
            client_count s = count_active_clients sid (clients w).

(** What [count_consistent] reads: the id and stored count of every
    specialist, and the clients table. *)
Definition count_projection (w : World) : list (Z * Z) * list Client :=
  (map (fun s => (s_id s, client_count s)) (specialists w), clients w).

(** [c] comes no later than [d] in [ORDER BY last_activity ASC NULLS
    FIRST]. *)
Definition less_active (c d : Client) : Prop :=
  activity_le (last_activity c) (last_activity d) = true.

(** The rows that [smartArchiveClients] inserts for the candidates [cs]:
    one pending [archive_client] task per candidate, due at [at_time],
    with ids drawn from the sequence after [seq]. *)
Fixpoint scheduled_archives (seq : Z) (specialistId : Z) (at_time : Z)
    (cs : list Client) : list ScheduledTask :=
  match cs with
  | [] => []
  | c :: rest =>
      mkTask (seq + 1) "archive_client" (Some specialistId) (Some (c_id c))
             at_time None pending
             (Some (mkPayload (Some "auto_archived_billing_limit")
                              None None None))
             None
      :: scheduled_archives (seq + 1) specialistId at_time rest
  end.

(** The part [proj] of the world is not affected by the recompute step
    of the client-count trigger. *)
Definition recompute_framed {A} (proj : World -> A) : Prop :=
  forall sid w, proj (recompute_client_count sid w) = proj w.

(** The statuses written for task [id], in order, in a write history. *)
Definition writes_of (id : Z) (h : list (Z * TaskStatus)) : list TaskStatus :=
  map snd (filter (fun e => fst e =? id) h).

(** The result recorded with a final status: the result of the action
    with [completed], the error message with [failed]. *)
Definition outcome_recorded (st : TaskStatus) (r : TaskResult) : Prop :=
  match st, r with
  | completed, ResultInfo _ => True
  | failed, ResultError _ => True
  | _, _ => False
  end.

(** The two flags of a client row agree: active exactly when not
    archived. *)
Definition flags_agree (c : Client) : Prop :=
  c_is_active c = negb (c_is_archived c).

(** The number of clients of account [sid] that are not archived. *)
Definition count_non_archived (sid : Z) (cs : list Client) : Z :=
  Z.of_nat (List.length
    (filter (fun c => (c_specialist_id c =? sid) && negb (c_is_archived c))
            cs)).

(* ================================================================== *)
(** ** Further code of the cited files *)

(** *** [services/billingService.js]: data retention *)

Definition set_marked_for_cleanup (v : bool) (c : Client) : Client :=
  mkClient (c_id c) (c_specialist_id c) (c_name c) (c_email c)
    (c_created_at c) (c_is_active c) (c_is_archived c) (archived_at c)
    (archived_reason c) (last_activity c) v.

(** The subquery of [enforceDataRetention]: [SELECT id FROM specialists
    WHERE subscription_status = 'canceled' AND cancellation_date < NOW() -
    INTERVAL '90 days']. *)
Definition long_canceled (now_ : Z) (s : Specialist) : bool :=
  opt_string_eqb (subscription_status s) "canceled"
  && match cancellation_date s with
     | Some d => d <? now_ - days 90
     | None => false
     end.

(** [enforceDataRetention()]: [UPDATE clients SET marked_for_cleanup =
    true WHERE specialist_id IN (...)]. *)
Definition enforceDataRetention : M unit :=
  w <- get ;;
  update_clients
    (fun c => existsb (fun s => (s_id s =? c_specialist_id c)
                                && long_canceled (now w) s)
                      (specialists w))
    (set_marked_for_cleanup true) ;;
  ret tt.

(** *** Parameters of a statement

    What the scan of a statement text has seen last: nothing of a
    parameter, a [$], or a [$] and digits. *)
Inductive ScanState :=
| Outside
| Dollar
| Number (n : Z).

Definition flush (st : ScanState) : list Z :=
  match st with
  | Number n => [n]
  | _ => []
  end.

(** The parameters a statement text refers to: the numbers [n] of its
    [$n], in order.  (No statement of this code has a [$] in a string
    literal or in a name.) *)
Fixpoint scan_parameters (st : ScanState) (sql : string) : list Z :=
  match sql with
  | EmptyString => flush st
  | String c rest =>
      if Ascii.eqb c "$" then flush st ++ scan_parameters Dollar rest
      else if is_digit c
      then match st with
           | Outside => scan_parameters Outside rest
           | Dollar =>
               scan_parameters (Number (Z.of_nat (nat_of_ascii c) - 48)) rest
           | Number n =>
               scan_parameters
                 (Number (10 * n + (Z.of_nat (nat_of_ascii c) - 48))) rest
           end
      else flush st ++ scan_parameters Outside rest
  end.

Definition parameter_numbers (sql : string) : list Z :=
  scan_parameters Outside sql.

(** PostgreSQL prepares a statement with as many parameters as the
    highest [$n] in its text, and rejects a [Bind] that supplies another
    number of values ([bind message supplies 3 parameters, but prepared
    statement requires 2]). *)
Definition bind_accepted (sql : string) (supplied : nat) : bool :=
  fold_right Z.max 0 (parameter_numbers sql) =? Z.of_nat supplied.

(** *** [middleware/billingRestrictions.js]: usage tracking

    [trackUsage] writes the table [usage_tracking] only, which is kept
    apart from the world of the billing tables. *)

Record UsageRow := mkUsageRow {
  u_specialist_id : Z;
  metric_name : string;
  metric_value : Z;
  period_start : string;
  period_end : string
}.

(** The conflict target [(specialist_id, metric_name, period_start)]. *)
Definition usage_key (sid : Z) (metric day : string) (r : UsageRow) : bool :=
  (u_specialist_id r =? sid) && String.eqb (metric_name r) metric
  && String.eqb (period_start r) day.

(** The statement text of [trackUsage]. *)
Definition trackUsage_statement : string :=
  "INSERT INTO usage_tracking (specialist_id, metric_name, metric_value, period_start, period_end)
       VALUES ($1, 'api_calls', 1, $2, $2)
       ON CONFLICT (specialist_id, metric_name, period_start)
       DO UPDATE SET metric_value = usage_tracking.metric_value + 1".

(** What that statement does to the table once it is accepted: the
    upsert on the conflict target. *)
Definition track_api_call (sid : Z) (today : string) (t : list UsageRow)
    : list UsageRow :=
  if existsb (usage_key sid "api_calls" today) t
  then map (fun r =>
              if usage_key sid "api_calls" today r
              then mkUsageRow (u_specialist_id r) (metric_name r)
                              (metric_value r + 1) (period_start r)
                              (period_end r)
              else r) t
  else t ++ [mkUsageRow sid "api_calls" 1 today today].

(** [trackUsage(req, res, next)], with [today] the ISO date of the
    request.  The statement is sent with the three values
    [[specialistId, today, today]]; when the query fails the [catch]
    block logs the error and calls [next()] all the same. *)
Definition trackUsage (today : string) (req : Request) (t : list UsageRow)
    : Handled * list UsageRow :=
  if bind_accepted trackUsage_statement 3
  then (Next req, track_api_call (user_id req) today t)
  else (Next req, t).

(** *** [config/database.js]: [batchInsert] *)

(** [l.join(sep)] *)
Fixpoint join (sep : string) (l : list string) : string :=
  match l with
  | [] => ""
  | [x] => x
  | x :: rest => (x ++ sep ++ join sep rest)%string
  end.

(** The numbers of the placeholders of the statement, row by row:
    [rowIndex * columns.length + colIndex + 1]. *)
Definition placeholder_numbers (rows columns : nat) : list (list nat) :=
  map (fun rowIndex =>
         map (fun colIndex => (rowIndex * columns + colIndex + 1)%nat)
             (seq 0 columns))
      (seq 0 rows).

(** [`$${n}`] *)
Definition placeholder (n : nat) : string :=
  ("$" ++ show_Z (Z.of_nat n))%string.

(** [`(${...join(', ')})`] *)
Definition placeholder_row (row : list nat) : string :=
  ("(" ++ join ", " (map placeholder row) ++ ")")%string.

Definition placeholders (rows columns : nat) : string :=
  join ", " (map placeholder_row (placeholder_numbers rows columns)).

(** The number a decimal numeral denotes after the digits read so far. *)
Fixpoint uint_value (d : Decimal.uint) (acc : Z) : Z :=
  match d with
  | Decimal.Nil => acc
  | Decimal.D0 d => uint_value d (10 * acc + 0)
  | Decimal.D1 d => uint_value d (10 * acc + 1)
  | Decimal.D2 d => uint_value d (10 * acc + 2)
  | Decimal.D3 d => uint_value d (10 * acc + 3)
  | Decimal.D4 d => uint_value d (10 * acc + 4)
  | Decimal.D5 d => uint_value d (10 * acc + 5)
  | Decimal.D6 d => uint_value d (10 * acc + 6)
  | Decimal.D7 d => uint_value d (10 * acc + 7)
  | Decimal.D8 d => uint_value d (10 * acc + 8)
  | Decimal.D9 d => uint_value d (10 * acc + 9)
  end.

(** [batchInsert(table, columns, values)]: [None] when [values] is empty
    (the function returns [{ rowCount: 0 }] without a query), otherwise
    the text and the parameters handed to [query]. *)
Definition batchInsert {V} (table : string) (columns : list string)
    (values : list (list V)) : option (string * list V) :=
  match values with
  | [] => None
  | _ =>
      Some (("INSERT INTO " ++ table ++ " (" ++ join ", " columns
               ++ ") VALUES "
               ++ placeholders (List.length values) (List.length columns))
              %string,
            List.concat values)
  end.

(** *** Words used by the statements about paths and clocks *)

(** Every character of [s] is a decimal digit. *)
Fixpoint all_digits (s : string) : bool :=
  match s with
  | EmptyString => true
  | String c rest => is_digit c && all_digits rest
  end.



(** [a] is scheduled no later than [b]. *)
Definition earlier (a b : ScheduledTask) : Prop :=
  execute_at a <= execute_at b.


(** The restriction flag of every account, by id. *)
Definition restriction_flags (w : World) : list (Z * bool) :=
  map (fun s => (s_id s, is_restricted s)) (specialists w).

(** The same accounts in the same order, and no restricted account has
    become unrestricted. *)
Definition never_lifted (before after : list (Z * bool)) : Prop :=
  Forall2 (fun a b => fst b = fst a /\ (snd a = true -> snd b = true))
          before after.

Definition keeps_restrictions {B} (m : M B) : Prop :=
  forall w,
    never_lifted (restriction_flags w) (restriction_flags (snd (m w))).

(** *** More sample data *)

Module Sample2.

(** Specialist 1 canceled at time [d], and specialist 2 still trialing,
    each with two clients. *)
Definition retention_world (d : Z) : World :=
  mkWorld
    [ set_cancellation_date (Some d)
        (set_subscription_status (Some "canceled")
           (Sample.ada "starter" true));
      mkSpecialist 2 "Bo" "bo@example.com" (Some "starter") None None
                   (Some "trialing") None None None None false None None 0 ]
    [ Sample.client 1 None; Sample.client 2 None;
      mkClient 3 2 "c" "c@example.com" 0 true false None None None false;
      mkClient 4 2 "d" "d@example.com" 0 true false None None None false ]
    Sample.tiers [] 0 [] [] 100000000 [] [] [].

(** Services whose Stripe client rejects [subscriptions.create]. *)
Definition services_no_subscription : Services :=
  mkServices (fun _ => Ok tt)
             (fun call =>
                match call with
                | SubscriptionsCreate _ _ _ _ _ => Throw "card_declined"
                | _ => Ok (Sample.reply call)
                end)
             Sample.verify
             (Some "whsec_1") (Some "price_starter")
             (Some "price_professional") (Some "price_scale")
             (Some "price_enterprise").



(** Twelve due tasks of a type the runner does not know, the later
    rows scheduled earlier. *)
Definition busy_queue : World :=
  mkWorld [Sample.ada "starter" false] (Sample.active_clients 2) Sample.tiers
          (map (fun n => mkTask (Z.of_nat n) "refresh_cache" (Some 1) None
                                (Z.of_nat (13 - n)) None pending None None)
               (seq 1 12))
          12 [] [] 100000000 [] [] [].


End Sample2.

(* ================================================================== *)
(** * Properties *)

(** ** Evaluation of the monad *)

Ltac run_js :=
  cbv beta iota delta
    [bind ret throw get modify try_catch
     update_specialists billingService.send_email billingService.stripe].

(** ** [checkClientLimits] of the billing service *)

Lemma select_specialist_id id w row :
  select_specialist id w = Some row -> s_id row = id.
Proof.
  unfold select_specialist. intros H.
  apply find_some in H. destruct H as [_ H]. lia.
Qed.

(** The query of [checkClientLimits] refers to [bt.tier_id], a column
    that [billing_tiers] does not have.  So every call fails in the
    query, before a row is read or written, and the [catch] block
    rethrows the error. *)
Lemma checkClientLimits_throws svc id w :
  billingService.checkClientLimits svc id w
  = (Throw "column bt.tier_id does not exist", w).
Proof. reflexivity. Qed.

(** C10, on the code.  For an account on a tier whose [client_limit] is
    [-1], as the enterprise entry of [BILLING_TIERS] has it,
    [checkClientLimits] does not return a non-restricted result: it
    throws the error of its query, which names a column the schema
    lacks.  The world is as before, so no flag is set and no message is
    handed to the email service. *)
Theorem checkClientLimits_unlimited_throws svc w id row tier :
  select_specialist id w = Some row ->
  join_tier row w = Some tier ->
  bt_client_limit tier = -1 ->
  let out := billingService.checkClientLimits svc id w in
  fst out = Throw "column bt.tier_id does not exist"
  /\ (forall check, fst out <> Ok check)
  /\ snd out = w
  /\ undefined_column ["tier_id"; "client_limit"; "id"] = Some "tier_id"
  /\ option_map tc_clientLimit (billingService.BILLING_TIERS svc "enterprise")
     = Some (-1).
Proof.
  intros _ _ _ out. subst out. rewrite checkClientLimits_throws. cbn [fst snd].
  split; [reflexivity|]. split; [discriminate|].
  split; [reflexivity|]. split; reflexivity.
Qed.

Lemma checkClientLimits_unlimited_throws_witness :
  billingService.checkClientLimits Sample.services 1
    (Sample.world "enterprise" false 500)
  = (Throw "column bt.tier_id does not exist",
     Sample.world "enterprise" false 500).
Proof.
  destruct (checkClientLimits_unlimited_throws Sample.services
              (Sample.world "enterprise" false 500) 1
              (Sample.ada "enterprise" false)
              (mkTier "enterprise" "Enterprise" 299 (-1)))
    as [Hres [_ [Hworld _]]].
  - reflexivity.
  - reflexivity.
  - reflexivity.
  - apply injective_projections; [exact Hres | exact Hworld].
Defined.

Lemma find_map_same_key (p : Specialist -> bool)
    (g : Specialist -> Specialist) (l : list Specialist) :
  (forall s, p (g s) = p s) ->
  find p (map g l) = option_map g (find p l).
Proof.
  intros Hp. induction l as [|s l IH]; cbn; [reflexivity|].
  rewrite Hp. destruct (p s); [reflexivity | exact IH].
Qed.

(** C1, on the code.  For an account whose tier limit is finite and
    whose number of active clients has reached it, [checkClientLimits]
    neither marks the account nor returns a restricted result: it throws
    the error of its query.  The account row, the outbox and the rest of
    the world are as before.  (The statements after the query, which
    the call never reaches, store and return the reason
    [client_limit_exceeded].) *)
Theorem checkClientLimits_at_limit_throws svc w id row tier :
  select_specialist id w = Some row ->
  join_tier row w = Some tier ->
  bt_client_limit tier <> -1 ->
  bt_client_limit tier <= count_active_clients id (clients w) ->
  let out := billingService.checkClientLimits svc id w in
  fst out = Throw "column bt.tier_id does not exist"
  /\ (forall check, fst out <> Ok check)
  /\ snd out = w
  /\ select_specialist id (snd out) = Some row
  /\ outbox (snd out) = outbox w.
Proof.
  intros Hrow _ _ _ out. subst out. rewrite checkClientLimits_throws.
  cbn [fst snd].
  split; [reflexivity|]. split; [discriminate|].
  split; [reflexivity|]. split; [exact Hrow | reflexivity].
Qed.

Lemma checkClientLimits_at_limit_throws_witness :
  let out := billingService.checkClientLimits Sample.services 1
               (Sample.world "starter" false 10) in
  fst out = Throw "column bt.tier_id does not exist"
  /\ select_specialist 1 (snd out) = Some (Sample.ada "starter" false).
Proof.
  destruct (checkClientLimits_at_limit_throws Sample.services
              (Sample.world "starter" false 10) 1
              (Sample.ada "starter" false)
              (mkTier "starter" "Starter" 29 10))
    as [Hres [_ [_ [Hrow _]]]].
  - reflexivity.
  - reflexivity.
  - cbn. lia.
  - vm_compute. discriminate.
  - split; [exact Hres | exact Hrow].
Defined.

(** ** The webhook handler *)

(** C4.  When the verification call throws (the signature does not
    verify against the secret), [handleStripeWebhook] answers with
    status 400 and the world is exactly as before: no row of
    [billing_events] is added and no specialist, invoice or restriction
    column is written. *)
Theorem webhook_signature_failure svc rawBody sig message w :
  billingRestrictions.stripe_webhooks_constructEvent svc rawBody sig
  = Throw message ->
  exists res,
    billingRestrictions.handleStripeWebhook svc rawBody sig w = (Ok res, w)
    /\ res = mkResponse 400 (JStr ("Webhook Error: " ++ message))
    /\ 400 <= status res < 500.
Proof.
  intros Hsig. unfold billingRestrictions.handleStripeWebhook.
  rewrite Hsig. eexists. split; [reflexivity|]. split; [reflexivity|].
  cbn. lia.
Qed.

Lemma webhook_signature_failure_witness :
  exists res,
    billingRestrictions.handleStripeWebhook Sample.services "{}"
      (Some "forged") (Sample.world "starter" false 3)
    = (Ok res, Sample.world "starter" false 3)
    /\ res = mkResponse 400 (JStr "Webhook Error: stripe is not defined")
    /\ 400 <= status res < 500.
Proof.
  apply (webhook_signature_failure Sample.services "{}" (Some "forged")
           "stripe is not defined" (Sample.world "starter" false 3)).
  reflexivity.
Defined.

Lemma opt_string_eqb_spec a b :
  opt_string_eqb a b = true <-> a = Some b.
Proof.
  destruct a as [x|]; cbn.
  - rewrite String.eqb_eq. split; congruence.
  - split; discriminate.
Qed.

(** The module never binds [stripe]: the verification call of
    [handleStripeWebhook] throws a [ReferenceError] for every delivery,
    whatever Stripe's library would say of it, and the handler answers
    400 without a write. *)
Lemma handleStripeWebhook_rejects svc rawBody sig w :
  billingRestrictions.handleStripeWebhook svc rawBody sig w
  = (Ok (mkResponse 400 (JStr "Webhook Error: stripe is not defined")), w).
Proof. reflexivity. Qed.

Lemma Forall2_diagonal {A} (R : A -> A -> Prop) l a :
  Forall2 R l l -> In a l -> R a a.
Proof.
  induction l as [|b l IH]; intros H Hin; [contradiction|].
  inversion H as [|x y l1 l2 Hb Hrest]; subst.
  destruct Hin as [->|Hin]; [exact Hb | apply IH; assumption].
Qed.

(** C5, on the code.  Take a delivery that Stripe's library verifies as
    a [customer.subscription.deleted] event, for the subscription of an
    account that is not yet marked [subscription_canceled].  The handler
    never gets to the library: it answers 400 and leaves the world as it
    was, so the account is not canceled and not restricted by the
    event.  (No row is deleted either.) *)
Theorem subscription_deleted_is_rejected svc rawBody sig event w s :
  constructEvent svc rawBody sig (STRIPE_WEBHOOK_SECRET svc) = Ok event ->
  ev_type event = "customer.subscription.deleted" ->
  In s (specialists w) ->
  stripe_subscription_id s = Some (o_id (ev_object event)) ->
  restriction_reason s <> Some "subscription_canceled" ->
  let out := billingRestrictions.handleStripeWebhook svc rawBody sig w in
  fst out = Ok (mkResponse 400 (JStr "Webhook Error: stripe is not defined"))
  /\ snd out = w
  /\ ~ canceled_rows (o_id (ev_object event))
                     (specialists w) (specialists (snd out)).
Proof.
  intros _ _ Hin Hsub Hreason out. subst out.
  rewrite handleStripeWebhook_rejects. cbn [fst snd].
  split; [reflexivity|]. split; [reflexivity|].
  intros Hcanceled. unfold canceled_rows in Hcanceled.
  destruct (Forall2_diagonal _ _ s Hcanceled Hin) as [_ [Hmarked _]].
  destruct (Hmarked Hsub) as [_ [Hr _]]. contradiction.
Qed.

Lemma subscription_deleted_is_rejected_witness :
  let w := set_specialists
             [set_stripe_subscription_id (Some "sub_1")
                (Sample.ada "starter" false)]
             (Sample.world "starter" false 3) in
  let out := billingRestrictions.handleStripeWebhook Sample.services "{}"
               (Some "good") w in
  fst out = Ok (mkResponse 400 (JStr "Webhook Error: stripe is not defined"))
  /\ snd out = w.
Proof.
  intros w out.
  destruct (subscription_deleted_is_rejected Sample.services "{}"
              (Some "good") Sample.deleted_event w
              (set_stripe_subscription_id (Some "sub_1")
                 (Sample.ada "starter" false)))
    as [Hres [Hworld _]].
  - reflexivity.
  - reflexivity.
  - left. reflexivity.
  - reflexivity.
  - discriminate.
  - split; [exact Hres | exact Hworld].
Defined.

(** ** Frame reasoning: the columns a computation leaves alone *)

Section Preserves.

Context {A : Type} (proj : World -> A).

Lemma preserves_ret {B} (b : B) : preserves proj (ret b).
Proof. intros w. reflexivity. Qed.

Lemma preserves_throw {B} e : preserves proj (@throw B e).
Proof. intros w. reflexivity. Qed.

Lemma preserves_get : preserves proj get.
Proof. intros w. reflexivity. Qed.

Lemma preserves_modify f :
  (forall w, proj (f w) = proj w) -> preserves proj (modify f).
Proof. intros H w. apply H. Qed.

Lemma preserves_bind {B C} (m : M B) (k : B -> M C) :
  preserves proj m -> (forall b, preserves proj (k b)) ->
  preserves proj (bind m k).
Proof.
  intros Hm Hk w. unfold bind. specialize (Hm w).
  destruct (m w) as [[b|e] w1]; cbn [snd] in *.
  - rewrite Hk. exact Hm.
  - exact Hm.
Qed.

Lemma preserves_try_catch {B} (m : M B) (h : string -> M B) :
  preserves proj m -> (forall e, preserves proj (h e)) ->
  preserves proj (try_catch m h).
Proof.
  intros Hm Hh w. unfold try_catch. specialize (Hm w).
  destruct (m w) as [[b|e] w1]; cbn [snd] in *.
  - exact Hm.
  - rewrite Hh. exact Hm.
Qed.

Lemma preserves_for_of {B} (xs : list B) (body : B -> M unit) :
  (forall x, preserves proj (body x)) -> preserves proj (for_of xs body).
Proof.
  intros H. induction xs as [|x xs IH]; cbn [for_of].
  - apply preserves_ret.
  - apply preserves_bind; [apply H | intros _; exact IH].
Qed.

End Preserves.

(** Splits a frame goal along the structure of the computation. *)
Ltac frame_step :=
  first
    [ apply preserves_ret
    | apply preserves_throw
    | apply preserves_get
    | apply preserves_bind; [|intros ?]
    | apply preserves_try_catch; [|intros ?]
    | apply preserves_for_of; intros ?
    | apply preserves_modify; intros [] ; reflexivity
    | progress cbv zeta
    | match goal with
      | |- preserves _ (match ?x with _ => _ end) => destruct x
      end ].

Ltac frame := repeat frame_step.

(** The same, closing the calls of known functions with [known]. *)
Tactic Notation "frame" "using" tactic3(known) :=
  repeat first [ solve [known] | frame_step ].

(** Closes [ignores_...] goals on a projection of the world. *)
Ltac ignores := let w := fresh "w" in intros ? w; destruct w; reflexivity.

Lemma ignores_updates {A} (proj : World -> A) :
  ignores_specialists proj -> updates_framed proj.
Proof. intros H p f _ w. apply H. Qed.

Lemma ignores_recompute {A} (proj : World -> A) :
  ignores_specialists proj -> recompute_framed proj.
Proof. intros H sid w. apply H. Qed.

(** Closes the side conditions of the frame lemmas. *)
Ltac framed :=
  first [ ignores
        | apply ignores_updates; ignores
        | apply ignores_recompute; ignores
        | intros ?; repeat split ].

Section ServiceFrames.

Context {A : Type} (proj : World -> A).

Hypothesis Hupd : updates_framed proj.
Hypothesis Hob : ignores_outbox proj.

Lemma preserves_send_email svc msg :
  preserves proj (billingService.send_email svc msg).
Proof. intros w. apply Hob. Qed.

Lemma preserves_notifyLimitReached svc id count lim tier :
  preserves proj (billingService.notifyLimitReached svc id count lim tier).
Proof.
  unfold billingService.notifyLimitReached.
  frame using apply preserves_send_email.
Qed.

Lemma preserves_notifyApproachingLimit svc id count lim :
  preserves proj (billingService.notifyApproachingLimit svc id count lim).
Proof.
  unfold billingService.notifyApproachingLimit.
  frame using apply preserves_send_email.
Qed.

Lemma preserves_notifyPendingArchive svc id cs :
  preserves proj (billingService.notifyPendingArchive svc id cs).
Proof.
  unfold billingService.notifyPendingArchive.
  frame using apply preserves_send_email.
Qed.

Lemma preserves_clearRestrictions id :
  preserves proj (billingService.clearRestrictions id).
Proof. apply Hupd. framed. Qed.

(** [checkClientLimits] writes nothing but the restriction columns of
    the specialists table and the outbox (the statement depends neither
    on the outcome of the query nor on the schema). *)
Lemma preserves_checkClientLimits svc id :
  preserves proj (billingService.checkClientLimits svc id).
Proof using Hupd Hob.
  unfold billingService.checkClientLimits.
  destruct (undefined_column ["tier_id"; "client_limit"; "id"]).
  - apply preserves_throw.
  - frame using
      first [ apply Hupd; framed
            | apply preserves_notifyLimitReached
            | apply preserves_notifyApproachingLimit ].
Qed.

End ServiceFrames.

Section TriggerFrames.

Context {A : Type} (proj : World -> A).

Hypothesis Hrc : recompute_framed proj.

Lemma update_client_count_frame op old new w :
  proj (update_client_count op old new w) = proj w.
Proof.
  unfold update_client_count.
  destruct (recompute_needed op old new); [apply Hrc | reflexivity].
Qed.

Lemma triggers_frame (f : Client -> Client) touched w :
  proj (fold_left (fun acc o => update_client_count UPDATE (Some o) (f o) acc)
                  touched w)
  = proj w.
Proof.
  revert w. induction touched as [|o l IH]; intros w; cbn [fold_left].
  - reflexivity.
  - rewrite IH. apply update_client_count_frame.
Qed.

Lemma preserves_update_clients p f :
  ignores_clients proj -> preserves proj (update_clients p f).
Proof.
  intros Hcs w. unfold update_clients. cbn [snd].
  rewrite triggers_frame. apply Hcs.
Qed.

End TriggerFrames.

(** The clients table after an [UPDATE clients]: the trigger writes
    specialists only. *)
Lemma update_clients_clients p f w :
  clients (snd (update_clients p f w))
  = map (fun c => if p c then f c else c) (clients w).
Proof.
  unfold update_clients. cbn [snd].
  rewrite (triggers_frame clients); [reflexivity | framed].
Qed.

Lemma update_clients_result p f w :
  fst (update_clients p f w) = Ok (map f (filter p (clients w))).
Proof. reflexivity. Qed.

(** ** Archiving *)

Lemma Forall2_map_self {A} (R : A -> A -> Prop) (g : A -> A) (l : list A) :
  (forall a, R a (g a)) -> Forall2 R l (map g l).
Proof.
  intros H. induction l; cbn; constructor; auto.
Qed.

Lemma archived_rows_update at_time (p : Client -> bool) reason l :
  Forall2 (archived_or_same at_time) l
    (map (fun c => if p c then archive_row reason at_time c else c) l).
Proof.
  apply Forall2_map_self. intros c. destruct (p c).
  - split; [repeat split|]. right. cbn. repeat split. eauto.
  - split; [repeat split|]. left. reflexivity.
Qed.

Lemma archiveClient_clients svc task w :
  exists (p : Client -> bool) reason,
    clients (snd (scheduledTasks.archiveClient svc task w))
    = map (fun c => if p c then archive_row reason (now w) c else c)
          (clients w).
Proof.
  unfold scheduledTasks.archiveClient.
  match goal with
  | |- context [update_clients ?p (archive_row ?r _)] => exists p, r
  end.
  unfold bind at 1. unfold get at 1. unfold bind at 1.
  match goal with
  | |- context [update_clients ?p ?f w] =>
      pose proof (update_clients_clients p f w) as Hcs;
      destruct (update_clients p f w) as [[rows|e] w1]
  end; cbn [snd] in *; [|exact Hcs].
  rewrite <- Hcs.
  destruct rows as [|row rows]; [reflexivity|].
  destruct (t_specialist_id task) as [sid|]; [|reflexivity].
  apply (preserves_bind clients).
  - apply preserves_checkClientLimits; framed.
  - intros ?. apply preserves_ret.
Qed.

Lemma preserves_enforceRestrictions {A} (proj : World -> A) req :
  preserves proj (billingRestrictions.enforceRestrictions req).
Proof.
  unfold billingRestrictions.enforceRestrictions. frame.
Qed.

Lemma archive_clients_clients svc req w :
  exists (p : Client -> bool) reason,
    clients (snd (billingRoutes.archive_clients svc req w))
    = map (fun c => if p c then archive_row reason (now w) c else c)
          (clients w).
Proof.
  unfold billingRoutes.archive_clients, bind.
  pose proof (preserves_enforceRestrictions clients req w) as Hc.
  pose proof (preserves_enforceRestrictions now req w) as Hn.
  destruct (billingRestrictions.enforceRestrictions req w) as [[h|e] w1];
    cbn [snd] in Hc, Hn.
  2: { exists (fun _ => false), "". cbn [snd]. rewrite map_id. exact Hc. }
  destruct h as [req'|res].
  2: { exists (fun _ => false), "". cbn [snd ret]. rewrite map_id.
       exact Hc. }
  unfold billingRoutes.archive_clients_handler.
  destruct (body_clientIds req') as [clientIds|].
  2: { exists (fun _ => false), "". cbn [snd ret try_catch].
       rewrite map_id. exact Hc. }
  match goal with
  | |- context [update_clients ?p (archive_row ?r _)] => exists p, r
  end.
  rewrite <- Hc, <- Hn.
  match goal with
  | |- clients (snd (try_catch ?m ?h w1)) = _ =>
      assert (Hm : clients (snd (m w1))
                   = map (fun c => if existsb (Z.eqb (c_id c)) clientIds
                                      && (c_specialist_id c =? user_id req')
                                   then archive_row
                                          match body_reason req' with
                                          | Some r => r
                                          | None => "manual_archive"
                                          end (now w1) c
                                   else c) (clients w1));
      [| unfold try_catch; destruct (m w1) as [[]]; exact Hm]
  end.
  unfold bind at 1. unfold get at 1. unfold bind at 1.
  match goal with
  | |- context [update_clients ?p ?f w1] =>
      pose proof (update_clients_clients p f w1) as Hcs;
      destruct (update_clients p f w1) as [[rows|e] w2]
  end; cbn [snd] in *; [|exact Hcs].
  rewrite <- Hcs.
  apply (preserves_bind clients).
  - apply preserves_checkClientLimits; framed.
  - intros ?. apply preserves_ret.
Qed.

(** C8, as the code has it.  Both archive operations, the scheduled
    [archiveClient] task and the [POST /archive-clients] route, leave the
    clients table with the same rows in the same order: no row is
    deleted.  Each row is either unchanged or has [is_active = false],
    [is_archived = true], [archived_at = NOW()] and a new
    [archived_reason]; its id, owner, name, email, creation time, last
    activity and cleanup mark are what they were. *)
Theorem archive_rewrites_archive_columns_only svc w :
  (forall task,
     Forall2 (archived_or_same (now w)) (clients w)
       (clients (snd (scheduledTasks.archiveClient svc task w))))
  /\ (forall req,
        Forall2 (archived_or_same (now w)) (clients w)
          (clients (snd (billingRoutes.archive_clients svc req w)))).
Proof.
  split.
  - intros task.
    destruct (archiveClient_clients svc task w) as [p [reason ->]].
    apply archived_rows_update.
  - intros req.
    destruct (archive_clients_clients svc req w) as [p [reason ->]].
    apply archived_rows_update.
Qed.

(** C8 as worded fails on the code: archiving also rewrites
    [archived_reason], here from [NULL] to the reason of the task. *)
Lemma archive_writes_reason_counterexample :
  let w := Sample.world "starter" false 2 in
  let task := mkTask 1 "archive_client" (Some 1) (Some 1) 0 None pending
                     None None in
  let w' := snd (scheduledTasks.archiveClient Sample.services task w) in
  option_map archived_reason (find (fun c => c_id c =? 1) (clients w))
  = Some None
  /\ option_map archived_reason (find (fun c => c_id c =? 1) (clients w'))
     = Some (Some "auto_archived_billing_limit").
Proof.
  vm_compute. split; reflexivity.
Qed.

(** ** The client-count trigger *)

Lemma recompute_establishes sid w :
  count_consistent (recompute_client_count sid w) sid.
Proof.
  intros s Hin Hs. unfold recompute_client_count in *.
  destruct w; cbn [specialists clients set_specialists] in *.
  apply in_map_iff in Hin. destruct Hin as [s0 [Hs0 _]].
  destruct (s_id s0 =? sid) eqn:E.
  - subst s. reflexivity.
  - subst s. apply Z.eqb_neq in E. contradiction.
Qed.

Lemma recompute_keeps sid sid' w :
  count_consistent w sid' ->
  count_consistent (recompute_client_count sid w) sid'.
Proof.
  intros H. destruct (Z.eq_dec sid' sid) as [->|Hne].
  - apply recompute_establishes.
  - intros s Hin Hs. unfold recompute_client_count in *.
    destruct w; cbn [specialists clients set_specialists] in *.
    apply in_map_iff in Hin. destruct Hin as [s0 [Hs0 Hin0]].
    destruct (s_id s0 =? sid) eqn:E.
    + apply Z.eqb_eq in E. subst s. cbn in Hs. congruence.
    + subst s. apply H; assumption.
Qed.

Lemma trigger_keeps op old new sid' w :
  count_consistent w sid' ->
  count_consistent (update_client_count op old new w) sid'.
Proof.
  intros H. unfold update_client_count.
  destruct (recompute_needed op old new); [apply recompute_keeps|]; exact H.
Qed.

Lemma triggers_keep (f : Client -> Client) touched sid w :
  count_consistent w sid ->
  count_consistent
    (fold_left (fun acc o => update_client_count UPDATE (Some o) (f o) acc)
               touched w) sid.
Proof.
  revert w. induction touched as [|o l IH]; intros w H; cbn [fold_left].
  - exact H.
  - apply IH. apply trigger_keeps. exact H.
Qed.

Lemma triggers_establish (f : Client -> Client) touched o w :
  In o touched ->
  recompute_needed UPDATE (Some o) (f o) = true ->
  count_consistent
    (fold_left (fun acc o => update_client_count UPDATE (Some o) (f o) acc)
               touched w) (c_specialist_id (f o)).
Proof.
  revert w. induction touched as [|o' l IH]; intros w Hin Hfire;
    cbn [fold_left]; [contradiction|].
  destruct Hin as [->|Hin].
  - apply triggers_keep. unfold update_client_count. rewrite Hfire.
    apply recompute_establishes.
  - apply IH; assumption.
Qed.

Lemma recompute_needed_update old new :
  c_is_active new <> c_is_active old ->
  recompute_needed UPDATE (Some old) new = true.
Proof.
  cbn. destruct (c_is_active new), (c_is_active old); cbn; congruence.
Qed.

(** An [UPDATE] that keeps the owner of every row and the activity of
    the rows of account [sid] keeps the number of active clients of
    [sid]. *)
Lemma count_active_update (p : Client -> bool) f sid l :
  (forall c, c_specialist_id (f c) = c_specialist_id c) ->
  (forall c, In c l -> p c = true -> c_specialist_id c = sid ->
             c_is_active (f c) = c_is_active c) ->
  count_active_clients sid (map (fun c => if p c then f c else c) l)
  = count_active_clients sid l.
Proof.
  intros Hown Hact. unfold count_active_clients. f_equal.
  induction l as [|c l IH]; [reflexivity|].
  cbn [map filter].
  assert (Hc : (c_specialist_id (if p c then f c else c) =? sid)
               && c_is_active (if p c then f c else c)
               = (c_specialist_id c =? sid) && c_is_active c).
  { destruct (p c) eqn:Ep; [|reflexivity].
    rewrite Hown. destruct (c_specialist_id c =? sid) eqn:E; [|reflexivity].
    apply Z.eqb_eq in E. cbn [andb]. apply Hact; auto. left. reflexivity. }
  rewrite Hc.
  assert (IH' := IH (fun c0 Hin => Hact c0 (or_intror Hin))).
  destruct ((c_specialist_id c =? sid) && c_is_active c).
  - cbn [List.length]. f_equal. exact IH'.
  - exact IH'.
Qed.

Lemma count_consistent_ext w w' sid :
  specialists w' = specialists w ->
  count_active_clients sid (clients w') = count_active_clients sid (clients w) ->
  count_consistent w sid -> count_consistent w' sid.
Proof.
  intros Hsp Hcount H s Hin Hs. rewrite Hsp in Hin. rewrite Hcount.
  apply H; assumption.
Qed.

Lemma insert_client_establishes c w :
  count_consistent (insert_client c w) (c_specialist_id c).
Proof.
  unfold insert_client, update_client_count. cbn [recompute_needed].
  apply recompute_establishes.
Qed.

Lemma insert_client_keeps c w sid :
  count_consistent w sid -> count_consistent (insert_client c w) sid.
Proof.
  intros H. destruct (Z.eq_dec sid (c_specialist_id c)) as [->|Hne].
  - apply insert_client_establishes.
  - unfold insert_client. apply trigger_keeps.
    apply (count_consistent_ext w); [destruct w; reflexivity | | exact H].
    destruct w; cbn [clients set_clients]. unfold count_active_clients.
    rewrite filter_app. cbn [filter].
    replace (c_specialist_id c =? sid) with false
      by (symmetry; apply Z.eqb_neq; congruence).
    cbn [andb]. rewrite app_nil_r. reflexivity.
Qed.

Lemma update_clients_establishes p f w c :
  In c (clients w) -> p c = true ->
  c_is_active (f c) <> c_is_active c ->
  count_consistent (snd (update_clients p f w)) (c_specialist_id (f c)).
Proof.
  intros Hin Hp Hact. unfold update_clients. cbn [snd].
  apply triggers_establish.
  - apply filter_In. split; assumption.
  - apply recompute_needed_update. exact Hact.
Qed.

Lemma update_clients_keeps p f w sid :
  (forall c, c_specialist_id (f c) = c_specialist_id c) ->
  count_consistent w sid ->
  count_consistent (snd (update_clients p f w)) sid.
Proof.
  intros Hown H.
  destruct (existsb
              (fun o => (c_specialist_id o =? sid)
                        && negb (Bool.eqb (c_is_active (f o)) (c_is_active o)))
              (filter p (clients w))) eqn:E.
  - apply existsb_exists in E. destruct E as [o [Hin Ho]].
    apply andb_prop in Ho. destruct Ho as [Hsid Hact].
    apply Z.eqb_eq in Hsid. apply filter_In in Hin. destruct Hin as [Hin Hp].
    rewrite <- Hsid, <- (Hown o).
    apply update_clients_establishes; try assumption.
    intros Heq. rewrite Heq, Bool.eqb_reflx in Hact. discriminate.
  - unfold update_clients. cbn [snd]. apply triggers_keep.
    apply (count_consistent_ext w); [destruct w; reflexivity | | exact H].
    destruct w as [sp cs bt st sq be iv nw ob sl th].
    cbn [clients set_clients] in *.
    apply count_active_update; [exact Hown|].
    intros c Hin Hp Hsid.
    destruct (Bool.eqb (c_is_active (f c)) (c_is_active c)) eqn:Eb.
    + apply Bool.eqb_prop. exact Eb.
    + exfalso.
      assert (Hex : existsb
                (fun o => (c_specialist_id o =? sid)
                          && negb (Bool.eqb (c_is_active (f o)) (c_is_active o)))
                (filter p cs) = true).
      { apply existsb_exists. exists c. split.
        - apply filter_In. split; assumption.
        - rewrite Eb. apply Z.eqb_eq in Hsid. rewrite Hsid. reflexivity. }
      congruence.
Qed.

(** The identity and stored count of every specialist, and the clients
    table: what [count_consistent] reads. *)
Lemma count_consistent_proj w w' sid :
  count_projection w' = count_projection w ->
  count_consistent w sid -> count_consistent w' sid.
Proof.
  unfold count_projection. intros Heq H s Hin Hs.
  injection Heq as Hsp Hcl. rewrite Hcl.
  assert (Hin' : In (s_id s, client_count s)
                    (map (fun s => (s_id s, client_count s)) (specialists w)))
    by (rewrite <- Hsp; apply in_map_iff; exists s; split; [reflexivity|assumption]).
  apply in_map_iff in Hin'. destruct Hin' as [s0 [Heq0 Hin0]].
  injection Heq0 as Hid Hcount. rewrite <- Hcount.
  apply H; [exact Hin0 | congruence].
Qed.

Lemma count_projection_updates : updates_framed count_projection.
Proof.
  intros p f Hf w. unfold update_specialists, modify, count_projection.
  destruct w; cbn [snd specialists clients set_specialists].
  f_equal. rewrite map_map. apply map_ext. intros s.
  destruct (p s); [|reflexivity].
  destruct (Hf s) as [-> [_ [_ [-> _]]]]. reflexivity.
Qed.

Lemma checkClientLimits_keeps_counts svc id w sid :
  count_consistent w sid ->
  count_consistent (snd (billingService.checkClientLimits svc id w)) sid.
Proof.
  apply count_consistent_proj.
  apply (preserves_checkClientLimits count_projection);
    [apply count_projection_updates | ignores].
Qed.

Lemma archiveClient_keeps_counts svc task w sid :
  count_consistent w sid ->
  count_consistent (snd (scheduledTasks.archiveClient svc task w)) sid.
Proof.
  intros H. unfold scheduledTasks.archiveClient.
  unfold bind at 1. unfold get at 1. unfold bind at 1.
  match goal with
  | |- context [update_clients ?p ?f w] =>
      pose proof (update_clients_keeps p f w sid (fun c => eq_refl) H) as Hk;
      destruct (update_clients p f w) as [[rows|e] w1]
  end; cbn [snd] in *; [|exact Hk].
  destruct rows as [|row rows]; [exact Hk|].
  destruct (t_specialist_id task) as [specialist_id|]; [|exact Hk].
  unfold bind.
  pose proof (checkClientLimits_keeps_counts svc specialist_id w1 sid Hk) as Hc.
  destruct (billingService.checkClientLimits svc specialist_id w1) as [[r|e] w2];
    exact Hc.
Qed.

Lemma archive_clients_keeps_counts svc req w sid :
  count_consistent w sid ->
  count_consistent (snd (billingRoutes.archive_clients svc req w)) sid.
Proof.
  intros H. unfold billingRoutes.archive_clients, bind.
  pose proof (preserves_enforceRestrictions count_projection req w) as Hp.
  destruct (billingRestrictions.enforceRestrictions req w) as [[h|e] w1];
    cbn [snd] in *; apply (count_consistent_proj w w1 sid) in H;
    try (symmetry; exact Hp); try exact Hp.
  2: exact H.
  destruct h as [req'|res]; [|exact H].
  unfold billingRoutes.archive_clients_handler.
  destruct (body_clientIds req') as [clientIds|]; [|exact H].
  match goal with
  | |- count_consistent (snd (try_catch ?m ?h w1)) sid =>
      assert (Hm : count_consistent (snd (m w1)) sid);
      [| unfold try_catch; destruct (m w1) as [[]]; exact Hm]
  end.
  unfold bind at 1. unfold get at 1. unfold bind at 1.
  match goal with
  | |- context [update_clients ?p ?f w1] =>
      pose proof (update_clients_keeps p f w1 sid (fun c => eq_refl) H) as Hk;
      destruct (update_clients p f w1) as [[rows|e] w2]
  end; cbn [snd] in *; [|exact Hk].
  unfold bind.
  pose proof (checkClientLimits_keeps_counts svc (user_id req') w2 sid Hk) as Hc.
  destruct (billingService.checkClientLimits svc (user_id req') w2)
    as [[r|e] w3]; exact Hc.
Qed.

Lemma count_active_non_archived sid cs :
  Forall flags_agree cs ->
  count_active_clients sid cs = count_non_archived sid cs.
Proof.
  intros H. unfold count_active_clients, count_non_archived. f_equal. f_equal.
  apply filter_ext_in. intros c Hc.
  rewrite Forall_forall in H. rewrite (H c Hc). reflexivity.
Qed.

Lemma archive_keeps_flags (p : Client -> bool) reason at_time cs :
  Forall flags_agree cs ->
  Forall flags_agree
    (map (fun c => if p c then archive_row reason at_time c else c) cs).
Proof.
  intros H. apply Forall_map. eapply Forall_impl; [|exact H].
  intros c Hc. destruct (p c); [reflexivity | exact Hc].
Qed.

(** C2.  The trigger [update_client_count] recomputes on every insert
    and on every update that changes [is_active].  After a client is
    created, and after any [UPDATE] that changes the activity of a row
    (archive, reactivation), the stored [client_count] of the account
    that owns the row equals the number of its active clients.  For
    every account whose stored count was right before, it is right after
    a creation, after any [UPDATE] that keeps the owner of each row, and
    after both archive operations of the code.  The archive operations
    keep [is_active] and [is_archived] opposite on every row, and on such
    a table the active clients of an account are its non-archived
    clients. *)
Theorem client_count_recomputed_on_state_change :
  (forall c, recompute_needed INSERT None c = true)
  /\ (forall old new,
        c_is_active new <> c_is_active old ->
        recompute_needed UPDATE (Some old) new = true)
  /\ (forall c w, count_consistent (insert_client c w) (c_specialist_id c))
  /\ (forall p f w c,
        In c (clients w) -> p c = true ->
        c_is_active (f c) <> c_is_active c ->
        count_consistent (snd (update_clients p f w)) (c_specialist_id (f c)))
  /\ (forall c w sid,
        count_consistent w sid -> count_consistent (insert_client c w) sid)
  /\ (forall p f w sid,
        (forall c, c_specialist_id (f c) = c_specialist_id c) ->
        count_consistent w sid ->
        count_consistent (snd (update_clients p f w)) sid)
  /\ (forall svc task w sid,
        count_consistent w sid ->
        count_consistent (snd (scheduledTasks.archiveClient svc task w)) sid)
  /\ (forall svc req w sid,
        count_consistent w sid ->
        count_consistent (snd (billingRoutes.archive_clients svc req w)) sid)
  /\ (forall svc task w,
        Forall flags_agree (clients w) ->
        Forall flags_agree
          (clients (snd (scheduledTasks.archiveClient svc task w))))
  /\ (forall svc req w,
        Forall flags_agree (clients w) ->
        Forall flags_agree
          (clients (snd (billingRoutes.archive_clients svc req w))))
  /\ (forall sid cs,
        Forall flags_agree cs ->
        count_active_clients sid cs = count_non_archived sid cs).
Proof.
  split; [reflexivity|].
  split; [exact recompute_needed_update|].
  split; [exact insert_client_establishes|].
  split; [exact update_clients_establishes|].
  split; [exact insert_client_keeps|].
  split; [exact update_clients_keeps|].
  split; [exact archiveClient_keeps_counts|].
  split; [exact archive_clients_keeps_counts|].
  split; [|split; [|exact count_active_non_archived]].
  - intros svc task w H.
    destruct (archiveClient_clients svc task w) as [p [reason ->]].
    apply archive_keeps_flags. exact H.
  - intros svc req w H.
    destruct (archive_clients_clients svc req w) as [p [reason ->]].
    apply archive_keeps_flags. exact H.
Qed.

(** Archiving client 3 of an account that stores a stale count of 0:
    afterwards the stored count is 4, the number of active clients. *)
Lemma client_count_recomputed_witness :
  let w := Sample.world "starter" false 5 in
  let w' := snd (update_clients (fun c => c_id c =? 3)
                                (archive_row "manual_archive" (now w)) w) in
  count_consistent w' 1
  /\ option_map client_count (select_specialist 1 w') = Some 4.
Proof.
  intros w w'. split; [|reflexivity].
  destruct client_count_recomputed_on_state_change
    as [_ [_ [_ [Hupdate _]]]].
  apply (Hupdate (fun c => c_id c =? 3) (archive_row "manual_archive" (now w))
                 w (Sample.client 3 (Some 99999000))).
  - cbn. auto 10.
  - reflexivity.
  - cbn. discriminate.
Defined.

(** ** [createSubscription] *)

Lemma truthy_Some x s : truthy x = Some s -> x = Some s.
Proof.
  destruct x as [[|c r]|]; cbn; congruence.
Qed.

(** C9.  For an existing account and a tier of [BILLING_TIERS], when
    the Stripe calls succeed, [createSubscription] returns the
    subscription and the tier.  It creates a Stripe customer exactly when
    the account has none, attaches the payment method, and creates the
    subscription with [trial_period_days = 14].  Afterwards the account
    row carries the customer id, the subscription id and status and the
    new tier, and is not restricted: flag false, reason and
    [restricted_at] null. *)
Theorem createSubscription_persists svc w id tierId pm row tier cid
    subscription attached updated :
  select_specialist id w = Some row ->
  billingService.BILLING_TIERS svc tierId = Some tier ->
  match truthy (stripe_customer_id row) with
  | Some existing => cid = existing
  | None =>
      exists customer,
        stripe_request svc (CustomersCreate (s_email row) (s_name row) id)
        = Ok customer
        /\ cid = r_id customer
  end ->
  stripe_request svc (PaymentMethodsAttach pm cid) = Ok attached ->
  stripe_request svc (CustomersUpdate cid pm) = Ok updated ->
  stripe_request svc (SubscriptionsCreate cid (tc_priceId tier) id tierId 14)
  = Ok subscription ->
  let out := billingService.createSubscription svc id tierId pm w in
  fst out = Ok (subscription, tier)
  /\ stripe_log (snd out)
     = stripe_log w
         ++ match truthy (stripe_customer_id row) with
            | Some _ => []
            | None => [CustomersCreate (s_email row) (s_name row) id]
            end
         ++ [ PaymentMethodsAttach pm cid;
              CustomersUpdate cid pm;
              SubscriptionsCreate cid (tc_priceId tier) id tierId 14 ]
  /\ (forall s, In s (specialists (snd out)) -> s_id s = id ->
        stripe_subscription_id s = Some (r_id subscription)
        /\ subscription_status s = Some (r_status subscription)
        /\ billing_tier_id s = Some tierId
        /\ is_restricted s = false
        /\ restriction_reason s = None
        /\ restricted_at s = None)
  /\ (exists s, select_specialist id (snd out) = Some s
                /\ stripe_customer_id s = Some cid).
Proof.
  intros Hrow Htier Hcid Hattach Hupdate Hsub out.
  pose proof (select_specialist_id _ _ _ Hrow) as Hid.
  assert (Hkey : forall f : Specialist -> Specialist,
             (forall s, s_id (f s) = s_id s) ->
             forall s, (s_id (if s_id s =? id then f s else s) =? id)
                       = (s_id s =? id)).
  { intros f Hf s. destruct (s_id s =? id) eqn:E; [rewrite Hf|]; exact E. }
  subst out.
  remember (billingService.createSubscription svc id tierId pm w) as out
    eqn:Hout.
  unfold billingService.createSubscription in Hout.
  unfold bind at 1 in Hout. unfold get at 1 in Hout.
  rewrite Hrow, Htier in Hout.
  destruct w as [sp cs bt st sq be iv nw ob sl th].
  unfold select_specialist in *. cbn [specialists] in Hrow.
  destruct (truthy (stripe_customer_id row)) as [existing|] eqn:Etruthy.
  - subst cid. revert Hout. run_js. rewrite Hattach, Hupdate, Hsub.
    unfold billingService.clearRestrictions. run_js.
    cbn [fst snd specialists stripe_log now set_specialists set_stripe_log].
    intros ->.
    cbn [fst snd specialists stripe_log now set_specialists set_stripe_log].
    split; [reflexivity|].
    split; [rewrite <- !app_assoc; reflexivity|].
    split.
    + intros s Hin Hs.
      apply in_map_iff in Hin. destruct Hin as [s1 [<- Hin]].
      apply in_map_iff in Hin. destruct Hin as [s0 [<- Hin]].
      destruct (s_id s0 =? id) eqn:E0; cbn in Hs |- *.
      * rewrite E0. cbn. auto 10.
      * rewrite E0 in Hs |- *. apply Z.eqb_neq in E0. contradiction.
    + rewrite !find_map_same_key by (apply Hkey; reflexivity).
      rewrite Hrow. cbn [option_map].
      repeat (rewrite ?Hid, ?Z.eqb_refl; cbn [s_id set_restricted_at
        set_restriction_reason set_is_restricted set_subscription_start_date
        set_subscription_status set_stripe_subscription_id
        set_billing_tier_id set_stripe_customer_id]).
      eexists. split; [reflexivity|].
      cbn. apply truthy_Some. exact Etruthy.
  - destruct Hcid as [customer [Hcreate ->]].
    revert Hout. run_js. rewrite Hcreate.
    cbn [fst snd specialists stripe_log now set_specialists set_stripe_log].
    rewrite Hattach.
    cbn [fst snd specialists stripe_log now set_specialists set_stripe_log].
    rewrite Hupdate.
    cbn [fst snd specialists stripe_log now set_specialists set_stripe_log].
    rewrite Hsub.
    unfold billingService.clearRestrictions. run_js.
    cbn [fst snd specialists stripe_log now set_specialists set_stripe_log].
    intros ->.
    cbn [fst snd specialists stripe_log now set_specialists set_stripe_log].
    split; [reflexivity|].
    split; [rewrite <- !app_assoc; reflexivity|].
    split.
    + intros s Hin Hs.
      apply in_map_iff in Hin. destruct Hin as [s2 [<- Hin]].
      apply in_map_iff in Hin. destruct Hin as [s1 [<- Hin]].
      apply in_map_iff in Hin. destruct Hin as [s0 [<- Hin]].
      destruct (s_id s0 =? id) eqn:E0; cbn in Hs |- *.
      * rewrite E0. cbn. rewrite E0. cbn. auto 10.
      * rewrite E0 in Hs |- *. cbn in Hs |- *. rewrite E0 in Hs |- *.
        apply Z.eqb_neq in E0. contradiction.
    + rewrite !find_map_same_key by (apply Hkey; reflexivity).
      rewrite Hrow. cbn [option_map].
      repeat (rewrite ?Hid, ?Z.eqb_refl; cbn [s_id set_restricted_at
        set_restriction_reason set_is_restricted set_subscription_start_date
        set_subscription_status set_stripe_subscription_id
        set_billing_tier_id set_stripe_customer_id]).
      eexists. split; reflexivity.
Qed.

Lemma createSubscription_persists_witness :
  let out := billingService.createSubscription Sample.services 1
               "professional" "pm_1" (Sample.world "starter" true 3) in
  fst out
  = Ok (mkReply "sub_1" "trialing",
        mkTierConfig "professional" "Professional" 79
                     (Some "price_professional") 50)
  /\ stripe_log (snd out)
     = [ CustomersCreate "ada@example.com" "Ada" 1;
         PaymentMethodsAttach "pm_1" "cus_1";
         CustomersUpdate "cus_1" "pm_1";
         SubscriptionsCreate "cus_1" (Some "price_professional") 1
                             "professional" 14 ].
Proof.
  intros out.
  destruct (createSubscription_persists Sample.services
              (Sample.world "starter" true 3) 1 "professional" "pm_1"
              (Sample.ada "starter" true)
              (mkTierConfig "professional" "Professional" 79
                            (Some "price_professional") 50)
              "cus_1" (mkReply "sub_1" "trialing")
              (mkReply "ok" "ok") (mkReply "ok" "ok"))
    as [Hres [Hlog _]].
  - reflexivity.
  - reflexivity.
  - cbn. eexists. split; reflexivity.
  - reflexivity.
  - reflexivity.
  - reflexivity.
  - split; [exact Hres | exact Hlog].
Defined.

(** ** Smart archive *)

Lemma activity_le_total a b :
  activity_le a b = true \/ activity_le b a = true.
Proof.
  destruct a as [x|], b as [y|]; cbn; auto.
  destruct (Z.leb_spec x y); [left; reflexivity | right; apply Z.leb_le; lia].
Qed.

Lemma activity_le_trans a b c :
  activity_le a b = true -> activity_le b c = true -> activity_le a c = true.
Proof.
  destruct a as [x|], b as [y|], c as [z|]; cbn; try congruence.
  rewrite !Z.leb_le. lia.
Qed.

Lemma insert_by_activity_perm c l :
  Permutation (insert_by_activity c l) (c :: l).
Proof.
  induction l as [|d l IH]; cbn [insert_by_activity]; [reflexivity|].
  destruct (activity_le (last_activity c) (last_activity d)); [reflexivity|].
  rewrite IH. apply perm_swap.
Qed.

Lemma order_by_last_activity_perm l :
  Permutation (order_by_last_activity l) l.
Proof.
  induction l as [|c l IH]; cbn; [reflexivity|].
  rewrite insert_by_activity_perm. constructor. exact IH.
Qed.

Lemma insert_by_activity_sorted c l :
  StronglySorted less_active l ->
  StronglySorted less_active (insert_by_activity c l).
Proof.
  induction 1 as [|d l Hs IH Hd]; cbn [insert_by_activity].
  - repeat constructor.
  - destruct (activity_le (last_activity c) (last_activity d)) eqn:E.
    + constructor; [constructor; assumption|].
      constructor; [exact E|].
      eapply Forall_impl; [|exact Hd].
      intros e He. eapply activity_le_trans; [exact E | exact He].
    + constructor; [exact IH|].
      eapply Permutation_Forall;
        [symmetry; apply insert_by_activity_perm|].
      constructor; [|exact Hd].
      destruct (activity_le_total (last_activity c) (last_activity d));
        [congruence | assumption].
Qed.

Lemma order_by_last_activity_sorted l :
  StronglySorted less_active (order_by_last_activity l).
Proof.
  induction l as [|c l IH]; cbn; [constructor|].
  apply insert_by_activity_sorted. exact IH.
Qed.

Lemma StronglySorted_app_inv {A} (R : A -> A -> Prop) l1 l2 :
  StronglySorted R (l1 ++ l2) ->
  StronglySorted R l1
  /\ forall a b, In a l1 -> In b l2 -> R a b.
Proof.
  induction l1 as [|x l1 IH]; cbn; intros H.
  - split; [constructor | intros a b []].
  - inversion H as [|y l Hs Hx]; subst.
    destruct (IH Hs) as [Hs1 Hle]. split.
    + constructor; [exact Hs1|].
      apply Forall_forall. intros a Ha.
      rewrite Forall_forall in Hx. apply Hx. apply in_or_app. left. exact Ha.
    + intros a b [->|Ha] Hb.
      * rewrite Forall_forall in Hx. apply Hx. apply in_or_app. right. exact Hb.
      * apply Hle; assumption.
Qed.

(** The candidates: a sorted prefix of the eligible clients, of length
    at most [lim], before every eligible client left out. *)
Lemma select_candidates_spec id lim w :
  let eligible := filter (billingService.archive_candidate id (now w)) (clients w) in
  let candidates := billingService.select_candidates id lim w in
  (exists rest,
     Permutation eligible (candidates ++ rest)
     /\ forall c d, In c candidates -> In d rest -> less_active c d)
  /\ StronglySorted less_active candidates
  /\ List.length candidates = Nat.min (Z.to_nat lim) (List.length eligible)
  /\ (forall c, In c candidates -> In c (clients w)
                                   /\ billingService.archive_candidate id (now w) c = true).
Proof.
  intros eligible candidates. unfold candidates, billingService.select_candidates.
  fold eligible.
  pose proof (order_by_last_activity_sorted eligible) as Hsorted.
  pose proof (order_by_last_activity_perm eligible) as Hperm.
  rewrite <- (firstn_skipn (Z.to_nat lim) (order_by_last_activity eligible))
    in Hsorted.
  apply StronglySorted_app_inv in Hsorted. destruct Hsorted as [Hs Hle].
  split; [|split; [exact Hs|split]].
  - exists (skipn (Z.to_nat lim) (order_by_last_activity eligible)).
    split; [|exact Hle].
    rewrite firstn_skipn. symmetry. exact Hperm.
  - rewrite length_firstn. rewrite (Permutation_length Hperm). reflexivity.
  - intros c Hc.
    assert (Hin : In c (order_by_last_activity eligible)).
    { rewrite <- (firstn_skipn (Z.to_nat lim)). apply in_or_app. left.
      exact Hc. }
    apply (Permutation_in _ Hperm) in Hin. rename Hin into Hc'.
    clear Hc. rename Hc' into Hc.
    apply filter_In in Hc. exact Hc.
Qed.

Lemma find_restricted id l row :
  find (fun s => s_id s =? id) l = Some row ->
  is_restricted row = true ->
  find (fun s => (s_id s =? id) && is_restricted s) l = Some row.
Proof.
  intros Hfind Hres. induction l as [|s l IH]; cbn in *; [discriminate|].
  destruct (s_id s =? id).
  - injection Hfind as ->. rewrite Hres. reflexivity.
  - apply IH. exact Hfind.
Qed.

(** The scheduling loop of [smartArchiveClients]. *)
Lemma schedule_loop id cs w :
  exists w',
    for_of cs (fun client =>
      w' <- get ;;
      billingService.insert_scheduled_task "archive_client" (Some id)
        (Some (c_id client)) (now w' + days 7)
        (Some (mkPayload (Some "auto_archived_billing_limit")
                         None None None))) w
    = (Ok tt, w')
    /\ scheduled_tasks w'
       = scheduled_tasks w
           ++ scheduled_archives (scheduled_tasks_id_seq w) id
                                 (now w + days 7) cs
    /\ outbox w' = outbox w.
Proof.
  revert w. induction cs as [|c cs IH]; intros w; cbn [for_of].
  - exists w. cbn. rewrite app_nil_r. repeat split; reflexivity.
  - unfold bind at 1. unfold bind at 1. unfold get at 1.
    unfold billingService.insert_scheduled_task at 1. unfold modify at 1.
    match goal with
    | |- context [for_of cs ?body ?w1] =>
        destruct (IH w1) as [w' [Hrun [Htasks Hbox]]]
    end.
    exists w'. split; [exact Hrun|].
    rewrite Htasks, Hbox. destruct w; cbn. rewrite <- app_assoc.
    split; reflexivity.
Qed.

Lemma preserves_smartArchiveClients {A} (proj : World -> A) svc id :
  updates_framed proj -> ignores_outbox proj ->
  (forall l w, proj (set_scheduled_tasks l w) = proj w) ->
  (forall n w, proj (set_scheduled_tasks_id_seq n w) = proj w) ->
  preserves proj (billingService.smartArchiveClients svc id).
Proof.
  intros Hupd Hob Hst Hsq.
  unfold billingService.smartArchiveClients.
  frame using
    first [ apply preserves_notifyPendingArchive; assumption
          | intros w0; unfold billingService.insert_scheduled_task, modify;
            cbn [snd]; rewrite Hsq; apply Hst ].
Qed.

(** C6, as the code has it.  For a restricted account whose number of
    active clients exceeds a finite tier limit, [smartArchiveClients]
    selects among the account's active clients whose last activity is
    null or more than 90 days old: the candidates are sorted by last
    activity, nulls first and oldest first, come before every eligible
    client left out, and number the overage or all the eligible clients,
    whichever is less.  No client row is changed.  With no candidate the
    world is left as it was.  With candidates, the pending-archive
    message is handed to the email service; when it is accepted, one
    pending [archive_client] task per candidate is inserted, due seven
    days later; when it is rejected nothing is scheduled. *)
Theorem smartArchive_schedules_least_active svc w id row tier :
  select_specialist id w = Some row ->
  is_restricted row = true ->
  join_tier row w = Some tier ->
  bt_client_limit tier <> -1 ->
  bt_client_limit tier < count_active_clients id (clients w) ->
  let overage := count_active_clients id (clients w) - bt_client_limit tier in
  let eligible :=
    filter (billingService.archive_candidate id (now w)) (clients w) in
  let candidates := billingService.select_candidates id overage w in
  let msg := PendingArchive (s_email row) (s_name row)
               (map billingService.candidate_of candidates)
               (now w + days 7) in
  let out := billingService.smartArchiveClients svc id w in
  (exists rest,
     Permutation eligible (candidates ++ rest)
     /\ forall c d, In c candidates -> In d rest -> less_active c d)
  /\ StronglySorted less_active candidates
  /\ List.length candidates
     = Nat.min (Z.to_nat overage) (List.length eligible)
  /\ (forall c, In c candidates ->
        In c (clients w)
        /\ billingService.archive_candidate id (now w) c = true)
  /\ fst out = Ok tt
  /\ clients (snd out) = clients w
  /\ (candidates = [] -> snd out = w)
  /\ (candidates <> [] ->
      outbox (snd out) = outbox w ++ [msg]
      /\ (sendEmail svc msg = Ok tt ->
          scheduled_tasks (snd out)
          = scheduled_tasks w
              ++ scheduled_archives (scheduled_tasks_id_seq w) id
                                    (now w + days 7) candidates)
      /\ (forall e, sendEmail svc msg = Throw e ->
          scheduled_tasks (snd out) = scheduled_tasks w)).
Proof.
  intros Hrow Hres Htier Hfin Hover overage eligible candidates msg out.
  pose proof (select_specialist_id _ _ _ Hrow) as Hid.
  destruct (select_candidates_spec id overage w) as [Hsel [Hsort [Hlen Hin]]].
  split; [exact Hsel|]. split; [exact Hsort|]. split; [exact Hlen|].
  split; [exact Hin|]. clear Hsel Hsort Hlen Hin.
  assert (Hcl : clients (snd out) = clients w).
  { apply (preserves_smartArchiveClients clients); try framed;
      intros ? w0; destruct w0; reflexivity. }
  remember (billingService.smartArchiveClients svc id w) as o eqn:Ho.
  subst out. unfold billingService.smartArchiveClients in Ho.
  unfold try_catch, bind at 1, get at 1 in Ho.
  rewrite (find_restricted id (specialists w) row Hrow Hres), Htier in Ho.
  cbn [option_map not_unlimited toNumber] in Ho. rewrite Hid in Ho.
  replace (bt_client_limit tier =? -1) with false in Ho
    by (symmetry; apply Z.eqb_neq; exact Hfin).
  replace (bt_client_limit tier <? count_active_clients id (clients w))
    with true in Ho by (symmetry; apply Z.ltb_lt; exact Hover).
  cbn [negb andb] in Ho. fold overage in Ho. fold candidates in Ho.
  destruct candidates as [|c cs] eqn:Ecand.
  - cbn in Ho. subst o. cbn [fst snd].
    split; [reflexivity|]. split; [reflexivity|].
    split; [reflexivity|]. intros Hne. contradiction.
  - cbn [List.length] in Ho.
    replace (0 <? Z.of_nat (S (List.length cs))) with true in Ho
      by (symmetry; apply Z.ltb_lt; lia).
    unfold bind at 1 in Ho.
    unfold billingService.notifyPendingArchive in Ho.
    unfold bind at 1, get at 1 in Ho. rewrite Hrow in Ho.
    unfold billingService.send_email in Ho. fold msg in Ho.
    destruct (sendEmail svc msg) as [[]|e] eqn:Email.
    + destruct (schedule_loop id (c :: cs)
                  (set_outbox (outbox w ++ [msg]) w))
        as [w' [Hrun [Htasks Hbox]]].
      rewrite Hrun in Ho. subst o. cbn [fst snd] in *.
      split; [reflexivity|]. split; [exact Hcl|].
      split; [discriminate|]. intros _.
      split; [|split; [intros _|intros e He; discriminate]].
      * rewrite Hbox. destruct w; reflexivity.
      * rewrite Htasks. destruct w; reflexivity.
    + subst o. cbn [fst snd] in *.
      split; [reflexivity|]. split; [exact Hcl|].
      split; [discriminate|]. intros _.
      split; [destruct w; reflexivity|].
      split; [intros He; discriminate|].
      intros e' _. destruct w; reflexivity.
Qed.

Lemma smartArchive_schedules_witness :
  let out := billingService.smartArchiveClients Sample.services 1
               Sample.stale_world in
  map c_id (billingService.select_candidates 1 2 Sample.stale_world)
  = [12; 13]
  /\ clients (snd out) = clients Sample.stale_world
  /\ map (fun t => (t_client_id t, execute_at t, t_status t))
         (scheduled_tasks (snd out))
     = [ (Some 12, 100604800, pending); (Some 13, 100604800, pending) ].
Proof.
  intros out.
  destruct (smartArchive_schedules_least_active Sample.services
              Sample.stale_world 1 (Sample.ada "starter" true)
              (mkTier "starter" "Starter" 29 10))
    as [_ [_ [_ [_ [_ [Hclients [_ Hsched]]]]]]].
  - reflexivity.
  - reflexivity.
  - reflexivity.
  - cbn. lia.
  - vm_compute. reflexivity.
  - split; [reflexivity|]. split; [exact Hclients|].
    destruct Hsched as [_ [Htasks _]]; [vm_compute; discriminate|].
    unfold out. rewrite (Htasks eq_refl). reflexivity.
Defined.

(** C6 as worded fails on the code: a restricted account over its limit
    whose clients were all active within the last 90 days gets no
    candidate, no notification and no scheduled task; and when the email
    service rejects the pending-archive message, the candidates of an
    account are notified to nobody and nothing is scheduled. *)
Lemma smartArchive_recent_clients_counterexample :
  let w := Sample.world "starter" true 11 in
  let out := billingService.smartArchiveClients Sample.services 1 w in
  option_map is_restricted (select_specialist 1 w) = Some true
  /\ count_active_clients 1 (clients w) = 11
  /\ billingService.select_candidates 1 (11 - 10) w = []
  /\ outbox (snd out) = []
  /\ scheduled_tasks (snd out) = []
  /\ scheduled_tasks
       (snd (billingService.smartArchiveClients Sample.services_no_email 1
               Sample.stale_world)) = [].
Proof.
  vm_compute. repeat split; reflexivity.
Qed.

(** ** The starter-tier scenario *)

(** [enforceRestrictions] lets a request through when its path matches
    no restricted endpoint. *)
Lemma enforceRestrictions_pass req w row :
  select_specialist (user_id req) w = Some row ->
  (forall endpoint, In endpoint billingRestrictions.restrictedEndpoints ->
     match snd endpoint with
     | billingRestrictions.ActivateRegExp => activate_regexp_test (path req)
     | billingRestrictions.Exact p => String.eqb (path req) p
     end = false) ->
  exists req',
    billingRestrictions.enforceRestrictions req w = (Ok (Next req'), w)
    /\ user_id req' = user_id req
    /\ body_clientIds req' = body_clientIds req
    /\ body_reason req' = body_reason req.
Proof.
  intros Hrow Hpath.
  unfold billingRestrictions.enforceRestrictions. run_js. rewrite Hrow.
  destruct (is_restricted row); cbn [negb].
  - match goal with
    | |- context [existsb ?p ?l] =>
        replace (existsb p l) with false
    end.
    + eexists. split; [reflexivity|]. repeat split.
    + symmetry. apply not_true_is_false. intros Hex.
      apply existsb_exists in Hex. destruct Hex as [endpoint [Hin Hm]].
      unfold billingRestrictions.endpoint_matches in Hm.
      cbn [path set_billing] in Hm.
      rewrite (Hpath endpoint Hin), andb_false_r in Hm. discriminate.
  - eexists. split; [reflexivity|]. repeat split.
Qed.

(** Archiving one active client of an account, found by its unique id,
    lowers the number of active clients of the account by one. *)
Lemma count_after_archive id c reason at_time (l : list Client) :
  NoDup (map c_id l) ->
  In c l -> c_specialist_id c = id -> c_is_active c = true ->
  count_active_clients id
    (map (fun d => if existsb (Z.eqb (c_id d)) [c_id c]
                      && (c_specialist_id d =? id)
                   then archive_row reason at_time d else d) l)
  = count_active_clients id l - 1.
Proof.
  intros Hnd Hin Hown Hact. unfold count_active_clients.
  induction l as [|d l IH]; [contradiction|].
  cbn [map filter existsb]. rewrite orb_false_r.
  inversion Hnd as [|x xs Hnotin Hnd']; subst x xs.
  destruct Hin as [->|Hin].
  - assert (Hp : (c_id c =? c_id c) && (c_specialist_id c =? id) = true)
      by (rewrite Z.eqb_refl; apply andb_true_intro; split;
          [reflexivity | apply Z.eqb_eq; exact Hown]).
    rewrite Hp.
    cbn [archive_row c_specialist_id c_is_active]. rewrite andb_false_r.
    assert (Hq : (c_specialist_id c =? id) && c_is_active c = true)
      by (rewrite Hact; apply andb_true_intro; split;
          [apply Z.eqb_eq; exact Hown | reflexivity]).
    rewrite Hq. cbn [List.length].
    assert (Hrest : map (fun d => if ((c_id d =? c_id c) || false)
                                        && (c_specialist_id d =? id)
                                  then archive_row reason at_time d else d) l
                    = l).
    { rewrite <- (map_id l) at 2. apply map_ext_in. intros d Hd.
      destruct (c_id d =? c_id c) eqn:E; [|reflexivity].
      apply Z.eqb_eq in E. exfalso. apply Hnotin. rewrite <- E.
      apply in_map. exact Hd. }
    rewrite Hrest. lia.
  - assert (Hne : (c_id d =? c_id c) = false).
    { apply Z.eqb_neq. intros E. apply Hnotin. rewrite E.
      apply in_map. exact Hin. }
    rewrite Hne. cbn [orb andb].
    specialize (IH Hnd' Hin). cbn [existsb] in IH.
    destruct ((c_specialist_id d =? id) && c_is_active d);
      cbn [List.length]; lia.
Qed.

Lemma archive_path_unrestricted endpoint :
  In endpoint billingRestrictions.restrictedEndpoints ->
  match snd endpoint with
  | billingRestrictions.ActivateRegExp =>
      activate_regexp_test "/archive-clients"
  | billingRestrictions.Exact p => String.eqb "/archive-clients" p
  end = false.
Proof.
  cbn. intros [<-|[<-|[<-|[<-|[]]]]]; reflexivity.
Qed.

(** Every [POST] is answered by the limit middleware with 500: the
    service throws the error of its query, and the [catch] block answers
    [Internal server error]. *)
Lemma limit_middleware_POST svc req w :
  method req = "POST" ->
  billingRestrictions.checkClientLimits svc req w
  = (Ok (Respond billingRestrictions.internal_server_error), w).
Proof.
  intros Hmethod. unfold billingRestrictions.checkClientLimits.
  rewrite Hmethod. reflexivity.
Qed.

Lemma api_clients_POST svc req w :
  method req = "POST" ->
  server.api_clients svc "/api/clients" req w
  = (Ok (Respond billingRestrictions.internal_server_error), w).
Proof.
  intros Hmethod. unfold server.api_clients.
  change (mount_path "/api/clients" "/api/clients") with (Some "/").
  cbn [chain]. unfold bind at 1.
  rewrite limit_middleware_POST by exact Hmethod. reflexivity.
Qed.

(** [POST /archive-clients] archives the named clients of the account and
    then answers 500: the limit check after the [UPDATE] throws, and
    the [UPDATE] is not undone. *)
Lemma archive_clients_run svc req w row ids :
  path req = "/archive-clients" ->
  body_clientIds req = Some ids ->
  select_specialist (user_id req) w = Some row ->
  exists w',
    billingRoutes.archive_clients svc req w
    = (Ok (mkResponse 500 (JObj [("error", JStr "Failed to archive clients")])),
       w')
    /\ clients w'
       = map (fun d =>
                if existsb (Z.eqb (c_id d)) ids
                   && (c_specialist_id d =? user_id req)
                then archive_row
                       match body_reason req with
                       | Some r => r
                       | None => "manual_archive"
                       end (now w) d
                else d) (clients w).
Proof.
  intros Hpath Hids Hrow.
  unfold billingRoutes.archive_clients. unfold bind at 1.
  destruct (enforceRestrictions_pass req w row Hrow)
    as [req' [Hpass [Huser [Hsame Hreason]]]].
  { rewrite Hpath. apply archive_path_unrestricted. }
  rewrite Hpass.
  unfold billingRoutes.archive_clients_handler, try_catch.
  rewrite Hsame, Hids, Hreason, Huser.
  unfold bind at 1. unfold get at 1. unfold bind at 1.
  match goal with
  | |- context [update_clients ?p ?f w] =>
      pose proof (update_clients_clients p f w) as Hcl;
      pose proof (update_clients_result p f w) as Hres;
      destruct (update_clients p f w) as [[rows|e] w1]
  end; cbn [fst snd] in *; [|discriminate].
  unfold bind at 1. rewrite checkClientLimits_throws.
  exists w1. split; [reflexivity | exact Hcl].
Qed.

(** C3, on the code.  An account on the starter tier (limit 10) has
    exactly 10 active clients.  A [POST /api/clients] is answered by the
    billing middleware with 500 [Internal server error], a body without
    [upgrade_url], and not with 403: the limit check throws.  A
    [POST /archive-clients] for one of the account's active clients
    archives it, leaving 9 active clients, and is answered 500 as well.
    The next [POST /api/clients] is answered 500 again: it does not
    reach the client routes. *)
Theorem starter_limit_create_answers_500 svc w id row tier c create archive :
  select_specialist id w = Some row ->
  billing_tier_id row = Some "starter" ->
  join_tier row w = Some tier ->
  bt_client_limit tier = 10 ->
  count_active_clients id (clients w) = 10 ->
  NoDup (map c_id (clients w)) ->
  In c (clients w) -> c_specialist_id c = id -> c_is_active c = true ->
  method create = "POST" -> user_id create = id ->
  path archive = "/archive-clients" -> user_id archive = id ->
  body_clientIds archive = Some [c_id c] ->
  let step1 := server.api_clients svc "/api/clients" create w in
  let step2 := billingRoutes.archive_clients svc archive (snd step1) in
  let step3 := server.api_clients svc "/api/clients" create (snd step2) in
  (exists res,
     step1 = (Ok (Respond res), w)
     /\ status res = 500
     /\ has_key "upgrade_url" (body res) = false)
  /\ (exists res, fst step2 = Ok res /\ status res = 500)
  /\ count_active_clients id (clients (snd step2)) = 9
  /\ (exists res,
        fst step3 = Ok (Respond res)
        /\ status res = 500
        /\ has_key "upgrade_url" (body res) = false).
Proof.
  intros Hrow _ _ _ Hcount Hnd Hin Hown Hact
         Hmethod _ Hpath Huser' Hids step1 step2 step3.
  assert (Hstep1 : step1
                   = (Ok (Respond billingRestrictions.internal_server_error), w))
    by (apply api_clients_POST; exact Hmethod).
  split.
  { eexists. split; [exact Hstep1|]. split; reflexivity. }
  destruct (archive_clients_run svc archive (snd step1) row [c_id c]
              Hpath Hids) as [w2 [Hstep2 Hcl2]].
  { rewrite Hstep1, Huser'. exact Hrow. }
  fold step2 in Hstep2.
  split.
  { eexists. rewrite Hstep2. split; reflexivity. }
  split.
  { rewrite Hstep2. cbn [snd]. rewrite Hcl2, Huser', Hstep1. cbn [snd].
    rewrite (count_after_archive id c _ _ (clients w) Hnd Hin Hown Hact).
    lia. }
  eexists. subst step3. rewrite api_clients_POST by exact Hmethod.
  split; [reflexivity|]. split; reflexivity.
Qed.

Lemma starter_limit_create_answers_500_witness :
  let create := mkRequest "POST" "/api/clients" 1 None None None in
  let archive := mkRequest "POST" "/archive-clients" 1 (Some [3]) None None in
  let step1 := server.api_clients Sample.services "/api/clients" create
                 (Sample.world "starter" false 10) in
  let step2 := billingRoutes.archive_clients Sample.services archive
                 (snd step1) in
  let step3 := server.api_clients Sample.services "/api/clients" create
                 (snd step2) in
  fst step1 = Ok (Respond billingRestrictions.internal_server_error)
  /\ count_active_clients 1 (clients (snd step2)) = 9
  /\ fst step3 = Ok (Respond billingRestrictions.internal_server_error).
Proof.
  intros create archive step1 step2 step3.
  destruct (starter_limit_create_answers_500 Sample.services
              (Sample.world "starter" false 10) 1
              (Sample.ada "starter" false)
              (mkTier "starter" "Starter" 29 10)
              (Sample.client 3 (Some 99999000)) create archive)
    as [_ [_ [Hcount _]]].
  - reflexivity.
  - reflexivity.
  - reflexivity.
  - reflexivity.
  - reflexivity.
  - vm_compute. repeat (constructor; [cbn; intuition discriminate|]).
    constructor.
  - vm_compute. tauto.
  - reflexivity.
  - reflexivity.
  - reflexivity.
  - reflexivity.
  - reflexivity.
  - reflexivity.
  - reflexivity.
  - split; [reflexivity|]. split; [exact Hcount | reflexivity].
Defined.

(** ** The scheduled sweep *)

Section TaskFrames.

Context {A : Type} (proj : World -> A).

Hypothesis Hupd : updates_framed proj.
Hypothesis Hob : ignores_outbox proj.
Hypothesis Hrc : recompute_framed proj.
Hypothesis Hcs : ignores_clients proj.
Hypothesis Hsl : ignores_stripe_log proj.

Lemma preserves_stripe svc call :
  preserves proj (billingService.stripe svc call).
Proof. intros w. apply Hsl. Qed.

Lemma preserves_archiveClient svc task :
  preserves proj (scheduledTasks.archiveClient svc task).
Proof.
  unfold scheduledTasks.archiveClient.
  frame using
    first [ apply preserves_update_clients; assumption
          | apply preserves_checkClientLimits; assumption ].
Qed.

Lemma preserves_sendLimitWarning svc task :
  preserves proj (scheduledTasks.sendLimitWarning svc task).
Proof.
  unfold scheduledTasks.sendLimitWarning.
  frame using (apply preserves_notifyApproachingLimit; assumption).
Qed.

Lemma preserves_retryPayment svc task :
  preserves proj (scheduledTasks.retryPayment svc task).
Proof.
  unfold scheduledTasks.retryPayment.
  frame using apply preserves_stripe.
Qed.

(** The task actions write specialists, clients, the outbox and the
    Stripe log; they leave the rest of the world alone. *)
Lemma preserves_run_task_action svc task :
  preserves proj (scheduledTasks.run_task_action svc task).
Proof.
  unfold scheduledTasks.run_task_action.
  frame using
    first [ apply preserves_archiveClient
          | apply preserves_sendLimitWarning
          | apply preserves_retryPayment ].
Qed.

End TaskFrames.

Lemma run_task_action_frame svc task w :
  let w' := snd (scheduledTasks.run_task_action svc task w) in
  scheduled_tasks w' = scheduled_tasks w
  /\ task_history w' = task_history w
  /\ now w' = now w.
Proof.
  cbv zeta.
  split; [|split]; apply preserves_run_task_action; framed.
Qed.

Lemma filter_map_task_id id (g : ScheduledTask -> ScheduledTask) l :
  (forall t, t_id (g t) = t_id t) ->
  filter (fun t => t_id t =? id) (map g l)
  = map g (filter (fun t => t_id t =? id) l).
Proof.
  intros Hg. induction l as [|t l IH]; cbn; [reflexivity|].
  rewrite Hg. destruct (t_id t =? id); cbn; rewrite IH; reflexivity.
Qed.

(** The rows of the queue that an [UPDATE ... WHERE id = $n] rewrites,
    as entries of the write history. *)
Lemma history_entries_after_update id st st' n r l :
  map (fun t => (t_id t, st'))
      (filter (fun t => t_id t =? id)
              (map (fun t => if t_id t =? id then set_task_status st t else t) l))
  = map (fun t => (t_id t, st')) (filter (fun t => t_id t =? id) l)
  /\ map (fun t => if t_id t =? id then set_task_outcome st' n r t else t)
         (map (fun t => if t_id t =? id then set_task_status st t else t) l)
     = map (fun t => if t_id t =? id then set_task_outcome st' n r t else t) l.
Proof.
  split.
  - rewrite filter_map_task_id
      by (intros t; destruct (t_id t =? id); reflexivity).
    rewrite map_map. apply map_ext. intros t.
    destruct (t_id t =? id); reflexivity.
  - rewrite map_map. apply map_ext. intros t.
    destruct (t_id t =? id) eqn:E; cbn; rewrite ?E; reflexivity.
Qed.

(** One task through [executeTask]: the call returns, the status
    [processing] is written, then [completed] with the result of the
    action or [failed] with the error message, on the rows of that task
    only. *)
Lemma executeTask_run svc task w :
  exists st r w',
    scheduledTasks.executeTask svc task w = (Ok tt, w')
    /\ (st = completed \/ st = failed)
    /\ outcome_recorded st r
    /\ scheduled_tasks w'
       = map (fun t => if t_id t =? t_id task
                       then set_task_outcome st (now w) r t else t)
             (scheduled_tasks w)
    /\ task_history w'
       = task_history w
           ++ map (fun t => (t_id t, processing))
                  (filter (fun t => t_id t =? t_id task) (scheduled_tasks w))
           ++ map (fun t => (t_id t, st))
                  (filter (fun t => t_id t =? t_id task) (scheduled_tasks w))
    /\ now w' = now w.
Proof.
  unfold scheduledTasks.executeTask, try_catch.
  unfold bind at 1. unfold scheduledTasks.update_task at 1, modify at 1.
  unfold bind at 1.
  match goal with
  | |- context [scheduledTasks.run_task_action svc task ?w1] =>
      destruct (run_task_action_frame svc task w1) as [Hst [Hth Hnow]];
      destruct (scheduledTasks.run_task_action svc task w1)
        as [[result|failure] w2]
  end; cbn [snd] in Hst, Hth, Hnow.
  - exists completed, (ResultInfo result). eexists. unfold bind, get.
    unfold scheduledTasks.update_task, modify.
    split; [reflexivity|]. split; [left; reflexivity|].
    split; [exact I|].
    destruct w; cbn in *. rewrite Hst, Hth, Hnow.
    destruct (history_entries_after_update (t_id task) processing completed
                now0 (ResultInfo result) scheduled_tasks0) as [-> ->].
    rewrite <- app_assoc. repeat split; reflexivity.
  - exists failed, (ResultError failure). eexists. unfold bind, get.
    unfold scheduledTasks.update_task, modify.
    split; [reflexivity|]. split; [right; reflexivity|].
    split; [exact I|].
    destruct w; cbn in *. rewrite Hst, Hth, Hnow.
    destruct (history_entries_after_update (t_id task) processing failed
                now0 (ResultError failure) scheduled_tasks0) as [-> ->].
    rewrite <- app_assoc. repeat split; reflexivity.
Qed.

Lemma filter_none {A} (p : A -> bool) l :
  (forall a, In a l -> p a = false) -> filter p l = [].
Proof.
  induction l as [|a l IH]; intros H; cbn; [reflexivity|].
  rewrite (H a (or_introl eq_refl)). apply IH.
  intros b Hb. apply H. right. exact Hb.
Qed.

Lemma filter_unique_id (t : ScheduledTask) l :
  NoDup (map t_id l) -> In t l ->
  filter (fun u => t_id u =? t_id t) l = [t].
Proof.
  intros Hnd Hin. induction l as [|u l IH]; [contradiction|].
  inversion Hnd as [|x xs Hnotin Hnd']; subst x xs. cbn [filter].
  destruct Hin as [->|Hin].
  - rewrite Z.eqb_refl. f_equal. apply filter_none.
    intros v Hv. apply Z.eqb_neq. intros E. apply Hnotin. rewrite <- E.
    apply in_map. exact Hv.
  - replace (t_id u =? t_id t) with false; [apply IH; assumption|].
    symmetry. apply Z.eqb_neq. intros E. apply Hnotin. rewrite E.
    apply in_map. exact Hin.
Qed.

Lemma NoDup_map_filter {A B} (f : A -> B) (p : A -> bool) l :
  NoDup (map f l) -> NoDup (map f (filter p l)).
Proof.
  induction l as [|a l IH]; cbn; intros H; [constructor|].
  inversion H as [|x xs Hnotin Hnd]; subst x xs.
  destruct (p a); cbn; [constructor|]; auto.
  intros Hin. apply Hnotin. apply in_map_iff in Hin.
  destruct Hin as [b [Hb Hin]]. apply filter_In in Hin.
  rewrite <- Hb. apply in_map. apply Hin.
Qed.

Lemma insert_by_execute_at_perm t l :
  Permutation (scheduledTasks.insert_by_execute_at t l) (t :: l).
Proof.
  induction l as [|u l IH]; cbn [scheduledTasks.insert_by_execute_at];
    [reflexivity|].
  destruct (execute_at t <=? execute_at u); [reflexivity|].
  rewrite IH. apply perm_swap.
Qed.

Lemma order_by_execute_at_perm l :
  Permutation (scheduledTasks.order_by_execute_at l) l.
Proof.
  induction l as [|t l IH]; cbn; [reflexivity|].
  rewrite insert_by_execute_at_perm. constructor. exact IH.
Qed.

(** The batch of a sweep: rows of the queue, pending and due, with
    pairwise distinct ids, at most ten of them. *)
Lemma due_pending_tasks_spec w :
  NoDup (map t_id (scheduled_tasks w)) ->
  NoDup (map t_id (scheduledTasks.due_pending_tasks w))
  /\ (List.length (scheduledTasks.due_pending_tasks w) <= 10)%nat
  /\ forall t, In t (scheduledTasks.due_pending_tasks w) ->
       In t (scheduled_tasks w)
       /\ t_status t = pending
       /\ execute_at t <= now w.
Proof.
  intros Hnd. unfold scheduledTasks.due_pending_tasks.
  set (due := filter _ (scheduled_tasks w)).
  pose proof (order_by_execute_at_perm due) as Hperm.
  split; [|split].
  - apply (NoDup_app_remove_r _
             (map t_id (skipn 10 (scheduledTasks.order_by_execute_at due)))).
    rewrite <- map_app, firstn_skipn.
    apply (Permutation_NoDup (Permutation_map t_id (Permutation_sym Hperm))).
    apply NoDup_map_filter. exact Hnd.
  - apply firstn_le_length.
  - intros t Hin.
    assert (Hin' : In t (scheduledTasks.order_by_execute_at due)).
    { rewrite <- (firstn_skipn 10). apply in_or_app. left. exact Hin. }
    apply (Permutation_in _ Hperm) in Hin'. apply filter_In in Hin'.
    destruct Hin' as [Htbl Hp]. apply andb_prop in Hp.
    destruct Hp as [Hpend Hdue].
    split; [exact Htbl|]. split; [|apply Z.leb_le; exact Hdue].
    destruct (t_status t); cbn in Hpend; congruence.
Qed.

Lemma writes_of_app id h1 h2 :
  writes_of id (h1 ++ h2) = writes_of id h1 ++ writes_of id h2.
Proof. unfold writes_of. rewrite filter_app, map_app. reflexivity. Qed.

(** The loop of [runPendingTasks] over tasks of the queue with distinct
    ids: it returns; every task of the list gets [processing] and then
    one final status written, and ends with that status and its result;
    the rows of other tasks are untouched. *)
Lemma sweep_loop svc ts :
  forall w,
    NoDup (map t_id (scheduled_tasks w)) ->
    NoDup (map t_id ts) ->
    (forall t, In t ts -> In t (scheduled_tasks w)) ->
    exists w' hist,
      for_of ts (scheduledTasks.executeTask svc) w = (Ok tt, w')
      /\ task_history w' = task_history w ++ hist
      /\ now w' = now w
      /\ map t_id (scheduled_tasks w') = map t_id (scheduled_tasks w)
      /\ (forall t, In t (scheduled_tasks w) -> ~ In (t_id t) (map t_id ts) ->
                    In t (scheduled_tasks w'))
      /\ (forall id, ~ In id (map t_id ts) -> writes_of id hist = [])
      /\ (forall t, In t ts ->
            exists st r,
              (st = completed \/ st = failed)
              /\ outcome_recorded st r
              /\ writes_of (t_id t) hist = [processing; st]
              /\ In (set_task_outcome st (now w) r t) (scheduled_tasks w')).
Proof.
  induction ts as [|t ts IH]; intros w Hnd Hts Hin.
  - exists w, []. cbn [for_of]. rewrite app_nil_r.
    repeat split; auto. intros t [].
  - cbn [for_of]. unfold bind.
    destruct (executeTask_run svc t w)
      as [st [r [w1 [Hrun [Hst [Hrec [Htbl [Hhist Hnow]]]]]]]].
    rewrite Hrun.
    inversion Hts as [|x xs Hnotin Hts']; subst x xs.
    assert (Ht : In t (scheduled_tasks w)) by (apply Hin; left; reflexivity).
    rewrite (filter_unique_id t (scheduled_tasks w) Hnd Ht) in Hhist.
    cbn [map app] in Hhist.
    assert (Hids : map t_id (scheduled_tasks w1) = map t_id (scheduled_tasks w)).
    { rewrite Htbl, map_map. apply map_ext. intros u.
      destruct (t_id u =? t_id t); reflexivity. }
    assert (Hkeep : forall u, In u (scheduled_tasks w) -> t_id u <> t_id t ->
                              In u (scheduled_tasks w1)).
    { intros u Hu Hne. rewrite Htbl. apply in_map_iff. exists u.
      split; [|exact Hu].
      replace (t_id u =? t_id t) with false; [reflexivity|].
      symmetry. apply Z.eqb_neq. exact Hne. }
    destruct (IH w1) as [w' [hist [Hloop [Hh [Hn [Hi [Hun [Hnone Hall]]]]]]]].
    { rewrite Hids. exact Hnd. }
    { exact Hts'. }
    { intros u Hu. apply Hkeep; [apply Hin; right; exact Hu|].
      intros E. apply Hnotin. rewrite <- E. apply in_map. exact Hu. }
    exists w', ([(t_id t, processing); (t_id t, st)] ++ hist).
    split; [exact Hloop|].
    split; [rewrite Hh, Hhist, <- app_assoc; reflexivity|].
    split; [rewrite Hn; exact Hnow|].
    split; [rewrite Hi; exact Hids|].
    split; [|split].
    + intros u Hu Hnot. apply Hun.
      * apply Hkeep; [exact Hu|]. intros E. apply Hnot. left. symmetry. exact E.
      * intros Hin'. apply Hnot. right. exact Hin'.
    + intros id Hnot. rewrite writes_of_app. rewrite Hnone.
      * unfold writes_of. cbn [filter fst].
        replace (t_id t =? id) with false; [reflexivity|].
        symmetry. apply Z.eqb_neq. intros E. apply Hnot. left. exact E.
      * intros Hin'. apply Hnot. right. exact Hin'.
    + intros u [<-|Hu].
      * exists st, r. split; [exact Hst|]. split; [exact Hrec|].
        rewrite writes_of_app, (Hnone (t_id t) Hnotin).
        split.
        -- unfold writes_of. cbn [filter fst]. rewrite Z.eqb_refl.
           reflexivity.
        -- apply Hun; [|exact Hnotin].
           rewrite Htbl. apply in_map_iff. exists t.
           rewrite Z.eqb_refl. split; [reflexivity | exact Ht].
      * destruct (Hall u Hu) as [st' [r' [Hst' [Hrec' [Hw' Hin']]]]].
        exists st', r'. split; [exact Hst'|]. split; [exact Hrec'|].
        assert (Hne : t_id t <> t_id u).
        { intros E. apply Hnotin. rewrite E. apply in_map. exact Hu. }
        split.
        -- rewrite writes_of_app, Hw'. unfold writes_of. cbn [filter fst].
           replace (t_id t =? t_id u) with false; [reflexivity|].
           symmetry. apply Z.eqb_neq. exact Hne.
        -- rewrite <- Hnow. exact Hin'.
Qed.



(* ================================================================== *)
(** * Further properties of the billing code *)

(** ** [checkClientLimits]: what one call does *)

(** X1.  [checkClientLimits] writes the specialists table by its
    restricting update only: every row is kept, untouched or marked
    [client_limit_exceeded].  So it never lifts a restriction: an
    account that was restricted, for whatever reason, is restricted
    after the call, also when its count is below the limit. *)
Theorem checkClientLimits_never_lifts svc id w :
  Forall2
    (fun s s' =>
       (s' = s \/ s' = mark_limit_exceeded (now w) s)
       /\ (is_restricted s = true -> is_restricted s' = true))
    (specialists w)
    (specialists (snd (billingService.checkClientLimits svc id w))).
Proof.
  rewrite checkClientLimits_throws. cbn [snd].
  induction (specialists w); constructor; auto.
Qed.

Lemma checkClientLimits_never_lifts_witness :
  let w := Sample.world "enterprise" true 3 in
  Forall2
    (fun s s' =>
       (s' = s \/ s' = mark_limit_exceeded (now w) s)
       /\ (is_restricted s = true -> is_restricted s' = true))
    (specialists w)
    (specialists (snd (billingService.checkClientLimits Sample.services 1 w))).
Proof. intros w. apply checkClientLimits_never_lifts. Defined.

(** ** [getNextTier] *)

Lemma indexOf_absent x l i :
  (forall t, In t l -> x <> Some t) ->
  billingService.indexOf x l i = -1.
Proof.
  revert i. induction l as [|y l IH]; intros i H; cbn; [reflexivity|].
  destruct (opt_string_eqb x y) eqn:E.
  - apply opt_string_eqb_spec in E. exfalso. apply (H y); [left|]; auto.
  - apply IH. intros t Ht. apply H. right. exact Ht.
Qed.

(** X5.  [getNextTier] gives the tier that follows in the order starter,
    professional, scale, enterprise, and null after enterprise.  For an
    id that is no tier, and for null, [indexOf] is -1 and the answer is
    the first tier, starter. *)
Theorem getNextTier_spec svc :
  billingService.getNextTier svc (Some "starter") = Some "professional"
  /\ billingService.getNextTier svc (Some "professional") = Some "scale"
  /\ billingService.getNextTier svc (Some "scale") = Some "enterprise"
  /\ billingService.getNextTier svc (Some "enterprise") = None
  /\ (forall x,
        (forall t, In t ["starter"; "professional"; "scale"; "enterprise"] ->
                   x <> Some t) ->
        billingService.getNextTier svc x = Some "starter").
Proof.
  repeat (split; [reflexivity|]).
  intros x Hx. unfold billingService.getNextTier.
  cbn [map billingService.BILLING_TIERS_entries tc_id].
  rewrite (indexOf_absent x _ 0 Hx). reflexivity.
Qed.

Lemma getNextTier_spec_witness :
  billingService.getNextTier Sample.services (Some "gold") = Some "starter".
Proof.
  destruct (getNextTier_spec Sample.services) as [_ [_ [_ [_ H]]]].
  apply H. cbn. intros t [<-|[<-|[<-|[<-|[]]]]]; discriminate.
Defined.

(** ** [createSubscription]: failures *)

(** X6.  [createSubscription] validates before it acts: for an unknown
    specialist it throws [Specialist not found]; for a tier id that is
    no key of [BILLING_TIERS] and no property name inherited from
    [Object.prototype] (for [toString], [constructor] and the like the
    lookup is truthy and the guard does not fire) it throws
    [Invalid tier].  In both cases no request reaches Stripe and the
    world is as before. *)
Theorem createSubscription_rejects svc id tierId pm w :
  (select_specialist id w = None ->
   billingService.createSubscription svc id tierId pm w
   = (Throw "Specialist not found", w))
  /\ (forall row,
        select_specialist id w = Some row ->
        billingService.BILLING_TIERS svc tierId = None ->
        ~ In tierId billingService.Object_prototype_names ->
        billingService.createSubscription svc id tierId pm w
        = (Throw "Invalid tier", w)).
Proof.
  split.
  - intros Hnone. unfold billingService.createSubscription.
    unfold bind at 1. unfold get at 1. rewrite Hnone. reflexivity.
  - intros row Hrow Htier _. unfold billingService.createSubscription.
    unfold bind at 1. unfold get at 1. rewrite Hrow, Htier. reflexivity.
Qed.

Lemma createSubscription_rejects_witness :
  billingService.createSubscription Sample.services 1 "platinum" "pm_1"
    (Sample.world "starter" false 3)
  = (Throw "Invalid tier", Sample.world "starter" false 3).
Proof.
  destruct (createSubscription_rejects Sample.services 1 "platinum" "pm_1"
              (Sample.world "starter" false 3)) as [_ H].
  apply (H (Sample.ada "starter" false)); [reflexivity | reflexivity |].
  cbn. intuition discriminate.
Defined.

(** X7.  [createSubscription] runs outside a transaction.  When the
    account has no Stripe customer yet, the customer is created and its
    id stored, and then [subscriptions.create] fails, the error
    propagates and the account row keeps the new customer id while its
    tier, subscription and restriction columns are what they were; no
    client row changes. *)
Theorem createSubscription_partial_failure svc id tierId pm w row tier
    customer attached updated e :
  select_specialist id w = Some row ->
  billingService.BILLING_TIERS svc tierId = Some tier ->
  truthy (stripe_customer_id row) = None ->
  stripe_request svc (CustomersCreate (s_email row) (s_name row) id)
  = Ok customer ->
  stripe_request svc (PaymentMethodsAttach pm (r_id customer)) = Ok attached ->
  stripe_request svc (CustomersUpdate (r_id customer) pm) = Ok updated ->
  stripe_request svc
    (SubscriptionsCreate (r_id customer) (tc_priceId tier) id tierId 14)
  = Throw e ->
  let out := billingService.createSubscription svc id tierId pm w in
  fst out = Throw e
  /\ select_specialist id (snd out)
     = Some (set_stripe_customer_id (Some (r_id customer)) row)
  /\ clients (snd out) = clients w.
Proof.
  intros Hrow Htier Hnone Hcreate Hattach Hupdate Hsub out.
  pose proof (select_specialist_id _ _ _ Hrow) as Hid.
  subst out.
  remember (billingService.createSubscription svc id tierId pm w) as out
    eqn:Hout.
  unfold billingService.createSubscription in Hout.
  unfold bind at 1 in Hout. unfold get at 1 in Hout.
  rewrite Hrow, Htier, Hnone in Hout.
  revert Hout. run_js. rewrite Hcreate.
  cbn [fst snd specialists stripe_log now set_specialists set_stripe_log].
  rewrite Hattach.
  cbn [fst snd specialists stripe_log now set_specialists set_stripe_log].
  rewrite Hupdate.
  cbn [fst snd specialists stripe_log now set_specialists set_stripe_log].
  rewrite Hsub. intros ->. cbn [fst snd].
  split; [reflexivity|]. split; [|reflexivity].
  unfold select_specialist in *.
  destruct w as [sp cs bt st sq be iv nw ob sl th].
  cbn [specialists set_specialists set_stripe_log] in *.
  rewrite find_map_same_key.
  - rewrite Hrow. cbn [option_map]. rewrite Hid, Z.eqb_refl. reflexivity.
  - intros s. destruct (s_id s =? id) eqn:E; cbn; rewrite ?E; reflexivity.
Qed.

Lemma createSubscription_partial_failure_witness :
  let out := billingService.createSubscription
               Sample2.services_no_subscription 1 "scale" "pm_1"
               (Sample.world "starter" true 3) in
  fst out = Throw "card_declined"
  /\ select_specialist 1 (snd out)
     = Some (set_stripe_customer_id (Some "cus_1")
               (Sample.ada "starter" true)).
Proof.
  intros out.
  destruct (createSubscription_partial_failure
              Sample2.services_no_subscription 1 "scale" "pm_1"
              (Sample.world "starter" true 3) (Sample.ada "starter" true)
              (mkTierConfig "scale" "Scale" 149 (Some "price_scale") 150)
              (mkReply "cus_1" "active") (mkReply "ok" "ok")
              (mkReply "ok" "ok") "card_declined")
    as [Hres [Hrow _]]; try reflexivity.
  split; [exact Hres | exact Hrow].
Defined.

(** ** Updates of clients that keep the activity *)

Lemma triggers_idle (f : Client -> Client) touched w :
  (forall c, In c touched -> c_is_active (f c) = c_is_active c) ->
  fold_left (fun acc o => update_client_count UPDATE (Some o) (f o) acc)
            touched w
  = w.
Proof.
  revert w. induction touched as [|o l IH]; intros w H; cbn [fold_left];
    [reflexivity|].
  unfold update_client_count at 2. cbn [recompute_needed].
  rewrite (H o (or_introl eq_refl)), Bool.eqb_reflx. cbn [negb].
  apply IH. intros c Hc. apply H. right. exact Hc.
Qed.

(** The trigger does not recompute for rows whose [is_active] an
    [UPDATE] leaves as it was: such a statement rewrites the clients
    table and nothing else. *)
Lemma update_without_activity_change p f w :
  (forall c, In c (clients w) -> p c = true ->
             c_is_active (f c) = c_is_active c) ->
  update_clients p f w
  = (Ok (map f (filter p (clients w))),
     set_clients (map (fun c => if p c then f c else c) (clients w)) w).
Proof.
  intros H. unfold update_clients. rewrite triggers_idle; [reflexivity|].
  intros c Hc. apply filter_In in Hc. destruct Hc as [Hin Hp].
  apply H; assumption.
Qed.

(** ** Data retention *)

(** X8.  [enforceDataRetention] deletes no client row and writes
    nothing but [marked_for_cleanup]: the clients table keeps its rows
    in order, each row unchanged or marked, and the specialists table is
    untouched.  A row is marked exactly when its specialist id is the
    id of a specialist whose subscription status is [canceled] and whose
    cancellation date is more than 90 days back; clients of an account
    canceled more recently, or not canceled, are never marked. *)
Theorem enforceDataRetention_marks_only w :
  let out := enforceDataRetention w in
  let due c :=
    existsb (fun s => (s_id s =? c_specialist_id c) && long_canceled (now w) s)
            (specialists w) in
  fst out = Ok tt
  /\ specialists (snd out) = specialists w
  /\ clients (snd out)
     = map (fun c => if due c then set_marked_for_cleanup true c else c)
           (clients w)
  /\ Forall2 (fun c c' =>
                (c' = c \/ c' = set_marked_for_cleanup true c)
                /\ (c' <> c ->
                    exists s, In s (specialists w)
                              /\ s_id s = c_specialist_id c
                              /\ subscription_status s = Some "canceled"
                              /\ exists d, cancellation_date s = Some d
                                           /\ d < now w - days 90))
             (clients w) (clients (snd out)).
Proof.
  intros out due.
  assert (Hout : out
                 = (Ok tt,
                    set_clients
                      (map (fun c => if due c then set_marked_for_cleanup true c
                                     else c) (clients w)) w)).
  { subst out. unfold enforceDataRetention.
    unfold bind at 1. unfold get at 1. unfold bind at 1.
    rewrite update_without_activity_change by (intros c _ _; reflexivity).
    reflexivity. }
  rewrite Hout. cbn [fst snd].
  split; [reflexivity|]. split; [reflexivity|].
  split; [reflexivity|].
  change (clients (set_clients _ w))
    with (map (fun c => if due c then set_marked_for_cleanup true c else c)
              (clients w)).
  apply Forall2_map_self. intros c. destruct (due c) eqn:E.
  - split; [right; reflexivity|]. intros _.
    unfold due in E. apply existsb_exists in E. destruct E as [s [Hin Hs]].
    apply andb_prop in Hs. destruct Hs as [Hid Hlong].
    unfold long_canceled in Hlong. apply andb_prop in Hlong.
    destruct Hlong as [Hst Hdate].
    exists s. split; [exact Hin|]. split; [apply Z.eqb_eq; exact Hid|].
    split; [apply opt_string_eqb_spec; exact Hst|].
    destruct (cancellation_date s) as [d|]; [|discriminate].
    exists d. split; [reflexivity | apply Z.ltb_lt; exact Hdate].
  - split; [left; reflexivity|]. intros Hne. contradiction.
Qed.

Lemma enforceDataRetention_marks_only_witness :
  map marked_for_cleanup
      (clients (snd (enforceDataRetention (Sample2.retention_world 0))))
  = [true; true; false; false].
Proof.
  destruct (enforceDataRetention_marks_only (Sample2.retention_world 0))
    as [_ [_ [Hclients _]]].
  rewrite Hclients. reflexivity.
Defined.

(** ** Smart archive: what it never does, and running it twice *)

Lemma try_catch_swallow (m : M unit) w :
  fst (try_catch m (fun _ => ret tt) w) = Ok tt.
Proof.
  unfold try_catch. destruct (m w) as [[[]|e] w']; reflexivity.
Qed.

Lemma find_none_all {A} (p : A -> bool) l :
  (forall a, In a l -> p a = false) -> find p l = None.
Proof.
  induction l as [|a l IH]; intros H; cbn; [reflexivity|].
  rewrite (H a (or_introl eq_refl)). apply IH.
  intros b Hb. apply H. right. exact Hb.
Qed.

Lemma smartArchiveClients_writes {A} (proj : World -> A) svc id :
  ignores_outbox proj ->
  (forall l w, proj (set_scheduled_tasks l w) = proj w) ->
  (forall n w, proj (set_scheduled_tasks_id_seq n w) = proj w) ->
  preserves proj (billingService.smartArchiveClients svc id).
Proof.
  intros Hob Hst Hsq.
  unfold billingService.smartArchiveClients.
  frame using
    first [ apply preserves_notifyPendingArchive; assumption
          | intros w0; unfold billingService.insert_scheduled_task, modify;
            cbn [snd]; rewrite Hsq; apply Hst ].
Qed.

Lemma runSmartArchive_writes {A} (proj : World -> A) svc :
  ignores_outbox proj ->
  (forall l w, proj (set_scheduled_tasks l w) = proj w) ->
  (forall n w, proj (set_scheduled_tasks_id_seq n w) = proj w) ->
  preserves proj (scheduledTasks.runSmartArchive svc).
Proof.
  intros Hob Hst Hsq. unfold scheduledTasks.runSmartArchive.
  frame using (apply smartArchiveClients_writes; assumption).
Qed.

(** X9.  [smartArchiveClients] never throws and never writes the clients
    or the specialists table, so it archives nothing and lifts no
    restriction.  For an account that is not restricted it does nothing
    at all.  [runSmartArchive] has the same frame, and does nothing at
    all when no specialist is restricted with reason
    [client_limit_exceeded]: accounts restricted for another reason are
    skipped. *)
Theorem smartArchive_frame svc w :
  (forall id,
     let out := billingService.smartArchiveClients svc id w in
     fst out = Ok tt
     /\ clients (snd out) = clients w
     /\ specialists (snd out) = specialists w
     /\ ((forall s, In s (specialists w) -> s_id s = id ->
                    is_restricted s = false) ->
         snd out = w))
  /\ (let out := scheduledTasks.runSmartArchive svc w in
      fst out = Ok tt
      /\ clients (snd out) = clients w
      /\ specialists (snd out) = specialists w
      /\ ((forall s, In s (specialists w) -> is_restricted s = true ->
                     restriction_reason s <> Some "client_limit_exceeded") ->
          snd out = w)).
Proof.
  split.
  - intros id out. subst out.
    split; [apply try_catch_swallow|].
    split; [apply (smartArchiveClients_writes clients);
            intros ? w0; destruct w0; reflexivity|].
    split; [apply (smartArchiveClients_writes specialists);
            intros ? w0; destruct w0; reflexivity|].
    intros Hfree. unfold billingService.smartArchiveClients.
    unfold try_catch, bind, get.
    replace (find (fun s => (s_id s =? id) && is_restricted s)
                  (specialists w)) with (@None Specialist); [reflexivity|].
    symmetry. apply find_none_all. intros s Hs.
    destruct (s_id s =? id) eqn:E; [|reflexivity].
    apply Z.eqb_eq in E. rewrite (Hfree s Hs E). reflexivity.
  - cbv zeta. split; [apply try_catch_swallow|].
    split; [apply (runSmartArchive_writes clients);
            intros ? w0; destruct w0; reflexivity|].
    split; [apply (runSmartArchive_writes specialists);
            intros ? w0; destruct w0; reflexivity|].
    intros Hnone. unfold scheduledTasks.runSmartArchive.
    unfold try_catch, bind, get.
    rewrite filter_none; [reflexivity|].
    intros s Hs. destruct (is_restricted s) eqn:E; [|reflexivity].
    cbn [andb]. apply not_true_is_false. intros Hr.
    apply opt_string_eqb_spec in Hr. exact (Hnone s Hs E Hr).
Qed.

Lemma smartArchive_frame_witness :
  snd (scheduledTasks.runSmartArchive Sample.services Sample.stale_world)
  = Sample.stale_world.
Proof.
  destruct (smartArchive_frame Sample.services Sample.stale_world)
    as [_ [_ [_ [_ H]]]].
  apply H. cbn. intros s [<-|[]] _. discriminate.
Defined.

(** One run of [smartArchiveClients] for a restricted account over a
    finite limit, when the email service accepts the notification. *)
Lemma smartArchive_run svc w id row tier :
  (forall msg, sendEmail svc msg = Ok tt) ->
  select_specialist id w = Some row ->
  is_restricted row = true ->
  join_tier row w = Some tier ->
  bt_client_limit tier <> -1 ->
  bt_client_limit tier < count_active_clients id (clients w) ->
  let candidates :=
    billingService.select_candidates id
      (count_active_clients id (clients w) - bt_client_limit tier) w in
  candidates <> [] ->
  scheduled_tasks (snd (billingService.smartArchiveClients svc id w))
  = scheduled_tasks w
      ++ scheduled_archives (scheduled_tasks_id_seq w) id (now w + days 7)
                            candidates.
Proof.
  intros Hmail Hrow Hres Htier Hfin Hover candidates Hne.
  pose proof (select_specialist_id _ _ _ Hrow) as Hid.
  remember (billingService.smartArchiveClients svc id w) as o eqn:Ho.
  unfold billingService.smartArchiveClients in Ho.
  unfold try_catch, bind at 1, get at 1 in Ho.
  rewrite (find_restricted id (specialists w) row Hrow Hres), Htier in Ho.
  cbn [option_map not_unlimited toNumber] in Ho. rewrite Hid in Ho.
  replace (bt_client_limit tier =? -1) with false in Ho
    by (symmetry; apply Z.eqb_neq; exact Hfin).
  replace (bt_client_limit tier <? count_active_clients id (clients w))
    with true in Ho by (symmetry; apply Z.ltb_lt; exact Hover).
  cbn [negb andb] in Ho. fold candidates in Ho.
  destruct candidates as [|c cs] eqn:Ecand; [contradiction|].
  cbn [List.length] in Ho.
  replace (0 <? Z.of_nat (S (List.length cs))) with true in Ho
    by (symmetry; apply Z.ltb_lt; lia).
  unfold bind at 1 in Ho.
  unfold billingService.notifyPendingArchive in Ho.
  unfold bind at 1, get at 1 in Ho. rewrite Hrow in Ho.
  unfold billingService.send_email in Ho. rewrite Hmail in Ho.
  match type of Ho with
  | context [for_of _ _ ?w1] =>
      destruct (schedule_loop id (c :: cs) w1) as [w' [Hrun [Htasks _]]]
  end.
  rewrite Hrun in Ho. subst o. cbn [snd]. exact Htasks.
Qed.

(** X10.  [smartArchiveClients] keeps no record of what it scheduled.
    Run twice on an unchanged clients table (the archival itself is
    seven days away), it selects the same candidates again and inserts a
    second pending [archive_client] task for each of them. *)
Theorem smartArchive_twice_schedules_twice svc w id row tier :
  (forall msg, sendEmail svc msg = Ok tt) ->
  select_specialist id w = Some row ->
  is_restricted row = true ->
  join_tier row w = Some tier ->
  bt_client_limit tier <> -1 ->
  bt_client_limit tier < count_active_clients id (clients w) ->
  let candidates :=
    billingService.select_candidates id
      (count_active_clients id (clients w) - bt_client_limit tier) w in
  candidates <> [] ->
  let w1 := snd (billingService.smartArchiveClients svc id w) in
  let w2 := snd (billingService.smartArchiveClients svc id w1) in
  map t_client_id (scheduled_tasks w2)
  = map t_client_id (scheduled_tasks w)
      ++ map (fun c => Some (c_id c)) (candidates ++ candidates).
Proof.
  intros Hmail Hrow Hres Htier Hfin Hover candidates Hne w1 w2.
  assert (Hids : forall seq at_time cs,
             map t_client_id (scheduled_archives seq id at_time cs)
             = map (fun c => Some (c_id c)) cs).
  { intros seq at_time cs. revert seq.
    induction cs as [|c cs IH]; intros seq; cbn; [reflexivity|].
    rewrite IH. reflexivity. }
  assert (Hcl : clients w1 = clients w)
    by (apply (smartArchiveClients_writes clients);
        intros ? w0; destruct w0; reflexivity).
  assert (Hsp : specialists w1 = specialists w)
    by (apply (smartArchiveClients_writes specialists);
        intros ? w0; destruct w0; reflexivity).
  assert (Hbt : billing_tiers w1 = billing_tiers w)
    by (apply (smartArchiveClients_writes billing_tiers);
        intros ? w0; destruct w0; reflexivity).
  assert (Hnow : now w1 = now w)
    by (apply (smartArchiveClients_writes now);
        intros ? w0; destruct w0; reflexivity).
  assert (Hrow1 : select_specialist id w1 = Some row)
    by (unfold select_specialist; rewrite Hsp; exact Hrow).
  assert (Htier1 : join_tier row w1 = Some tier)
    by (unfold join_tier; rewrite Hbt; exact Htier).
  assert (Hcand1 : billingService.select_candidates id
                     (count_active_clients id (clients w1)
                      - bt_client_limit tier) w1
                   = candidates).
  { unfold candidates, billingService.select_candidates.
    rewrite Hcl, Hnow. reflexivity. }
  unfold w2.
  rewrite (smartArchive_run svc w1 id row tier Hmail Hrow1 Hres Htier1 Hfin);
    [| rewrite Hcl; exact Hover | rewrite Hcand1; exact Hne].
  rewrite Hcand1. unfold w1.
  rewrite (smartArchive_run svc w id row tier Hmail Hrow Hres Htier Hfin Hover
             Hne).
  fold candidates. rewrite !map_app, !Hids, <- app_assoc. reflexivity.
Qed.

Lemma smartArchive_twice_witness :
  let w1 := snd (billingService.smartArchiveClients Sample.services 1
                   Sample.stale_world) in
  let w2 := snd (billingService.smartArchiveClients Sample.services 1 w1) in
  map t_client_id (scheduled_tasks w2)
  = [Some 12; Some 13; Some 12; Some 13].
Proof.
  intros w1 w2. subst w2 w1.
  rewrite (smartArchive_twice_schedules_twice Sample.services
             Sample.stale_world 1 (Sample.ada "starter" true)
             (mkTier "starter" "Starter" 29 10)).
  - reflexivity.
  - intros msg. reflexivity.
  - reflexivity.
  - reflexivity.
  - reflexivity.
  - cbn. lia.
  - vm_compute. reflexivity.
  - vm_compute. discriminate.
Defined.

(** ** Paths: prefixes, substrings and the activate pattern *)

Lemma drop_prefix_spec p s r :
  drop_prefix p s = Some r <-> s = (p ++ r)%string.
Proof.
  revert s. induction p as [|a p IH]; intros s; cbn.
  - split; congruence.
  - destruct s as [|b s]; [split; discriminate|].
    destruct (Ascii.eqb_spec a b) as [->|Hne].
    + rewrite IH. split; congruence.
    + split; [discriminate | congruence].
Qed.

Lemma drop_prefix_app p r : drop_prefix p (p ++ r) = Some r.
Proof. apply drop_prefix_spec. reflexivity. Qed.


Lemma skip_digits_app ds r :
  all_digits ds = true ->
  skip_digits r = r ->
  skip_digits (ds ++ r) = r.
Proof.
  intros Hds Hr. induction ds as [|c ds IH]; cbn in *; [exact Hr|].
  apply andb_prop in Hds. destruct Hds as [Hc Hds]. rewrite Hc. auto.
Qed.

Lemma skip_digits_split s :
  exists ds, all_digits ds = true /\ s = (ds ++ skip_digits s)%string.
Proof.
  induction s as [|c s [ds [Hds Hs]]].
  - exists "". split; reflexivity.
  - cbn [skip_digits]. destruct (is_digit c) eqn:E.
    + exists (String c ds). cbn. rewrite E, Hds.
      split; [reflexivity | congruence].
    + exists "". split; reflexivity.
Qed.

(** X11.  The pattern of the reactivation endpoint,
    [/^\/api\/clients\/\d+\/activate$/], accepts exactly the paths
    [/api/clients/<digits>/activate] with at least one digit. *)
Theorem activate_regexp_test_spec s :
  activate_regexp_test s = true
  <-> exists ds, ds <> ""
                 /\ all_digits ds = true
                 /\ s = ("/api/clients/" ++ ds ++ "/activate")%string.
Proof.
  unfold activate_regexp_test. split.
  - destruct (drop_prefix "/api/clients/" s) as [[|c rest]|] eqn:E;
      try discriminate.
    intros H. apply andb_prop in H. destruct H as [Hc Hrest].
    apply String.eqb_eq in Hrest. apply drop_prefix_spec in E.
    destruct (skip_digits_split rest) as [ds [Hds Hsplit]].
    exists (String c ds). split; [discriminate|].
    split; [cbn; rewrite Hc, Hds; reflexivity|].
    rewrite E, Hsplit, Hrest. reflexivity.
  - intros [ds [Hne [Hds ->]]]. rewrite drop_prefix_app.
    destruct ds as [|c ds]; [contradiction|].
    cbn in Hds. apply andb_prop in Hds. destruct Hds as [Hc Hds].
    cbn [String.append]. rewrite Hc. cbn [andb].
    rewrite (skip_digits_app ds "/activate" Hds eq_refl). reflexivity.
Qed.

Lemma activate_regexp_test_spec_witness :
  activate_regexp_test "/api/clients/42/activate" = true.
Proof.
  apply activate_regexp_test_spec. exists "42".
  split; [discriminate|]. split; reflexivity.
Defined.

(** ** The billing middlewares *)



(** X13.  [enforceRestrictions] only reads: whatever the request, it
    leaves the world as it was, it never throws and never answers 500
    (the queries being reliable).  It answers 404 for an unknown
    specialist; 403 with [upgrade_url] exactly when the account is
    restricted and the request matches a restricted endpoint; otherwise
    it passes the request on, unchanged but for the attached billing
    information. *)
Theorem enforceRestrictions_read_only req w :
  exists h,
    billingRestrictions.enforceRestrictions req w = (Ok h, w)
    /\ match select_specialist (user_id req) w with
       | None => exists res, h = Respond res /\ status res = 404
       | Some row =>
           if is_restricted row
              && existsb (billingRestrictions.endpoint_matches req)
                         billingRestrictions.restrictedEndpoints
           then exists res,
                  h = Respond res /\ status res = 403
                  /\ has_key "upgrade_url" (body res) = true
           else exists req',
                  h = Next req'
                  /\ method req' = method req /\ path req' = path req
                  /\ user_id req' = user_id req
                  /\ body_clientIds req' = body_clientIds req
                  /\ body_reason req' = body_reason req
                  /\ option_map isRestricted (billing req')
                     = Some (is_restricted row)
                  /\ option_map bi_clientCount (billing req')
                     = Some (client_count row)
       end.
Proof.
  unfold billingRestrictions.enforceRestrictions. run_js.
  destruct (select_specialist (user_id req) w) as [row|].
  - destruct (is_restricted row); cbn [negb andb].
    + match goal with
      | |- context [existsb ?p billingRestrictions.restrictedEndpoints] =>
          change (existsb p billingRestrictions.restrictedEndpoints)
            with (existsb (billingRestrictions.endpoint_matches req)
                          billingRestrictions.restrictedEndpoints)
      end.
      destruct (existsb (billingRestrictions.endpoint_matches req)
                        billingRestrictions.restrictedEndpoints).
      * eexists. split; [reflexivity|]. eexists. repeat split.
      * eexists. split; [reflexivity|]. eexists. repeat split.
    + eexists. split; [reflexivity|]. eexists. repeat split.
  - eexists. split; [reflexivity|]. eexists. split; reflexivity.
Qed.

Lemma enforceRestrictions_read_only_witness :
  let req := mkRequest "POST" "/api/clients/import" 1 None None None in
  let w := Sample.world "starter" true 10 in
  exists h, billingRestrictions.enforceRestrictions req w = (Ok h, w).
Proof.
  intros req w.
  destruct (enforceRestrictions_read_only req w) as [h [Hrun _]].
  exists h. exact Hrun.
Defined.

Lemma method_unrestricted req :
  method req <> "POST" -> method req <> "PUT" ->
  existsb (billingRestrictions.endpoint_matches req)
          billingRestrictions.restrictedEndpoints = false.
Proof.
  intros Hpost Hput. apply String.eqb_neq in Hpost, Hput.
  cbn [existsb billingRestrictions.restrictedEndpoints].
  unfold billingRestrictions.endpoint_matches. cbn [fst snd].
  rewrite Hpost, Hput. reflexivity.
Qed.

Lemma limit_middleware_skips svc req w :
  method req <> "POST" -> method req <> "PUT" ->
  billingRestrictions.checkClientLimits svc req w = (Ok (Next req), w).
Proof.
  intros Hpost Hput. apply String.eqb_neq in Hpost, Hput.
  unfold billingRestrictions.checkClientLimits.
  rewrite Hpost, Hput. reflexivity.
Qed.

Lemma enforceRestrictions_unmatched req w row :
  select_specialist (user_id req) w = Some row ->
  existsb (billingRestrictions.endpoint_matches req)
          billingRestrictions.restrictedEndpoints = false ->
  exists req',
    billingRestrictions.enforceRestrictions req w = (Ok (Next req'), w)
    /\ method req' = method req
    /\ user_id req' = user_id req.
Proof.
  intros Hrow Hno.
  unfold billingRestrictions.enforceRestrictions. run_js. rewrite Hrow.
  destruct (is_restricted row); cbn [negb].
  - match goal with
    | |- context [existsb ?p billingRestrictions.restrictedEndpoints] =>
        change (existsb p billingRestrictions.restrictedEndpoints)
          with (existsb (billingRestrictions.endpoint_matches req)
                        billingRestrictions.restrictedEndpoints)
    end.
    rewrite Hno. eexists. repeat split.
  - eexists. repeat split.
Qed.

(** X14.  Reading is never restricted.  A request to the client routes
    whose method is neither [POST] nor [PUT] passes both billing
    middlewares of [server.js], for every known account, restricted or
    not and whatever its count, and nothing is written: no flag, no
    message. *)
Theorem read_requests_pass svc url req w row :
  method req <> "POST" -> method req <> "PUT" ->
  select_specialist (user_id req) w = Some row ->
  exists req',
    server.api_clients svc url req w = (Ok (Next req'), w)
    /\ method req' = method req
    /\ user_id req' = user_id req.
Proof.
  intros Hpost Hput Hrow. unfold server.api_clients.
  destruct (mount_path "/api/clients" url) as [p|].
  - cbn [chain]. unfold bind at 1.
    rewrite limit_middleware_skips by assumption.
    unfold bind at 1.
    destruct (enforceRestrictions_unmatched (set_path p req) w row Hrow)
      as [req' [Hrun [Hm Hu]]].
    { apply method_unrestricted; assumption. }
    rewrite Hrun. exists req'. split; [reflexivity|]. split; assumption.
  - exists req. repeat split.
Qed.

Lemma read_requests_pass_witness :
  exists req',
    server.api_clients Sample.services "/api/clients/7"
      (mkRequest "GET" "/api/clients/7" 1 None None None)
      (Sample.world "starter" true 12)
    = (Ok (Next req'), Sample.world "starter" true 12).
Proof.
  destruct (read_requests_pass Sample.services "/api/clients/7"
              (mkRequest "GET" "/api/clients/7" 1 None None None)
              (Sample.world "starter" true 12)
              (Sample.ada "starter" true))
    as [req' [Hrun _]].
  - discriminate.
  - discriminate.
  - reflexivity.
  - exists req'. exact Hrun.
Defined.

Lemma drop_prefix_ci_app p r : drop_prefix_ci p (p ++ r) = Some r.
Proof.
  induction p as [|a p IH]; cbn [drop_prefix_ci String.append];
    [reflexivity|].
  rewrite Ascii.eqb_refl. exact IH.
Qed.

Lemma digit_not_a c : is_digit c = true -> Ascii.eqb c "a" = false.
Proof.
  intros H. destruct (Ascii.eqb_spec c "a") as [->|]; [discriminate|reflexivity].
Qed.

Lemma activate_regexp_test_digits s :
  activate_regexp_test s = true ->
  exists c ds, is_digit c = true
               /\ s = ("/api/clients" ++ String "/" (String c ds))%string.
Proof.
  unfold activate_regexp_test.
  destruct (drop_prefix "/api/clients/" s) as [[|c rest]|] eqn:E;
    try discriminate.
  intros H. apply andb_prop in H. destruct H as [Hc _].
  apply drop_prefix_spec in E. exists c, rest. split; [exact Hc | exact E].
Qed.

Lemma unmatched_paths req :
  (forall endpoint, In endpoint billingRestrictions.restrictedEndpoints ->
     match snd endpoint with
     | billingRestrictions.ActivateRegExp => activate_regexp_test (path req)
     | billingRestrictions.Exact p => String.eqb (path req) p
     end = false) ->
  existsb (billingRestrictions.endpoint_matches req)
          billingRestrictions.restrictedEndpoints = false.
Proof.
  intros H. apply not_true_is_false. intros Hex.
  apply existsb_exists in Hex. destruct Hex as [endpoint [Hin Hm]].
  unfold billingRestrictions.endpoint_matches in Hm.
  rewrite (H endpoint Hin), andb_false_r in Hm. discriminate.
Qed.

(** X15.  Under the mount of [server.js],
    [app.use('/api/clients', checkClientLimits, enforceRestrictions, ...)],
    [enforceRestrictions] sees the path without [/api/clients].  So no
    request whose URL is one of the restricted endpoints is stopped by
    it there: for every account, restricted or not, it passes each of
    them on. *)
Theorem restricted_endpoints_pass_under_mount req url p w row :
  select_specialist (user_id req) w = Some row ->
  existsb (billingRestrictions.endpoint_matches (set_path url req))
          billingRestrictions.restrictedEndpoints = true ->
  mount_path "/api/clients" url = Some p ->
  exists req',
    billingRestrictions.enforceRestrictions (set_path p req) w
    = (Ok (Next req'), w)
    /\ method req' = method req
    /\ user_id req' = user_id req.
Proof.
  intros Hrow Hm Hmount.
  apply (enforceRestrictions_unmatched (set_path p req) w row Hrow).
  apply unmatched_paths. cbn [path set_path].
  apply existsb_exists in Hm. destruct Hm as [endpoint [Hin Hm]].
  unfold billingRestrictions.endpoint_matches in Hm.
  cbn [path set_path method] in Hm.
  apply andb_prop in Hm. destruct Hm as [_ Hpath].
  assert (Hp : p = "/" \/ p = "/import" \/ p = "/bulk"
               \/ exists c ds, is_digit c = true
                               /\ p = String "/" (String c ds)).
  { cbn in Hin.
    destruct Hin as [<-|[<-|[<-|[<-|[]]]]]; cbn [snd] in Hpath.
    - apply String.eqb_eq in Hpath. subst url. cbv in Hmount.
      left. congruence.
    - apply activate_regexp_test_digits in Hpath.
      destruct Hpath as [c [ds [Hc ->]]].
      cbv [mount_path] in Hmount.
      rewrite (drop_prefix_ci_app "/api/clients" (String "/" (String c ds)))
        in Hmount.
      right. right. right. exists c, ds. split; [exact Hc | congruence].
    - apply String.eqb_eq in Hpath. subst url. cbv in Hmount.
      right. left. congruence.
    - apply String.eqb_eq in Hpath. subst url. cbv in Hmount.
      right. right. left. congruence. }
  intros e He. cbn in He.
  destruct Hp as [->|[->|[->|[c [ds [Hc ->]]]]]];
    destruct He as [<-|[<-|[<-|[<-|[]]]]]; cbn [snd]; try reflexivity.
  - cbn. rewrite (digit_not_a c Hc). reflexivity.
  - unfold activate_regexp_test. cbn -[Ascii.eqb].
    rewrite Ascii.eqb_refl, Ascii.eqb_sym, (digit_not_a c Hc). reflexivity.
  - cbn. rewrite (digit_not_a c Hc). reflexivity.
  - cbn. rewrite (digit_not_a c Hc). reflexivity.
Qed.

Lemma restricted_endpoints_pass_witness :
  exists req',
    billingRestrictions.enforceRestrictions
      (mkRequest "PUT" "/5/activate" 1 None None None)
      (Sample.world "starter" true 10)
    = (Ok (Next req'), Sample.world "starter" true 10).
Proof.
  destruct (restricted_endpoints_pass_under_mount
              (mkRequest "PUT" "/api/clients/5/activate" 1 None None None)
              "/api/clients/5/activate" "/5/activate"
              (Sample.world "starter" true 10)
              (Sample.ada "starter" true))
    as [req' [Hrun _]]; [reflexivity | reflexivity | reflexivity |].
  exists req'. exact Hrun.
Defined.

(** ** The task runner *)

Lemma insert_by_execute_at_sorted t l :
  StronglySorted earlier l ->
  StronglySorted earlier (scheduledTasks.insert_by_execute_at t l).
Proof.
  induction 1 as [|u l Hs IH Hu]; cbn [scheduledTasks.insert_by_execute_at].
  - repeat constructor.
  - destruct (Z.leb_spec (execute_at t) (execute_at u)) as [Hle|Hgt].
    + constructor; [constructor; assumption|].
      constructor; [exact Hle|].
      eapply Forall_impl; [|exact Hu].
      intros v Hv. unfold earlier in *. lia.
    + constructor; [exact IH|].
      eapply Permutation_Forall;
        [symmetry; apply insert_by_execute_at_perm|].
      constructor; [unfold earlier; lia | exact Hu].
Qed.

Lemma order_by_execute_at_sorted l :
  StronglySorted earlier (scheduledTasks.order_by_execute_at l).
Proof.
  induction l as [|t l IH]; cbn; [constructor|].
  apply insert_by_execute_at_sorted. exact IH.
Qed.

Lemma NoDup_map_injective {A B} (f : A -> B) l a b :
  NoDup (map f l) -> In a l -> In b l -> f a = f b -> a = b.
Proof.
  induction l as [|x l IH]; cbn; intros Hnd Ha Hb Hf; [contradiction|].
  inversion Hnd as [|y ys Hnotin Hnd']; subst y ys.
  destruct Ha as [->|Ha], Hb as [->|Hb].
  - reflexivity.
  - exfalso. apply Hnotin. rewrite Hf. apply in_map. exact Hb.
  - exfalso. apply Hnotin. rewrite <- Hf. apply in_map. exact Ha.
  - apply IH; assumption.
Qed.

Lemma firstn_full {A} n (l : list A) :
  skipn n l <> [] -> List.length (firstn n l) = n.
Proof.
  revert l. induction n as [|n IH]; intros l H; [reflexivity|].
  destruct l as [|a l]; [contradiction H; reflexivity|].
  cbn. f_equal. apply IH. exact H.
Qed.

Lemma runPendingTasks_run svc w w' :
  for_of (scheduledTasks.due_pending_tasks w) (scheduledTasks.executeTask svc) w
  = (Ok tt, w') ->
  scheduledTasks.runPendingTasks svc w = (Ok tt, w').
Proof.
  intros H. unfold scheduledTasks.runPendingTasks, try_catch, bind, get.
  rewrite H. reflexivity.
Qed.

(** X20.  One sweep takes the ten earliest.  The batch of
    [runPendingTasks] is in the order of [execute_at] and holds at most
    ten tasks.  Every task left out of the batch is in the queue after
    the sweep exactly as it was before; a pending due task is left out
    only when the batch is full, and then no task of the batch is
    scheduled later than it. *)
Theorem sweep_takes_the_earliest svc w :
  NoDup (map t_id (scheduled_tasks w)) ->
  let batch := scheduledTasks.due_pending_tasks w in
  let w' := snd (scheduledTasks.runPendingTasks svc w) in
  StronglySorted earlier batch
  /\ (List.length batch <= 10)%nat
  /\ forall t, In t (scheduled_tasks w) -> ~ In t batch ->
       In t (scheduled_tasks w')
       /\ (t_status t = pending -> execute_at t <= now w ->
           List.length batch = 10%nat
           /\ forall u, In u batch -> earlier u t).
Proof.
  intros Hnd batch w'.
  destruct (due_pending_tasks_spec w Hnd) as [Hbnd [Hlen Hmem]].
  fold batch in Hbnd, Hlen, Hmem.
  set (due := filter (fun t => scheduledTasks.is_pending (t_status t)
                               && (execute_at t <=? now w))
                     (scheduled_tasks w)).
  pose proof (order_by_execute_at_sorted due) as Hsorted.
  rewrite <- (firstn_skipn 10 (scheduledTasks.order_by_execute_at due))
    in Hsorted.
  apply StronglySorted_app_inv in Hsorted.
  destruct Hsorted as [Hfirst Hcross].
  split; [exact Hfirst|]. split; [exact Hlen|].
  intros t Hin Hout. split.
  - destruct (sweep_loop svc batch w Hnd Hbnd)
      as [w1 [hist [Hrun [_ [_ [_ [Hkept _]]]]]]].
    { intros u Hu. apply Hmem. exact Hu. }
    subst w'. rewrite (runPendingTasks_run svc w w1 Hrun). cbn [snd].
    apply Hkept; [exact Hin|].
    intros Hid. apply in_map_iff in Hid. destruct Hid as [u [Hu Hub]].
    apply Hout.
    rewrite <- (NoDup_map_injective t_id (scheduled_tasks w) u t Hnd);
      [exact Hub | apply Hmem; exact Hub | exact Hin | exact Hu].
  - intros Hpending Hdue.
    assert (Hrest : In t (skipn 10 (scheduledTasks.order_by_execute_at due))).
    { assert (Hd : In t (scheduledTasks.order_by_execute_at due)).
      { apply (Permutation_in _ (Permutation_sym (order_by_execute_at_perm due))).
        apply filter_In. split; [exact Hin|].
        rewrite Hpending. cbn. apply Z.leb_le. exact Hdue. }
      rewrite <- (firstn_skipn 10) in Hd. apply in_app_or in Hd.
      destruct Hd as [Hd|Hd]; [contradiction | exact Hd]. }
    split.
    + apply (firstn_full 10 (scheduledTasks.order_by_execute_at due)).
      intros E. rewrite E in Hrest. contradiction.
    + intros u Hu. apply Hcross; assumption.
Qed.

Lemma sweep_takes_the_earliest_witness :
  let batch := scheduledTasks.due_pending_tasks Sample2.busy_queue in
  StronglySorted earlier batch /\ (List.length batch <= 10)%nat.
Proof.
  intros batch.
  destruct (sweep_takes_the_earliest Sample.services Sample2.busy_queue)
    as [Hsorted [Hlen _]].
  - vm_compute. repeat (constructor; [cbn; intuition discriminate|]).
    constructor.
  - split; [exact Hsorted | exact Hlen].
Defined.















(** ** Restrictions are lifted by [clearRestrictions] only *)

Lemma never_lifted_refl l : never_lifted l l.
Proof. induction l; constructor; auto. Qed.

Lemma never_lifted_trans l1 l2 l3 :
  never_lifted l1 l2 -> never_lifted l2 l3 -> never_lifted l1 l3.
Proof.
  unfold never_lifted. intros H12. revert l3.
  induction H12 as [|a b l1 l2 [Hid Hflag] _ IH]; intros l3 H23.
  - inversion H23. constructor.
  - inversion H23 as [|b' c l2' l3' [Hid' Hflag'] Hrest]; subst.
    constructor; [|apply IH; exact Hrest].
    split; [congruence | auto].
Qed.

Lemma keeps_of_preserves {B} (m : M B) :
  preserves restriction_flags m -> keeps_restrictions m.
Proof. intros H w. rewrite H. apply never_lifted_refl. Qed.

Lemma keeps_bind {B C} (m : M B) (k : B -> M C) :
  keeps_restrictions m -> (forall b, keeps_restrictions (k b)) ->
  keeps_restrictions (bind m k).
Proof.
  intros Hm Hk w. unfold bind. specialize (Hm w).
  destruct (m w) as [[b|e] w1]; cbn [snd] in *; [|exact Hm].
  eapply never_lifted_trans; [exact Hm | apply Hk].
Qed.

Lemma keeps_try_catch {B} (m : M B) (h : string -> M B) :
  keeps_restrictions m -> (forall e, keeps_restrictions (h e)) ->
  keeps_restrictions (try_catch m h).
Proof.
  intros Hm Hh w. unfold try_catch. specialize (Hm w).
  destruct (m w) as [[b|e] w1]; cbn [snd] in *; [exact Hm|].
  eapply never_lifted_trans; [exact Hm | apply Hh].
Qed.

Lemma restriction_flags_recompute : recompute_framed restriction_flags.
Proof.
  intros sid w. unfold recompute_client_count, restriction_flags.
  cbn [specialists set_specialists].
  rewrite map_map. apply map_ext. intros s.
  destruct (s_id s =? sid); reflexivity.
Qed.

Lemma keeps_update_clients p f : keeps_restrictions (update_clients p f).
Proof.
  apply keeps_of_preserves. intros w. unfold update_clients. cbn [snd].
  rewrite (triggers_frame restriction_flags restriction_flags_recompute).
  reflexivity.
Qed.

Lemma keeps_checkClientLimits svc id :
  keeps_restrictions (billingService.checkClientLimits svc id).
Proof.
  intros w. rewrite checkClientLimits_throws. apply never_lifted_refl.
Qed.

(** X24.  Archiving never lifts a restriction.  Neither
    [POST /archive-clients] nor an [archive_client] task nor the limit
    check they end with turns [is_restricted] back to false: an account
    that was restricted stays restricted, however many of its clients
    were archived. *)
Theorem archiving_never_lifts svc w :
  (forall req,
     never_lifted (restriction_flags w)
       (restriction_flags (snd (billingRoutes.archive_clients svc req w))))
  /\ (forall task,
        never_lifted (restriction_flags w)
          (restriction_flags (snd (scheduledTasks.archiveClient svc task w)))).
Proof.
  split.
  - intros req. revert w.
    change (keeps_restrictions (billingRoutes.archive_clients svc req)).
    unfold billingRoutes.archive_clients.
    apply keeps_bind.
    + apply keeps_of_preserves. apply preserves_enforceRestrictions.
    + intros [req'|res]; [|apply keeps_of_preserves; apply preserves_ret].
      unfold billingRoutes.archive_clients_handler.
      apply keeps_try_catch;
        [|intros e; apply keeps_of_preserves; apply preserves_ret].
      destruct (body_clientIds req') as [ids|];
        [|apply keeps_of_preserves; apply preserves_ret].
      cbv zeta. apply keeps_bind;
        [apply keeps_of_preserves; apply preserves_get | intros w0].
      apply keeps_bind; [apply keeps_update_clients | intros rows].
      apply keeps_bind; [apply keeps_checkClientLimits | intros check].
      apply keeps_of_preserves. apply preserves_ret.
  - intros task. revert w.
    change (keeps_restrictions (scheduledTasks.archiveClient svc task)).
    unfold scheduledTasks.archiveClient. cbv zeta.
    apply keeps_bind;
      [apply keeps_of_preserves; apply preserves_get | intros w0].
    apply keeps_bind; [apply keeps_update_clients | intros rows].
    destruct rows as [|row rows];
      [apply keeps_of_preserves; apply preserves_ret|].
    destruct (t_specialist_id task) as [sid|];
      [|apply keeps_of_preserves; apply preserves_ret].
    apply keeps_bind; [apply keeps_checkClientLimits | intros check].
    apply keeps_of_preserves. apply preserves_ret.
Qed.

Lemma archiving_never_lifts_witness :
  let w := Sample.world "starter" true 12 in
  let task := mkTask 1 "archive_client" (Some 1) (Some 3) 20 None pending
                     None None in
  never_lifted (restriction_flags w)
    (restriction_flags
       (snd (scheduledTasks.archiveClient Sample.services task w))).
Proof.
  intros w task.
  apply (proj2 (archiving_never_lifts Sample.services w)).
Defined.
(** ** Usage tracking *)

(** X26.  [trackUsage] never blocks and never counts.  The text of its
    statement refers to the two parameters [$1] and [$2], and the call
    supplies three values, so PostgreSQL rejects the statement; the
    [catch] block logs the error and calls [next()].  Every request is
    passed on unchanged and [usage_tracking] is as it was, after any
    number of requests. *)
Theorem trackUsage_never_counts today req t :
  parameter_numbers trackUsage_statement = [1; 2; 2]
  /\ bind_accepted trackUsage_statement 3 = false
  /\ trackUsage today req t = (Next req, t)
  /\ forall n,
       Nat.iter n (fun table => snd (trackUsage today req table)) t = t.
Proof.
  assert (Hrun : forall table, trackUsage today req table = (Next req, table)).
  { intros table. unfold trackUsage.
    replace (bind_accepted trackUsage_statement 3) with false
      by (vm_compute; reflexivity).
    reflexivity. }
  split; [vm_compute; reflexivity|].
  split; [vm_compute; reflexivity|].
  split; [apply Hrun|].
  induction n as [|n IH]; [reflexivity|].
  rewrite Nat.iter_succ, IH, Hrun. reflexivity.
Qed.

Lemma trackUsage_never_counts_witness :
  let req := mkRequest "GET" "/api/clients" 1 None None None in
  Nat.iter 3 (fun table => snd (trackUsage "2024-05-01" req table)) [] = [].
Proof.
  intros req.
  destruct (trackUsage_never_counts "2024-05-01" req [])
    as [_ [_ [_ Hn]]].
  exact (Hn 3%nat).
Defined.

(** ** [batchInsert] *)

Lemma map_offset_seq a k n :
  map (fun j => (a + j + 1)%nat) (seq k n) = seq (a + k + 1) n.
Proof.
  revert k. induction n as [|n IH]; intros k; cbn [seq map].
  - reflexivity.
  - f_equal. rewrite IH. f_equal. lia.
Qed.

Lemma placeholder_numbers_flat rows columns :
  List.concat (placeholder_numbers rows columns) = seq 1 (rows * columns).
Proof.
  unfold placeholder_numbers.
  induction rows as [|rows IH].
  - reflexivity.
  - rewrite seq_S, map_app, concat_app, IH. cbn [map List.concat Nat.add].
    rewrite app_nil_r, map_offset_seq.
    rewrite Nat.add_0_r.
    replace (S rows * columns)%nat with (rows * columns + columns)%nat by lia.
    rewrite seq_app. f_equal. f_equal. lia.
Qed.

Lemma length_concat_rows {V} (values : list (list V)) n :
  (forall row, In row values -> List.length row = n) ->
  List.length (List.concat values) = (List.length values * n)%nat.
Proof.
  induction values as [|row values IH]; intros H; cbn; [reflexivity|].
  rewrite length_app, (H row (or_introl eq_refl)), IH; [reflexivity|].
  intros r Hr. apply H. right. exact Hr.
Qed.

(** *** Reading the numbers back from the text *)

Lemma scan_number d n tail :
  scan_parameters (Number n) (NilEmpty.string_of_uint d ++ tail)
  = scan_parameters (Number (uint_value d n)) tail.
Proof.
  revert n. induction d; intros n; cbn [NilEmpty.string_of_uint String.append uint_value];
    [reflexivity | ..]; rewrite <- IHd; reflexivity.
Qed.

Lemma uint_value_pos d p :
  uint_value d (Z.pos p) = Z.pos (Pos.of_uint_acc d p).
Proof.
  revert p. induction d; intros p; cbn [uint_value Pos.of_uint_acc];
    [reflexivity | ..];
    rewrite <- IHd; f_equal; lia.
Qed.

Lemma uint_value_zero d : uint_value d 0 = Z.of_N (Pos.of_uint d).
Proof.
  induction d; cbn [uint_value Pos.of_uint]; [reflexivity | exact IHd | ..];
    cbn [Z.mul Z.add Z.of_N]; apply uint_value_pos.
Qed.

Lemma scan_show_Z z tail :
  0 <= z ->
  scan_parameters Dollar (show_Z z ++ tail)
  = scan_parameters (Number z) tail.
Proof.
  intros Hz. unfold show_Z. destruct z as [|p|p]; [reflexivity | | lia].
  cbn [Z.to_int NilZero.string_of_int].
  pose proof (DecimalPos.Unsigned.of_to p) as Hp.
  pose proof (DecimalPos.Unsigned.to_uint_nonnil p) as Hnil.
  assert (Hval : uint_value (Pos.to_uint p) 0 = Z.pos p)
    by (rewrite uint_value_zero, Hp; reflexivity).
  destruct (Pos.to_uint p) as [|d|d|d|d|d|d|d|d|d|d];
    [contradiction | ..];
    cbn [NilZero.string_of_uint NilEmpty.string_of_uint String.append];
    rewrite <- Hval;
    cbn [uint_value]; rewrite <- scan_number; reflexivity.
Qed.

Lemma append_assoc (a b c : string) :
  ((a ++ b) ++ c = a ++ (b ++ c))%string.
Proof. induction a; cbn; congruence. Qed.

Lemma append_empty (a : string) : (a ++ "" = a)%string.
Proof. induction a; cbn; congruence. Qed.

Lemma scan_item n tail :
  scan_parameters Outside (placeholder n ++ tail)
  = scan_parameters (Number (Z.of_nat n)) tail.
Proof.
  change (scan_parameters Outside (placeholder n ++ tail))
    with (scan_parameters Dollar (show_Z (Z.of_nat n) ++ tail)).
  apply scan_show_Z. lia.
Qed.

(** One row of placeholders, up to its closing parenthesis. *)
Lemma scan_row_items (row : list nat) tail :
  scan_parameters Outside
    (join ", " (map placeholder row) ++ String ")" tail)
  = map Z.of_nat row ++ scan_parameters Outside tail.
Proof.
  induction row as [|n row IH]; [reflexivity|].
  destruct row as [|m row].
  - cbn [map join]. rewrite scan_item. reflexivity.
  - change (join ", " (map placeholder (n :: m :: row)))
      with (placeholder n ++ ", " ++ join ", " (map placeholder (m :: row)))%string.
    rewrite !append_assoc, scan_item.
    match goal with
    | |- scan_parameters (Number ?v) (", " ++ ?k)%string = _ =>
        change (scan_parameters (Number v) (", " ++ k)%string)
          with (v :: scan_parameters Outside k)
    end.
    rewrite IH. reflexivity.
Qed.

Lemma scan_row (row : list nat) tail :
  scan_parameters Outside (placeholder_row row ++ tail)
  = map Z.of_nat row ++ scan_parameters Outside tail.
Proof.
  unfold placeholder_row. rewrite !append_assoc.
  change (scan_parameters Outside
            ("(" ++ join ", " (map placeholder row) ++ ")" ++ tail))
    with (scan_parameters Outside
            (join ", " (map placeholder row) ++ String ")" tail)).
  apply scan_row_items.
Qed.

Lemma scan_rows (rows : list (list nat)) :
  parameter_numbers (join ", " (map placeholder_row rows))
  = map Z.of_nat (List.concat rows).
Proof.
  unfold parameter_numbers.
  induction rows as [|row rows IH]; [reflexivity|].
  destruct rows as [|next rows].
  - cbn [map join List.concat]. rewrite app_nil_r.
    rewrite <- (append_empty (placeholder_row row)), scan_row.
    cbn [scan_parameters flush]. apply app_nil_r.
  - change (join ", " (map placeholder_row (row :: next :: rows)))
      with (placeholder_row row
              ++ ", " ++ join ", " (map placeholder_row (next :: rows)))%string.
    rewrite scan_row.
    match goal with
    | |- _ ++ scan_parameters Outside (", " ++ ?k)%string = _ =>
        change (scan_parameters Outside (", " ++ k)%string)
          with (scan_parameters Outside k)
    end.
    rewrite IH. cbn [List.concat]. rewrite !map_app. reflexivity.
Qed.

Lemma max_from a l :
  0 <= a -> fold_right Z.max a l = Z.max a (fold_right Z.max 0 l).
Proof.
  intros Ha. induction l as [|x l IH]; cbn [fold_right]; [lia|].
  rewrite IH. lia.
Qed.

Lemma max_parameter n :
  fold_right Z.max 0 (map Z.of_nat (seq 1 n)) = Z.of_nat n.
Proof.
  induction n as [|n IH]; [reflexivity|].
  rewrite seq_S, map_app, fold_right_app. cbn [map fold_right].
  rewrite max_from by lia. rewrite IH. lia.
Qed.

(** X27.  [batchInsert] numbers its placeholders row by row from [$1].
    With no rows it sends no statement.  Otherwise the statement is
    [INSERT INTO <table> (<columns>) VALUES] followed by the placeholder
    text, and that text, read back as PostgreSQL reads the parameters
    of a statement, refers to [$1 .. $(r*c)] in this order for [r] rows
    and [c] columns; the values are sent flattened in the order of the
    rows.  When every row has as many values as there are columns,
    there are [r*c] of them, as many as the statement requires. *)
Theorem batchInsert_placeholders {V} table columns (values : list (list V)) :
  let r := List.length values in
  let c := List.length columns in
  (batchInsert table columns values = None <-> values = [])
  /\ (values <> [] ->
      batchInsert table columns values
      = Some (("INSERT INTO " ++ table ++ " (" ++ join ", " columns
                 ++ ") VALUES " ++ placeholders r c)%string,
              List.concat values))
  /\ parameter_numbers (placeholders r c) = map Z.of_nat (seq 1 (r * c))
  /\ ((forall row, In row values -> List.length row = c) ->
      List.length (List.concat values) = (r * c)%nat
      /\ bind_accepted (placeholders r c) (List.length (List.concat values))
         = true).
Proof.
  intros r c.
  assert (Hnumbers : parameter_numbers (placeholders r c)
                     = map Z.of_nat (seq 1 (r * c))).
  { unfold placeholders. rewrite scan_rows, placeholder_numbers_flat.
    reflexivity. }
  split; [|split; [|split]].
  - destruct values; unfold batchInsert; split; intros H;
      try reflexivity; discriminate H.
  - intros Hne. destruct values; [contradiction|]. reflexivity.
  - exact Hnumbers.
  - intros Hwidth.
    assert (Hlen : List.length (List.concat values) = (r * c)%nat)
      by (apply length_concat_rows; exact Hwidth).
    split; [exact Hlen|].
    unfold bind_accepted. rewrite Hnumbers, max_parameter, Hlen.
    apply Z.eqb_refl.
Qed.

Lemma batchInsert_placeholders_witness :
  let columns := ["specialist_id"; "metric_name"] in
  let values := [[JNum 1; JStr "api_calls"]; [JNum 2; JStr "api_calls"]] in
  parameter_numbers (placeholders 2 2) = [1; 2; 3; 4]
  /\ bind_accepted (placeholders 2 2) (List.length (List.concat values))
     = true.
Proof.
  intros columns values.
  destruct (batchInsert_placeholders "usage_tracking" columns values)
    as [_ [_ [Hnumbers Hall]]].
  split; [exact Hnumbers|].
  apply Hall. intros row [<-|[<-|[]]]; reflexivity.
Defined.
